(** * Queue-and-timer engine of erod-ticket (src/app.py, src/models.py)

    A shallow embedding of the queue mutation engine and of the virtual
    timer, followed by the properties of the specification.

    Modelling conventions.
    - A [datetime] is an integer number of microseconds (the resolution of
      Python's [datetime]); [timedelta(seconds=n)] is [n * 1000000].
      [total_seconds()] is the exact quotient by [10^6], so a comparison
      [elapsed < tour_len] is a comparison of microsecond counts and
      [int(tour_len - elapsed)] is a quotient truncated towards zero.
    - The two tables are a list of [Person] rows in insertion order and the
      singleton [Setting] row.  The SQLAlchemy session flushes pending
      attribute writes before each query, so a query sees the writes made so
      far; the state threaded through an operation is the session state and
      [db.session.commit()] leaves it as it is.
    - [order_by] is a stable sort of the rows; NULL sorts as the smallest
      value (SQLite, the database of the test-suite).
    - Every call of [datetime.utcnow()] is a parameter of the operation.
    - A Python exception ends the operation with [Raise], together with the
      session state reached when it was raised.
    - A number of a request body is a Python [int] (an integer of any size)
      or a [float], an IEEE 754 binary64 value with the operations of
      [SpecFloat]; [int(x)] of a float drops the fraction and raises on NaN
      and on the infinities.
    - A route is modelled from the values it reads off the request body to
      its JSON reply and status code; the rendering of a row ([to_dict]),
      the templates and the QR code are left out. *)

From Stdlib Require Import String ZArith List Bool Lia Permutation Sorted.
From Stdlib Require Import SpecFloat.
Import ListNotations.
Open Scope Z_scope.

(** ** Data model (src/models.py) *)

Definition datetime := Z.

Definition timedelta (seconds : Z) : Z := seconds * 1000000.

Inductive Status := Waiting | Passed.

Record Person := mkPerson {
  id : Z;
  name : string;
  status : Status;
  position : option Z;
  added_at : option datetime;
  passed_at : option datetime
}.

Record Setting := mkSetting {
  tour_length_seconds : Z;
  timer_paused : bool;
  start_time : option datetime;
  time_remaining_on_pause : option Z
}.

Record Store := mkStore {
  persons : list Person;
  setting : Setting
}.

Definition set_status (v : Status) (p : Person) : Person :=
  mkPerson (id p) (name p) v (position p) (added_at p) (passed_at p).
Definition set_position (v : option Z) (p : Person) : Person :=
  mkPerson (id p) (name p) (status p) v (added_at p) (passed_at p).
Definition set_passed_at (v : option datetime) (p : Person) : Person :=
  mkPerson (id p) (name p) (status p) (position p) (added_at p) v.

Definition set_tour_length_seconds (v : Z) (s : Setting) : Setting :=
  mkSetting v (timer_paused s) (start_time s) (time_remaining_on_pause s).
Definition set_timer_paused (v : bool) (s : Setting) : Setting :=
  mkSetting (tour_length_seconds s) v (start_time s) (time_remaining_on_pause s).
Definition set_start_time (v : option datetime) (s : Setting) : Setting :=
  mkSetting (tour_length_seconds s) (timer_paused s) v (time_remaining_on_pause s).
Definition set_time_remaining_on_pause (v : option Z) (s : Setting) : Setting :=
  mkSetting (tour_length_seconds s) (timer_paused s) (start_time s) v.

Definition is_waiting (p : Person) : bool :=
  match status p with Waiting => true | Passed => false end.
Definition is_passed (p : Person) : bool :=
  match status p with Waiting => false | Passed => true end.

(** [init_db]: the default settings row and no person. *)
Definition init_db : Store :=
  mkStore [] (mkSetting 300 false None None).

(** ** Python values: truthiness and comparisons that may raise *)

Inductive exn := ValueError (msg : string) | TypeError | OverflowError (msg : string).

Inductive outcome (A : Type) := Return (a : A) | Raise (e : exn).
Arguments Return {A} a.
Arguments Raise {A} e.

(** [bool(v)] of an optional integer: [None] and [0] are false. *)
Definition truthy (v : option Z) : bool :=
  match v with Some n => negb (n =? 0) | None => false end.

(** [v or d]. *)
Definition py_or (v : option Z) (d : Z) : Z :=
  match v with Some n => if n =? 0 then d else n | None => d end.

(** Ordering comparisons raise [TypeError] when an operand is [None]. *)
Definition py_cmp (op : Z -> Z -> bool) (a b : option Z) : outcome bool :=
  match a, b with
  | Some x, Some y => Return (op x y)
  | _, _ => Raise TypeError
  end.
Definition py_gt := py_cmp Z.gtb.
Definition py_ge := py_cmp Z.geb.
Definition py_lt := py_cmp Z.ltb.
Definition py_le := py_cmp Z.leb.

(** [v + d] / [v - d] on an attribute that may be [None]. *)
Definition py_add (v : option Z) (d : Z) : outcome Z :=
  match v with Some n => Return (n + d) | None => Raise TypeError end.

(** [a == b] never raises. *)
Definition py_eq (a b : option Z) : bool :=
  match a, b with
  | Some x, Some y => x =? y
  | None, None => true
  | _, _ => false
  end.

(** ** The session monad: state passing with exceptions *)

Definition M (A : Type) : Type := Store -> outcome A * Store.

Definition ret {A} (a : A) : M A := fun st => (Return a, st).
Definition raise {A} (e : exn) : M A := fun st => (Raise e, st).
Definition bind {A B} (m : M A) (k : A -> M B) : M B :=
  fun st =>
    match m st with
    | (Return a, st') => k a st'
    | (Raise e, st') => (Raise e, st')
    end.
Definition lift {A} (o : outcome A) : M A := fun st => (o, st).

Declare Scope session_scope.
Delimit Scope session_scope with session.
Notation "x <- m ;; k" := (bind m (fun x => k))
  (at level 61, m at next level, right associativity) : session_scope.
Notation "m ;; k" := (bind m (fun _ => k))
  (at level 61, right associativity) : session_scope.
Open Scope session_scope.

Fixpoint for_each {A} (l : list A) (body : A -> M unit) : M unit :=
  match l with
  | [] => ret tt
  | x :: l' => body x ;; for_each l' body
  end.

(** Attribute writes on the ORM object of the row [pid]. *)
Definition update_row (pid : Z) (f : Person -> Person) (l : list Person) : list Person :=
  map (fun p => if id p =? pid then f p else p) l.
Definition setattr (pid : Z) (f : Person -> Person) : M unit :=
  fun st => (Return tt, mkStore (update_row pid f (persons st)) (setting st)).
Definition set_setting (f : Setting -> Setting) : M unit :=
  fun st => (Return tt, mkStore (persons st) (f (setting st))).
Definition get_setting : M Setting := fun st => (Return (setting st), st).
Definition commit : M unit := ret tt.

(** ** Queries *)

Section OrderBy.
Context {A : Type} (le : A -> A -> bool).

Fixpoint insert_sorted (x : A) (l : list A) : list A :=
  match l with
  | [] => [x]
  | y :: l' => if le x y then x :: l else y :: insert_sorted x l'
  end.

Definition order_by (l : list A) : list A := fold_right insert_sorted [] l.
End OrderBy.

(** Ascending order of a nullable integer column, NULL first. *)
Definition opt_le (a b : option Z) : bool :=
  match a, b with
  | None, _ => true
  | Some _, None => false
  | Some x, Some y => x <=? y
  end.

Definition by_position (p q : Person) : bool := opt_le (position p) (position q).
Definition by_passed_at_desc (p q : Person) : bool := opt_le (passed_at q) (passed_at p).

Definition waiting_rows (l : list Person) : list Person := filter is_waiting l.
Definition passed_rows (l : list Person) : list Person := filter is_passed l.

(** [Person.query.filter_by(status='waiting').order_by(Person.position).all()] *)
Definition get_waiting : M (list Person) :=
  fun st => (Return (order_by by_position (waiting_rows (persons st))), st).

(** [... .order_by(Person.position).first()] *)
Definition first_waiting : M (option Person) :=
  fun st => (Return (hd_error (order_by by_position (waiting_rows (persons st)))), st).

(** [Person.query.filter(Person.status == 'waiting').all()] (no ordering). *)
Definition all_waiting : M (list Person) :=
  fun st => (Return (waiting_rows (persons st)), st).

(** [Person.query.filter_by(status='passed').order_by(Person.passed_at.desc())] *)
Definition get_passed : M (list Person) :=
  fun st => (Return (order_by by_passed_at_desc (passed_rows (persons st))), st).
Definition last_passed : M (option Person) :=
  fun st => (Return (hd_error (order_by by_passed_at_desc (passed_rows (persons st)))), st).

(** [Person.query.get(pid)] *)
Definition Person_get (pid : Z) : M (option Person) :=
  fun st => (Return (find (fun p => id p =? pid) (persons st)), st).

(** The primary key given to an inserted row: one more than the largest. *)
Definition next_id (l : list Person) : Z :=
  1 + fold_right (fun p m => Z.max (id p) m) 0 l.

Definition insert_row (p : Person) : M unit :=
  fun st => (Return tt, mkStore (persons st ++ [p]) (setting st)).

(** ** Clock projection (src/app.py, compute_time_remaining_seconds) *)

(** [int(x)] of a number of seconds given in microseconds: truncation. *)
Definition int_of_seconds (us : Z) : Z := Z.quot us 1000000.

Definition compute_time_remaining_seconds (now : datetime) (s : Setting) : option Z :=
  if timer_paused s then time_remaining_on_pause s
  else
    match start_time s with
    | None => None
    | Some start =>
        let elapsed := now - start in
        Some (Z.max (int_of_seconds (timedelta (tour_length_seconds s) - elapsed)) 0)
    end.

(** ** Queue mutation engine *)

(** The position loops all have one shape:
    [for w in waiting: if cond(w): w.position += delta]. *)
Definition shift_where (cond : Person -> outcome bool) (delta : Z)
    (waiting : list Person) : M unit :=
  for_each waiting (fun w =>
    b <- lift (cond w) ;;
    if b then
      v <- lift (py_add (position w) delta) ;;
      setattr (id w) (set_position (Some v))
    else ret tt).

(** [a and b]: [b] is evaluated only when [a] is true. *)
Definition py_and (a b : outcome bool) : outcome bool :=
  match a with
  | Return true => b
  | Return false => Return false
  | Raise e => Raise e
  end.

(** The loop shared by [process_timer_advances] and [advance_next]:
    [first] is skipped and every waiting row behind it moves up by one. *)
Definition behind (first : Person) (w : Person) : outcome bool :=
  if id w =? id first then Return false
  else py_and (Return (truthy (position w))) (py_gt (position w) (position first)).

Definition shift_up_behind (first : Person) (waiting : list Person) : M unit :=
  shift_where (behind first) (-1) waiting.

(** One turn of the [while True] loop of [process_timer_advances]; the
    result tells whether the loop goes round again. *)
Definition process_iteration (now : datetime) (tour_len : Z) : M bool :=
  s <- get_setting ;;
  match start_time s with
  | None => ret false
  | Some start =>
      let elapsed := now - start in
      if elapsed <? timedelta tour_len then ret false
      else
        first <- first_waiting ;;
        match first with
        | None =>
            set_setting (set_start_time None) ;;
            set_setting (set_time_remaining_on_pause None) ;;
            commit ;;
            ret false
        | Some first =>
            setattr (id first) (set_status Passed) ;;
            setattr (id first) (set_passed_at (Some (start + timedelta tour_len))) ;;
            waiting <- get_waiting ;;
            shift_up_behind first waiting ;;
            setattr (id first) (set_position None) ;;
            commit ;;
            waiting_after <- get_waiting ;;
            match waiting_after with
            | _ :: _ => set_setting (set_start_time (Some (start + timedelta tour_len)))
            | [] => set_setting (set_start_time None)
            end ;;
            commit ;;
            ret true
        end
  end.

(** The loop, with [clock i] the reading of [datetime.utcnow()] in turn [i].
    [None] means that the fuel ran out. *)
Fixpoint process_loop (fuel : nat) (clock : nat -> datetime) (i : nat) (tour_len : Z)
    (st : Store) : option (outcome unit * Store) :=
  match fuel with
  | O => None
  | S fuel' =>
      match process_iteration (clock i) tour_len st with
      | (Return true, st') => process_loop fuel' clock (S i) tour_len st'
      | (Return false, st') => Some (Return tt, st')
      | (Raise e, st') => Some (Raise e, st')
      end
  end.

Definition process_timer_advances_fuel (fuel : nat) (clock : nat -> datetime)
    (st : Store) : option (outcome unit * Store) :=
  let s := setting st in
  if timer_paused s || (match start_time s with None => true | Some _ => false end)
  then Some (Return tt, st)
  else process_loop fuel clock 0 (tour_length_seconds s) st.

(** Every turn but the last moves one row out of the waiting set, so two
    turns more than there are rows always suffice (see
    [process_timer_advances_total]). *)
Definition process_timer_advances (clock : nat -> datetime) (st : Store)
    : option (outcome unit * Store) :=
  process_timer_advances_fuel (S (S (length (persons st)))) clock st.

Definition add_person (name : string) (now_added now_start : datetime) : M Person :=
  waiting <- get_waiting ;;
  let max_pos :=
    match rev waiting with
    | w :: _ => py_or (position w) (Z.of_nat (length waiting))
    | [] => 0
    end in
  rows <- (fun st => (Return (persons st), st)) ;;
  let new_person :=
    mkPerson (next_id rows) name Waiting (Some (max_pos + 1)) (Some now_added) None in
  insert_row new_person ;;
  s <- get_setting ;;
  match start_time s, timer_paused s with
  | None, false => set_setting (set_start_time (Some now_start))
  | None, true =>
      match time_remaining_on_pause s with
      | None => set_setting (set_time_remaining_on_pause (Some (tour_length_seconds s)))
      | Some _ => ret tt
      end
  | Some _, _ => ret tt
  end ;;
  commit ;;
  ret new_person.

(** [s.time_remaining_on_pause = s.tour_length_seconds] *)
Definition full_length_on_pause : M unit :=
  set_setting (fun s => set_time_remaining_on_pause (Some (tour_length_seconds s)) s).

Definition advance_next (now : datetime) : M (option Person) :=
  s <- get_setting ;;
  first <- first_waiting ;;
  match first with
  | None => ret None
  | Some first =>
      setattr (id first) (set_status Passed) ;;
      setattr (id first) (set_passed_at (Some now)) ;;
      waiting <- get_waiting ;;
      shift_up_behind first waiting ;;
      setattr (id first) (set_position None) ;;
      waiting_after <- get_waiting ;;
      match waiting_after with
      | _ :: _ => set_setting (set_start_time (Some now))
      | [] => set_setting (set_start_time None)
      end ;;
      (if timer_paused s then full_length_on_pause else ret tt) ;;
      commit ;;
      Person_get (id first)
  end.

(** The timer reset shared by [go_back] and [reorder_waiting]. *)
Definition restart_or_full_length (now : datetime) : M unit :=
  s <- get_setting ;;
  if negb (timer_paused s) then set_setting (set_start_time (Some now))
  else full_length_on_pause.

Definition go_back (now : datetime) : M (option Person) :=
  s <- get_setting ;;
  last <- last_passed ;;
  match last with
  | None => ret None
  | Some last =>
      waiting <- get_waiting ;;
      for_each waiting (fun w =>
        setattr (id w) (set_position (Some (py_or (position w) 0 + 1)))) ;;
      setattr (id last) (set_status Waiting) ;;
      setattr (id last) (set_position (Some 1)) ;;
      setattr (id last) (set_passed_at None) ;;
      restart_or_full_length now ;;
      commit ;;
      Person_get (id last)
  end.

(** [enumerate(l)] with the index as an integer. *)
Definition enumerate {A} (l : list A) : list (Z * A) :=
  combine (map Z.of_nat (seq 0 (length l))) l.

Definition reorder_waiting (new_order_ids : list Z) (now : datetime) : M unit :=
  waiting <- all_waiting ;;
  let waiting_ids := map id waiting in
  for_each new_order_ids (fun _id =>
    if existsb (Z.eqb _id) waiting_ids then ret tt
    else raise (ValueError "Invalid id in reorder")) ;;
  for_each (enumerate new_order_ids) (fun '(idx, pid) =>
    setattr pid (set_position (Some (idx + 1)))) ;;
  restart_or_full_length now ;;
  commit.

(** The timer reset at the end of [move_person_to]. *)
Definition reset_timer_after_move (now : datetime) : M unit :=
  s <- get_setting ;;
  first <- first_waiting ;;
  if negb (timer_paused s) then
    match first with
    | Some _ => set_setting (set_start_time (Some now))
    | None => set_setting (set_start_time None)
    end
  else full_length_on_pause.

(** The branches of [move_person_to]; the result is [false] where the
    source returns early, before the timer reset and the commit. *)
Definition move_to_waiting (p : Person) (to_position : option Z) : M bool :=
  match status p with
  | Passed =>
      waiting <- get_waiting ;;
      let insert_pos :=
        match to_position with
        | None => 1
        | Some tp => if tp <? 1 then 1 else Z.min (Z.of_nat (length waiting) + 1) tp
        end in
      shift_where (fun w => py_and (Return (truthy (position w)))
                                   (py_ge (position w) (Some insert_pos))) 1 waiting ;;
      setattr (id p) (set_status Waiting) ;;
      setattr (id p) (set_position (Some insert_pos)) ;;
      setattr (id p) (set_passed_at None) ;;
      ret true
  | Waiting =>
      waiting <- get_waiting ;;
      match to_position with
      | None => ret false
      | Some tp =>
          let to_pos := Z.max 1 (Z.min (Z.of_nat (length waiting)) tp) in
          let old_pos := position p in
          if py_eq old_pos (Some to_pos) then ret false
          else
            earlier <- lift (py_gt old_pos (Some to_pos)) ;;
            (if earlier then
               shift_where (fun w =>
                 py_and (py_ge (position w) (Some to_pos))
                        (py_lt (position w) old_pos)) 1 waiting
             else
               shift_where (fun w =>
                 py_and (py_le (position w) (Some to_pos))
                        (py_gt (position w) old_pos)) (-1) waiting) ;;
            setattr (id p) (set_position (Some to_pos)) ;;
            ret true
      end
  end.

Definition move_to_passed (p : Person) (now : datetime) : M bool :=
  match status p with
  | Waiting =>
      waiting <- get_waiting ;;
      shift_where (fun w => py_and (Return (truthy (position w)))
                                   (py_gt (position w) (position p))) (-1) waiting ;;
      setattr (id p) (set_position None)
  | Passed => ret tt
  end ;;
  setattr (id p) (set_status Passed) ;;
  setattr (id p) (set_passed_at (Some now)) ;;
  ret true.

Definition move_person_to (person_id : Z) (to_status : string)
    (to_position : option Z) (now : datetime) : M unit :=
  p <- Person_get person_id ;;
  match p with
  | None => raise (ValueError "person not found")
  | Some p =>
      proceed <-
        (if String.eqb to_status "waiting" then move_to_waiting p to_position
         else if String.eqb to_status "passed" then move_to_passed p now
         else raise (ValueError "invalid target status")) ;;
      if proceed then reset_timer_after_move now ;; commit else ret tt
  end.

(** ** Routes that change the timer (api_pause, api_set_tour_length) *)

Inductive Response :=
| Resumed
| PausedWith (time_remaining_seconds : option Z)
| TourLengthSet (tour_length : Z)
| BadRequest (error : string).

Definition api_pause (now : datetime) : M Response :=
  s <- get_setting ;;
  if timer_paused s then
    (* the source stores the full length in a missing snapshot, then reads it *)
    let remaining :=
      match time_remaining_on_pause s with
      | Some r => r
      | None => tour_length_seconds s
      end in
    set_setting (set_start_time
      (Some (now - timedelta (tour_length_seconds s - remaining)))) ;;
    set_setting (set_time_remaining_on_pause None) ;;
    set_setting (set_timer_paused false) ;;
    commit ;;
    ret Resumed
  else
    match start_time s with
    | None => full_length_on_pause
    | Some start =>
        let elapsed := now - start in
        let rem := Z.max (int_of_seconds (timedelta (tour_length_seconds s) - elapsed)) 0 in
        set_setting (set_time_remaining_on_pause (Some rem))
    end ;;
    set_setting (set_timer_paused true) ;;
    commit ;;
    s <- get_setting ;;
    ret (PausedWith (time_remaining_on_pause s)).

(** A Python [float] is an IEEE 754 binary64 value: a [spec_float] with a
    mantissa of 53 bits and the infinities at exponent 1024.  [float(k)] of
    an [int] and the product of two floats round to nearest, ties to even. *)
Definition float := spec_float.
Definition float_of_int (k : Z) : float := binary_normalize 53 1024 k 0 false.
Definition float_mul (x y : float) : float := SFmul 53 1024 x y.

(** [int(x)] of a float: its value [m * 2^e] without the fraction, that is,
    truncated toward zero; NaN and the infinities raise. *)
Definition int_of_float (x : float) : outcome Z :=
  match x with
  | S754_zero _ => Return 0
  | S754_finite s m e =>
      Return (cond_Zopp s (if 0 <=? e then Z.pos m * 2 ^ e else Z.pos m / 2 ^ (- e)))
  | S754_nan => Raise (ValueError "cannot convert float NaN to integer")
  | S754_infinity _ =>
      Raise (OverflowError "cannot convert float infinity to integer")
  end.

(** A value of the JSON body, as far as [isinstance(v, (int, float))],
    [v * 60] and [int(v)] tell values apart: an integer, a boolean, a
    number written with a fraction or an exponent (Python also reads [NaN]
    and [Infinity]), anything else. *)
Inductive json := JInt (n : Z) | JBool (b : bool) | JFloat (x : float) | JOther.

(** A Python number: an [int] or a [float]. *)
Inductive number := NInt (n : Z) | NFloat (x : float).

(** [Some v] when [isinstance(v, (int, float))]; [bool] is a subclass of
    [int] in Python. *)
Definition as_number (v : json) : option number :=
  match v with
  | JInt n => Some (NInt n)
  | JBool b => Some (NInt (if b then 1 else 0))
  | JFloat x => Some (NFloat x)
  | JOther => None
  end.

(** [v * k] for an [int] [k], and [int(v)]. *)
Definition py_mul (v : number) (k : Z) : number :=
  match v with
  | NInt n => NInt (n * k)
  | NFloat x => NFloat (float_mul x (float_of_int k))
  end.
Definition py_int (v : number) : outcome Z :=
  match v with
  | NInt n => Return n
  | NFloat x => int_of_float x
  end.

(** The keys of the request body that the route reads; [None]: no key. *)
Record tour_length_body := mkBody {
  minutes : option json;
  seconds : option json
}.

Definition number_at (field : option json) : option number :=
  match field with Some v => as_number v | None => None end.

(** The number that the route converts with [int]: [data['minutes'] * 60]
    when [minutes] holds a number, else [data['seconds']] when that key
    holds one. *)
Definition requested_number (data : tour_length_body) : option number :=
  match number_at (minutes data), number_at (seconds data) with
  | Some m, _ => Some (py_mul m 60)
  | None, Some n => Some n
  | None, None => None
  end.

Definition api_set_tour_length (data : tour_length_body) (now : datetime) : M Response :=
  match requested_number data with
  | None => ret (BadRequest "seconds or minutes required")
  | Some x =>
      v <- lift (py_int x) ;;
      set_setting (set_tour_length_seconds v) ;;
      s <- get_setting ;;
      (if negb (timer_paused s) then set_setting (set_start_time (Some now))
       else full_length_on_pause) ;;
      commit ;;
      s <- get_setting ;;
      ret (TourLengthSet (tour_length_seconds s))
  end.

(** ** Waiting-time estimate (src/app.py, estimate_wait_minutes) *)

(** [int((person.position - 1) * s.tour_length_seconds / 60)]: the true
    division followed by [int] truncates toward zero, which on integers of
    a magnitude below [2^53] is the truncated integer quotient. *)
Definition estimate_wait_minutes (person : Person) : M Z :=
  s <- get_setting ;;
  if negb (truthy (position person)) then ret 0
  else
    n <- lift (py_add (position person) (-1)) ;;
    ret (Z.quot (n * tour_length_seconds s) 60).

(** ** The routes over the engine (src/app.py) *)

(** A JSON reply with its status code: [{'message': m}], with the row under
    ['person'] when one is sent; [{'error': e}], the error being a literal
    or [str(e)] of the exception caught; the row created by [register]. *)
Inductive reply :=
| Message (code : Z) (message : string) (person : option Person)
| Failure (code : Z) (error : string)
| FailureOf (code : Z) (e : exn)
| Created (code : Z) (person : Person).

(** [try: m; return ok / except Exception as e: return {'error': str(e)}, 400].
    The state returned with a caught exception is the session at the raise. *)
Definition try_except (m : M unit) (ok : reply) : M reply :=
  fun st =>
    match m st with
    | (Return _, st') => (Return ok, st')
    | (Raise e, st') => (Return (FailureOf 400 e), st')
    end.

(** [POST /register]; [name] is [data.get('name')], a string or [None]. *)
Definition register (name : option string) (now_added now_start : datetime) : M reply :=
  match name with
  | Some n =>
      if String.eqb n "" then ret (Failure 400 "name required")
      else
        newp <- add_person n now_added now_start ;;
        ret (Created 201 newp)
  | None => ret (Failure 400 "name required")
  end.

(** The body of the reply of [GET /api/status]. *)
Module status_json.
Record t := mk {
  waiting : list Person;
  passed : list Person;
  tour_length_seconds : Z;
  timer_paused : bool;
  time_remaining_seconds : option Z
}.
End status_json.

(** [GET /api/status]; [clock] is read by the catch-up loop and [now] by the
    clock projection. *)
Definition api_status (clock : nat -> datetime) (now : datetime) (st : Store)
    : option (outcome status_json.t * Store) :=
  match process_timer_advances clock st with
  | Some (Return _, st1) =>
      Some ((waiting <- get_waiting ;;
             passed <- get_passed ;;
             s <- get_setting ;;
             let time_remaining := compute_time_remaining_seconds now s in
             ret (status_json.mk waiting passed (tour_length_seconds s)
                    (timer_paused s) time_remaining)) st1)
  | Some (Raise e, st1) => Some (Raise e, st1)
  | None => None
  end.

Definition api_next (now : datetime) : M reply :=
  p <- advance_next now ;;
  match p with
  | None => ret (Message 400 "No one to advance" None)
  | Some p => ret (Message 200 "advanced" (Some p))
  end.

Definition api_back (now : datetime) : M reply :=
  p <- go_back now ;;
  match p with
  | None => ret (Message 400 "No one to go back" None)
  | Some p => ret (Message 200 "backed" (Some p))
  end.

(** [POST /api/reorder]; [ids] is [data.get('ids')] when it is a list of
    integers, [None] when the key is missing or holds no list. *)
Definition api_reorder (ids : option (list Z)) (now : datetime) : M reply :=
  match ids with
  | Some (_id :: rest) =>
      try_except (reorder_waiting (_id :: rest) now) (Message 200 "reordered" None)
  | Some [] | None => ret (Failure 400 "ids list required")
  end.

(** [POST /api/move]; the three keys of the body, [None] when missing:
    an integer id, a string and an integer position. *)
Definition api_move (pid : option Z) (to_status : option string) (to_pos : option Z)
    (now : datetime) : M reply :=
  match pid, to_status with
  | Some pid, Some to_status =>
      if negb (truthy (Some pid)) || String.eqb to_status ""
      then ret (Failure 400 "id and toStatus required")
      else try_except (move_person_to pid to_status to_pos now)
                      (Message 200 "moved" None)
  | _, _ => ret (Failure 400 "id and toStatus required")
  end.

(** * Definitions used by the statements and the proofs *)

(** [le x y] holds. *)
Definition holds {A} (le : A -> A -> bool) (x y : A) : Prop := le x y = true.

(** [id] is the primary key of the table. *)
Definition pk_unique (l : list Person) : Prop := NoDup (map id l).

(** The positions of the waiting rows, in table order. *)
Definition waiting_positions (l : list Person) : list (option Z) :=
  map position (waiting_rows l).

(** [N], the number of waiting rows. *)
Definition count_waiting (l : list Person) : nat := length (waiting_rows l).

(** The positions [1..n]. *)
Definition one_to (n : nat) : list (option Z) :=
  map (fun i => Some (Z.of_nat i)) (seq 1 n).

(** Invariant I1: the positions of the waiting rows are [1..N], each once,
    with [N] the number of waiting rows. *)
Definition I1 (l : list Person) : Prop :=
  Permutation (waiting_positions l) (one_to (count_waiting l)).

(** Equality of positions is decidable. *)
Definition position_eq_dec (a b : option Z) : {a = b} + {a <> b}.
Proof. decide equality; apply Z.eq_dec. Defined.

(** I1 as a boolean test (positions sorted and compared with [1..N]). *)
Definition I1b (l : list Person) : bool :=
  if list_eq_dec position_eq_dec
       (order_by opt_le (waiting_positions l)) (one_to (count_waiting l))
  then true else false.

(** A truth value as a count. *)
Definition b2n (b : bool) : nat := if b then 1%nat else 0%nat.

(** What [shift_where] does to one row when no comparison raises. *)
Definition shift_row (c : Person -> bool) (delta : Z) (p : Person) : Person :=
  if is_waiting p && c p then
    match position p with
    | Some n => set_position (Some (n + delta)) p
    | None => p
    end
  else p.

(** The same, through the list of rows that the loop runs over. *)
Definition shift_by (c : Person -> bool) (delta : Z) (ws : list Person)
    (p : Person) : Person :=
  match find (fun w => id w =? id p) ws with
  | Some w =>
      if c w then
        match position w with
        | Some n => set_position (Some (n + delta)) p
        | None => p
        end
      else p
  | None => p
  end.

(** The row [fid], at position [f], leaves the queue at instant [t]; the
    waiting rows behind position [f] move up by one. *)
Definition pop_row (fid : Z) (f : Z) (t : datetime) (p : Person) : Person :=
  if id p =? fid then
    mkPerson (id p) (name p) Passed None (added_at p) (Some t)
  else if is_waiting p then
    match position p with
    | Some n => if (negb (n =? 0)) && (n >? f) then set_position (Some (n - 1)) p else p
    | None => p
    end
  else p.

(** The value of [behind] when the head has position [f]. *)
Definition behind_b (fid f : Z) (w : Person) : bool :=
  negb (id w =? fid) &&
  match position w with
  | Some n => negb (n =? 0) && (n >? f)
  | None => false
  end.

(** The anchor after a removal: [t] if someone waits, else none. *)
Definition anchor_if_waiting (l : list Person) (t : datetime) : option datetime :=
  match waiting_rows l with
  | _ :: _ => Some t
  | [] => None
  end.

(** The settings after [advance_next] left the table [l']. *)
Definition advance_setting (l' : list Person) (now : datetime) (s : Setting) : Setting :=
  let s1 := set_start_time (anchor_if_waiting l' now) s in
  if timer_paused s
  then set_time_remaining_on_pause (Some (tour_length_seconds s1)) s1
  else s1.

(** The table after [m] scheduled removals from anchor [a]: the row at
    position [i <= m] passed at the end of the [i]-th interval, the rows
    behind moved up by [m]. *)
Definition catch_up_row (a : datetime) (L : Z) (m : Z) (p : Person) : Person :=
  if is_waiting p then
    match position p with
    | Some i =>
        if i <=? m
        then mkPerson (id p) (name p) Passed None (added_at p)
                      (Some (a + timedelta (i * L)))
        else set_position (Some (i - m)) p
    | None => p
    end
  else p.

(** The timer after a catch-up over [k] elapsed intervals with [n] rows
    waiting: the anchor moves by [k] intervals while someone still waits and
    is cleared otherwise (together with the snapshot when nobody waited). *)
Definition catch_up_setting (k n : nat) (a : datetime) (s : Setting) : Setting :=
  let s1 :=
    set_start_time
      (if (k <? n)%nat
       then Some (a + timedelta (Z.of_nat k * tour_length_seconds s))
       else None) s in
  if (n =? 0)%nat then set_time_remaining_on_pause None s1 else s1.

(** The primary key as a boolean test. *)
Fixpoint distinctb (l : list Z) : bool :=
  match l with
  | [] => true
  | x :: l' => negb (existsb (Z.eqb x) l') && distinctb l'
  end.

Definition pk_uniqueb (l : list Person) : bool := distinctb (map id l).

(** What a position loop cannot change: the settings and, row by row, the
    identifiers and the statuses. *)
Definition same_frame (st0 st : Store) : Prop :=
  setting st = setting st0 /\
  map id (persons st) = map id (persons st0) /\
  map status (persons st) = map status (persons st0).

(** The settings after a pause at [t] of a running timer with an anchor. *)
Definition paused_setting (t : datetime) (s : Setting) : Setting :=
  set_timer_paused true
    (set_time_remaining_on_pause (compute_time_remaining_seconds t s) s).

(** The settings after a resume at [t]. *)
Definition resumed_setting (t : datetime) (s : Setting) : Setting :=
  let remaining :=
    match time_remaining_on_pause s with
    | Some r => r
    | None => tour_length_seconds s
    end in
  set_timer_paused false
    (set_time_remaining_on_pause None
       (set_start_time (Some (t - timedelta (tour_length_seconds s - remaining))) s)).


(** [w.position = (w.position or 0) + 1] *)
Definition bump (w : Person) : Person :=
  set_position (Some (py_or (position w) 0 + 1)) w.

(** The row [lid] comes back to the head; the waiting rows make room. *)
Definition back_row (lid : Z) (p : Person) : Person :=
  if id p =? lid then
    mkPerson (id p) (name p) Waiting (Some 1) (added_at p) None
  else if is_waiting p then bump p
  else p.

(** The settings after [restart_or_full_length]. *)
Definition restarted (now : datetime) (s : Setting) : Setting :=
  if timer_paused s
  then set_time_remaining_on_pause (Some (tour_length_seconds s)) s
  else set_start_time (Some now) s.

(** The operations of the engine, with the clock readings they take. *)
Inductive operation :=
| Enqueue (name : string) (now_added now_start : datetime)
| CatchUp (clock : nat -> datetime)
| AdvanceNext (now : datetime)
| GoBack (now : datetime)
| Reorder (new_order_ids : list Z) (now : datetime)
| Move (person_id : Z) (to_status : string) (to_position : option Z) (now : datetime)
| PauseResume (now : datetime)
| SetTourLength (data : tour_length_body) (now : datetime).

(** An operation run for its effect: the returned value is dropped. *)
Definition discard {A} (r : outcome A * Store) : outcome unit * Store :=
  (match fst r with Return _ => Return tt | Raise e => Raise e end, snd r).

Definition run (op : operation) (st : Store) : option (outcome unit * Store) :=
  match op with
  | Enqueue name t1 t2 => Some (discard (add_person name t1 t2 st))
  | CatchUp clock => process_timer_advances clock st
  | AdvanceNext now => Some (discard (advance_next now st))
  | GoBack now => Some (discard (go_back now st))
  | Reorder ids now => Some (reorder_waiting ids now st)
  | Move pid to_status to_position now =>
      Some (move_person_to pid to_status to_position now st)
  | PauseResume now => Some (discard (api_pause now st))
  | SetTourLength data now => Some (discard (api_set_tour_length data now st))
  end.

(** The part of invariant I4 that the code maintains: a paused timer has a
    snapshot; a running timer has none, and has an anchor whenever someone
    waits. *)
Definition timer_consistent (st : Store) : Prop :=
  (timer_paused (setting st) = true ->
   time_remaining_on_pause (setting st) <> None) /\
  (timer_paused (setting st) = false ->
   time_remaining_on_pause (setting st) = None /\
   (waiting_rows (persons st) <> [] -> start_time (setting st) <> None)).

(** Invariant I4 of the specification. *)
Definition I4 (st : Store) : Prop :=
  (timer_paused (setting st) = true ->
   start_time (setting st) = None /\
   time_remaining_on_pause (setting st) <> None) /\
  (timer_paused (setting st) = false ->
   (start_time (setting st) <> None <-> waiting_rows (persons st) <> []) /\
   time_remaining_on_pause (setting st) = None).

(** The body of the validation loop of [reorder_waiting]. *)
Definition check_id (waiting_ids : list Z) (_id : Z) : M unit :=
  if existsb (Z.eqb _id) waiting_ids then ret tt
  else raise (ValueError "Invalid id in reorder").

(** The position that the writes of [reorder_waiting] leave in row [p]:
    the index, plus one, of the last occurrence of its id. *)
Definition reordered_position (p : Person) (el : list (Z * Z)) (v : option Z) : option Z :=
  fold_left (fun acc (e : Z * Z) => if id p =? snd e then Some (fst e + 1) else acc) el v.

(** What the writes of [reorder_waiting] do to one row. *)
Definition reorder_row (ids : list Z) (p : Person) : Person :=
  set_position (reordered_position p (enumerate ids) (position p)) p.

(** Equality of rows is decidable. *)
Definition Person_eq_dec (p q : Person) : {p = q} + {p <> q}.
Proof.
  repeat decide equality; try apply Z.eq_dec; apply Ascii.ascii_dec.
Defined.

(** The row that [add_person] inserts into a table that satisfies I1. *)
Definition new_person (l : list Person) (name : string) (t : datetime) : Person :=
  mkPerson (next_id l) name Waiting (Some (Z.of_nat (count_waiting l) + 1)) (Some t) None.

(** The settings after [add_person]. *)
Definition enqueue_setting (t : datetime) (s : Setting) : Setting :=
  match start_time s, timer_paused s with
  | None, false => set_start_time (Some t) s
  | None, true =>
      match time_remaining_on_pause s with
      | None => set_time_remaining_on_pause (Some (tour_length_seconds s)) s
      | Some _ => s
      end
  | Some _, _ => s
  end.

(** [enumerate(l, start=o)]. *)
Definition enumerate_from {A} (o : nat) (l : list A) : list (Z * A) :=
  combine (map Z.of_nat (seq o (length l))) l.

(** A test on the position of a row, false when there is none. *)
Definition pos_test (t : Z -> bool) (w : Person) : bool :=
  match position w with Some n => t n | None => false end.

(** The side condition under which a reorder is meant to succeed: the
    sequence is a permutation of the ids of the waiting rows. *)
Definition is_permutation_of_waiting (ids : list Z) (l : list Person) : Prop :=
  NoDup ids /\ forall x, In x ids <-> In x (map id (waiting_rows l)).

(** That side condition, for the operations in general. *)
Definition reorder_well_formed (op : operation) (st : Store) : Prop :=
  match op with
  | Reorder ids _ => is_permutation_of_waiting ids (persons st)
  | _ => True
  end.

(** Three rows waiting, interval 300 s, anchor at 1 s. *)
Definition queue3 : Store :=
  mkStore
    [ mkPerson 1 "A" Waiting (Some 1) (Some 100) None;
      mkPerson 2 "B" Waiting (Some 2) (Some 200) None;
      mkPerson 3 "C" Waiting (Some 3) (Some 300) None ]
    (mkSetting 300 false (Some 1000000) None).

(** The same queue with a row that passed at 0.5 s. *)
Definition queue4 : Store :=
  mkStore
    [ mkPerson 1 "A" Waiting (Some 1) (Some 100) None;
      mkPerson 2 "B" Waiting (Some 2) (Some 200) None;
      mkPerson 3 "C" Waiting (Some 3) (Some 300) None;
      mkPerson 4 "D" Passed None (Some 50) (Some 500000) ]
    (mkSetting 300 false (Some 1000000) None).

(** Two rows waiting, paused with a full snapshot and no anchor. *)
Definition paused2 : Store :=
  mkStore
    [ mkPerson 1 "A" Waiting (Some 1) (Some 100) None;
      mkPerson 2 "B" Waiting (Some 2) (Some 200) None ]
    (mkSetting 300 true None (Some 300)).

(** The ids of the waiting rows from the front to the back of the queue:
    the rows that [get_waiting] returns, in its order. *)
Definition queue (l : list Person) : list Z :=
  map id (order_by by_position (waiting_rows l)).

(** A list without its element at index [i], and with [x] put in at
    index [i]. *)
Definition remove_at {A} (i : nat) (q : list A) : list A :=
  firstn i q ++ skipn (S i) q.
Definition insert_at {A} (i : nat) (x : A) (q : list A) : list A :=
  firstn i q ++ x :: skipn i q.

(** The target positions that [move_person_to] computes from the request,
    with [n] rows waiting: for a passed row and for a waiting row. *)
Definition insert_pos (n : nat) (to_position : option Z) : Z :=
  match to_position with
  | None => 1
  | Some tp => if tp <? 1 then 1 else Z.min (Z.of_nat n + 1) tp
  end.
Definition clamped_pos (n : nat) (tp : Z) : Z :=
  Z.max 1 (Z.min (Z.of_nat n) tp).

(** The table after a waiting row [p] at position [o] moved to position
    [to_pos]: the rows between the two positions shift by one towards the
    place left. *)
Definition moved_within (p : Person) (o to_pos : Z) (l : list Person) : list Person :=
  update_row (id p) (set_position (Some to_pos))
    (map (if to_pos <? o
          then shift_row (pos_test (fun n => (n >=? to_pos) && (n <? o))) 1
          else shift_row (pos_test (fun n => (n <=? to_pos) && (n >? o))) (-1)) l).

(** The table after a passed row [p] entered the queue at position [ip]. *)
Definition inserted (p : Person) (ip : Z) (l : list Person) : list Person :=
  update_row (id p) (set_passed_at None)
    (update_row (id p) (set_position (Some ip))
       (update_row (id p) (set_status Waiting)
          (map (shift_row (pos_test (fun n => negb (n =? 0) && (n >=? ip))) 1) l))).

(** The settings after the timer reset that ends [move_person_to], the
    table being [l']. *)
Definition move_setting (l' : list Person) (now : datetime) (s : Setting) : Setting :=
  if timer_paused s
  then set_time_remaining_on_pause (Some (tour_length_seconds s)) s
  else set_start_time (anchor_if_waiting l' now) s.

(** The columns that go with each status: a waiting row has no [passed_at];
    a passed row has one and has no position. *)
Definition fields_ok (p : Person) : Prop :=
  match status p with
  | Waiting => passed_at p = None
  | Passed => position p = None /\ passed_at p <> None
  end.
Definition status_fields (l : list Person) : Prop :=
  forall p, In p l -> fields_ok p.

(** The states that the operations of the engine reach from the initial
    database, a reorder being given a permutation of the waiting ids. *)
Inductive reachable : Store -> Prop :=
| reachable_init : reachable init_db
| reachable_step (op : operation) (st st' : Store) :
    reachable st -> reorder_well_formed op st ->
    run op st = Some (Return tt, st') -> reachable st'.

Definition one_half : float := S754_finite false 4503599627370496 (-53).
Definition infinity : float := S754_infinity false.

(** Every clock reading that the operation takes is at most [t]. *)
Definition clock_bound (op : operation) (t : datetime) : Prop :=
  match op with
  | Enqueue _ now_added now_start => now_added <= t /\ now_start <= t
  | CatchUp clock => forall i, clock i <= t
  | AdvanceNext now | GoBack now | Reorder _ now | Move _ _ _ now
  | PauseResume now | SetTourLength _ now => now <= t
  end.

(** The states reached from the initial database while the clock has not
    shown an instant later than [t]. *)
Inductive reached_by (t : datetime) : Store -> Prop :=
| reached_by_init : reached_by t init_db
| reached_by_step (op : operation) (st st' : Store) :
    reached_by t st -> reorder_well_formed op st -> clock_bound op t ->
    run op st = Some (Return tt, st') -> reached_by t st'.

(** Every passed row has a [passed_at], not later than [t]. *)
Definition passed_before (t : datetime) (l : list Person) : Prop :=
  forall q, In q l -> is_passed q = true ->
    exists u, passed_at q = Some u /\ u <= t.





(** [queue3] after a catch-up at 700 s: two intervals ran out. *)
Definition queue3_caught_up : Store :=
  mkStore
    [ mkPerson 1 "A" Passed None (Some 100) (Some 301000000);
      mkPerson 2 "B" Passed None (Some 200) (Some 601000000);
      mkPerson 3 "C" Waiting (Some 1) (Some 300) None ]
    (mkSetting 300 false (Some 601000000) None).

(** The initial database after one registration at instant 0. *)
Definition one_registered : Store :=
  mkStore [ mkPerson 1 "A" Waiting (Some 1) (Some 0) None ]
          (mkSetting 300 false (Some 0) None).

(** * Properties *)

(** ** The sort behind [order_by] *)

Section OrderByFacts.
Context {A : Type} (le : A -> A -> bool).
Hypothesis le_total : forall x y, le x y = true \/ le y x = true.
Hypothesis le_trans : forall x y z, le x y = true -> le y z = true -> le x z = true.

Lemma insert_sorted_perm (x : A) (l : list A) :
  Permutation (insert_sorted le x l) (x :: l).
Proof.
  induction l as [|y l IH]; simpl; [reflexivity|].
  destruct (le x y); [reflexivity|].
  rewrite IH. apply perm_swap.
Qed.

Lemma order_by_perm (l : list A) : Permutation (order_by le l) l.
Proof.
  induction l as [|x l IH]; simpl; [constructor|].
  rewrite insert_sorted_perm. now constructor.
Qed.

Lemma order_by_In (l : list A) (x : A) : In x (order_by le l) <-> In x l.
Proof.
  split; apply Permutation_in; [|symmetry]; apply order_by_perm.
Qed.

Lemma order_by_length (l : list A) : length (order_by le l) = length l.
Proof. apply Permutation_length, order_by_perm. Qed.

Lemma insert_sorted_sorted (x : A) (l : list A) :
  StronglySorted (holds le) l -> StronglySorted (holds le) (insert_sorted le x l).
Proof.
  induction 1 as [|y l Hs IH Hy]; simpl.
  - repeat constructor.
  - destruct (le x y) eqn:E.
    + constructor; [now constructor|].
      constructor; [exact E|].
      rewrite Forall_forall in *. intros z Hz. eapply le_trans; eauto.
      apply Hy, Hz.
    + constructor; [exact IH|].
      rewrite Forall_forall in *. intros z Hz.
      apply (Permutation_in _ (insert_sorted_perm x l)) in Hz.
      destruct Hz as [<-|Hz]; [|now apply Hy].
      destruct (le_total x y) as [H|H]; [congruence|exact H].
Qed.

Lemma order_by_sorted (l : list A) : StronglySorted (holds le) (order_by le l).
Proof.
  induction l; simpl; [constructor|now apply insert_sorted_sorted].
Qed.

(** The row that [.first()] returns is a least one. *)
Lemma order_by_first_least (l : list A) (h : A) :
  hd_error (order_by le l) = Some h ->
  In h l /\ forall y, In y l -> le h y = true.
Proof.
  intros Hh. pose proof (order_by_sorted l) as Hs.
  destruct (order_by le l) as [|h' t] eqn:E; [discriminate|].
  injection Hh as ->. split.
  - apply order_by_In. rewrite E. now left.
  - intros y Hy. apply order_by_In in Hy. rewrite E in Hy.
    inversion Hs as [|? ? _ Hall]; subst.
    destruct Hy as [<-|Hy].
    + destruct (le_total h h); assumption.
    + rewrite Forall_forall in Hall. now apply Hall.
Qed.

Lemma sorted_last_greatest (l : list A) (w : A) (t : list A) :
  StronglySorted (holds le) l -> rev l = w :: t ->
  forall y, In y l -> le y w = true.
Proof.
  intros Hs. revert w t. induction Hs as [|x l Hs IH Hx]; intros w t E y Hy.
  - destruct Hy.
  - simpl in E. destruct (rev l) as [|w' t'] eqn:R.
    + simpl in E. injection E as <- <-.
      assert (l = []) by (apply (f_equal (@rev A)) in R; now rewrite rev_involutive in R).
      subst l. destruct Hy as [<-|[]].
      destruct (le_total x x); assumption.
    + simpl in E. injection E as <- <-.
      destruct Hy as [<-|Hy].
      * rewrite Forall_forall in Hx. apply Hx.
        apply in_rev. rewrite R. now left.
      * eapply IH; eauto.
Qed.

(** [waiting[-1]] is a greatest row. *)
Lemma order_by_last_greatest (l : list A) (w : A) (t : list A) :
  rev (order_by le l) = w :: t ->
  In w l /\ forall y, In y l -> le y w = true.
Proof.
  intros E. split.
  - apply order_by_In, in_rev. rewrite E. now left.
  - intros y Hy. eapply sorted_last_greatest; eauto using order_by_sorted.
    now apply order_by_In.
Qed.

Lemma order_by_nil (l : list A) : order_by le l = [] <-> l = [].
Proof.
  split; intros H.
  - apply Permutation_nil. rewrite <- H. apply order_by_perm.
  - now subst.
Qed.
End OrderByFacts.

Lemma opt_le_total (a b : option Z) : opt_le a b = true \/ opt_le b a = true.
Proof. destruct a, b; simpl; auto. lia. Qed.

Lemma opt_le_trans (a b c : option Z) :
  opt_le a b = true -> opt_le b c = true -> opt_le a c = true.
Proof. destruct a, b, c; simpl; try congruence; lia. Qed.

Lemma by_position_total p q : by_position p q = true \/ by_position q p = true.
Proof. apply opt_le_total. Qed.

Lemma by_position_trans p q r :
  by_position p q = true -> by_position q r = true -> by_position p r = true.
Proof. apply opt_le_trans. Qed.

Lemma by_passed_at_desc_total p q :
  by_passed_at_desc p q = true \/ by_passed_at_desc q p = true.
Proof. apply opt_le_total. Qed.

Lemma by_passed_at_desc_trans p q r :
  by_passed_at_desc p q = true -> by_passed_at_desc q r = true ->
  by_passed_at_desc p r = true.
Proof. unfold by_passed_at_desc. intros. eapply opt_le_trans; eauto. Qed.

(** ** Tables: primary key and the invariant I1 *)

Lemma I1b_sound (l : list Person) : I1b l = true -> I1 l.
Proof.
  unfold I1b, I1. destruct (list_eq_dec _ _ _) as [E|]; [|discriminate].
  intros _. rewrite <- E. symmetry. apply order_by_perm.
Qed.

Lemma distinctb_sound (l : list Z) : distinctb l = true -> NoDup l.
Proof.
  induction l as [|x l IH]; simpl; intros H; constructor;
    apply andb_true_iff in H; destruct H as [Hx Hl]; auto.
  intros Hin. apply negb_true_iff in Hx.
  assert (existsb (Z.eqb x) l = true); [|congruence].
  apply existsb_exists. exists x. split; [exact Hin|apply Z.eqb_refl].
Qed.

Lemma pk_uniqueb_sound (l : list Person) : pk_uniqueb l = true -> pk_unique l.
Proof. apply distinctb_sound. Qed.

Lemma in_one_to (n : nat) (v : option Z) :
  In v (one_to n) <-> exists i, v = Some i /\ 1 <= i <= Z.of_nat n.
Proof.
  unfold one_to. rewrite in_map_iff. split.
  - intros (k & <- & Hk). apply in_seq in Hk. exists (Z.of_nat k). split; [reflexivity|lia].
  - intros (i & -> & Hi). exists (Z.to_nat i). split.
    + f_equal. lia.
    + apply in_seq. lia.
Qed.

Lemma NoDup_map_injective {A B} (f : A -> B) (l : list A) :
  (forall a b, f a = f b -> a = b) -> NoDup l -> NoDup (map f l).
Proof.
  intros Hf. induction 1 as [|a l Ha Hnd IH]; simpl; constructor; auto.
  intros Hin. apply in_map_iff in Hin. destruct Hin as (b & E & Hb).
  apply Hf in E. now subst.
Qed.

Lemma NoDup_one_to (n : nat) : NoDup (one_to n).
Proof.
  unfold one_to. apply NoDup_map_injective; [|apply seq_NoDup].
  intros a b H. injection H. lia.
Qed.

Lemma length_one_to (n : nat) : length (one_to n) = n.
Proof. unfold one_to. now rewrite length_map, length_seq. Qed.

Lemma waiting_rows_In (l : list Person) (p : Person) :
  In p (waiting_rows l) <-> In p l /\ is_waiting p = true.
Proof. apply filter_In. Qed.

(** I1, row by row: positions are pairwise distinct and within [1..N]. *)
Lemma I1_iff (l : list Person) :
  I1 l <->
  NoDup (waiting_positions l) /\
  forall w, In w l -> is_waiting w = true ->
    exists i, position w = Some i /\ 1 <= i <= Z.of_nat (count_waiting l).
Proof.
  unfold I1. split.
  - intros H. split.
    + eapply Permutation_NoDup; [symmetry; exact H|apply NoDup_one_to].
    + intros w Hw Hs. apply in_one_to.
      eapply Permutation_in; [exact H|].
      unfold waiting_positions. apply in_map. now apply waiting_rows_In.
  - intros [Hnd Hb]. apply NoDup_Permutation_bis; [exact Hnd| |].
    + rewrite length_one_to. unfold waiting_positions, count_waiting.
      now rewrite length_map.
    + intros v Hv. apply in_one_to.
      unfold waiting_positions in Hv. apply in_map_iff in Hv.
      destruct Hv as (w & <- & Hw). apply waiting_rows_In in Hw. now apply Hb.
Qed.

Lemma NoDup_map_eq {A B} (f : A -> B) (l : list A) (x y : A) :
  NoDup (map f l) -> In x l -> In y l -> f x = f y -> x = y.
Proof.
  induction l as [|a l IH]; simpl; [tauto|].
  intros Hnd Hx Hy E. inversion Hnd as [|? ? Hn Hnd']; subst.
  destruct Hx as [->|Hx], Hy as [->|Hy]; auto.
  - exfalso. apply Hn. rewrite E. now apply in_map.
  - exfalso. apply Hn. rewrite <- E. now apply in_map.
Qed.

Lemma pk_unique_eq (l : list Person) (p q : Person) :
  pk_unique l -> In p l -> In q l -> id p = id q -> p = q.
Proof. apply NoDup_map_eq. Qed.

Lemma I1_bounds (l : list Person) (w : Person) :
  I1 l -> In w l -> is_waiting w = true ->
  exists i, position w = Some i /\ 1 <= i <= Z.of_nat (count_waiting l).
Proof. intros H. apply I1_iff in H. destruct H as [_ H]. apply H. Qed.

Lemma I1_distinct (l : list Person) (p q : Person) :
  I1 l -> In p l -> In q l -> is_waiting p = true -> is_waiting q = true ->
  position p = position q -> p = q.
Proof.
  intros H Hp Hq Wp Wq. apply I1_iff in H. destruct H as [Hnd _].
  apply (NoDup_map_eq position (waiting_rows l)); auto; now apply waiting_rows_In.
Qed.

(** Every position of [1..N] is taken. *)
Lemma I1_onto (l : list Person) (i : Z) :
  I1 l -> 1 <= i <= Z.of_nat (count_waiting l) ->
  exists w, In w l /\ is_waiting w = true /\ position w = Some i.
Proof.
  intros H Hi.
  assert (Hin : In (Some i) (waiting_positions l)).
  { eapply Permutation_in; [symmetry; exact H|]. apply in_one_to. eauto. }
  unfold waiting_positions in Hin. apply in_map_iff in Hin.
  destruct Hin as (w & E & Hw). apply waiting_rows_In in Hw. exists w. tauto.
Qed.

(** Establishing I1 for a table rewritten row by row. *)
Lemma I1_map (F : Person -> Person) (l : list Person) :
  NoDup l ->
  (forall p, In p l -> is_waiting (F p) = true ->
     exists i, position (F p) = Some i /\
               1 <= i <= Z.of_nat (count_waiting (map F l))) ->
  (forall p q, In p l -> In q l ->
     is_waiting (F p) = true -> is_waiting (F q) = true ->
     position (F p) = position (F q) -> p = q) ->
  I1 (map F l).
Proof.
  intros Hnd Hb Hinj. apply I1_iff. split.
  - unfold waiting_positions, waiting_rows.
    clear Hb. induction l as [|a l IH]; simpl; [constructor|].
    inversion Hnd as [|? ? Ha Hnd']; subst.
    assert (IH' : NoDup (map position (filter is_waiting (map F l)))).
    { apply IH; auto. intros p q Hp Hq. apply Hinj; now right. }
    destruct (is_waiting (F a)) eqn:Wa; [|exact IH'].
    simpl. constructor; [|exact IH'].
    intros Hin. apply in_map_iff in Hin. destruct Hin as (y & E & Hy).
    apply filter_In in Hy. destruct Hy as [Hy Wy].
    apply in_map_iff in Hy. destruct Hy as (q & <- & Hq).
    apply Ha. assert (a = q); [|now subst].
    apply Hinj; auto; [now left|now right].
  - intros w Hw Ws. apply in_map_iff in Hw. destruct Hw as (p & <- & Hp). auto.
Qed.

Lemma pk_unique_NoDup (l : list Person) : pk_unique l -> NoDup l.
Proof. apply NoDup_map_inv. Qed.

Lemma pk_unique_map (F : Person -> Person) (l : list Person) :
  (forall p, id (F p) = id p) -> pk_unique l -> pk_unique (map F l).
Proof.
  intros HF. unfold pk_unique. rewrite map_map.
  now rewrite (map_ext _ id HF).
Qed.

(** Counting waiting rows across a row-by-row rewrite. *)
Lemma count_waiting_map_same (F : Person -> Person) (l : list Person) :
  (forall p, In p l -> is_waiting (F p) = is_waiting p) ->
  count_waiting (map F l) = count_waiting l.
Proof.
  unfold count_waiting, waiting_rows.
  induction l as [|a l IH]; simpl; intros H; [reflexivity|].
  rewrite (H a) by now left. destruct (is_waiting a); simpl; rewrite IH; auto.
Qed.

Lemma count_waiting_map_one (F : Person -> Person) (l : list Person) (x : Person) :
  NoDup l -> In x l ->
  (forall p, In p l -> p <> x -> is_waiting (F p) = is_waiting p) ->
  (count_waiting (map F l) + b2n (is_waiting x) =
   count_waiting l + b2n (is_waiting (F x)))%nat.
Proof.
  unfold count_waiting, waiting_rows.
  induction l as [|a l IH]; simpl; intros Hnd Hx H; [tauto|].
  inversion Hnd as [|? ? Ha Hnd']; subst.
  destruct Hx as [->|Hx].
  - assert (E : length (filter is_waiting (map F l)) = length (filter is_waiting l)).
    { apply count_waiting_map_same. intros p Hp. apply H; [now right|].
      intros ->. contradiction. }
    destruct (is_waiting (F x)), (is_waiting x); simpl; lia.
  - assert (a <> x) by (intros ->; contradiction).
    rewrite (H a) by (auto; now left).
    specialize (IH Hnd' Hx (fun p Hp => H p (or_intror Hp))).
    destruct (is_waiting a); simpl; lia.
Qed.

(** ** The position loops as row-by-row rewrites *)

Lemma find_id_none (ws : list Person) (k : Z) :
  ~ In k (map id ws) -> find (fun w => id w =? k) ws = None.
Proof.
  induction ws as [|w ws IH]; simpl; [reflexivity|].
  intros H. destruct (id w =? k) eqn:E.
  - apply Z.eqb_eq in E. tauto.
  - apply IH. tauto.
Qed.

Lemma shift_where_loop (cond : Person -> outcome bool) (c : Person -> bool)
    (delta : Z) (ws : list Person) :
  NoDup (map id ws) ->
  (forall w, In w ws -> cond w = Return (c w) /\ (c w = true -> position w <> None)) ->
  forall l s,
    shift_where cond delta ws (mkStore l s) =
    (Return tt, mkStore (map (shift_by c delta ws) l) s).
Proof.
  unfold shift_where.
  induction ws as [|w ws IH]; intros Hnd Hc l s.
  - simpl. unfold ret. f_equal. f_equal. symmetry.
    rewrite <- (map_id l) at 2. apply map_ext. reflexivity.
  - simpl in Hnd. inversion Hnd as [|? ? Hw Hnd']; subst.
    destruct (Hc w (or_introl eq_refl)) as [Ec Hpos].
    assert (Hc' : forall w', In w' ws ->
              cond w' = Return (c w') /\ (c w' = true -> position w' <> None))
      by (intros; apply Hc; now right).
    simpl. unfold bind at 1. unfold bind at 1. unfold lift at 1. rewrite Ec.
    destruct (c w) eqn:Cw.
    + destruct (position w) as [n|] eqn:Pw; [|now exfalso; apply Hpos].
      simpl. unfold bind at 1. unfold lift at 1. unfold setattr at 1. simpl.
      rewrite (IH Hnd' Hc'). f_equal. f_equal.
      unfold update_row. rewrite map_map. apply map_ext. intros p.
      unfold shift_by. simpl. rewrite Z.eqb_sym.
      destruct (id w =? id p) eqn:E.
      * rewrite Cw, Pw. simpl. rewrite find_id_none; [reflexivity|].
        apply Z.eqb_eq in E. now rewrite <- E.
      * reflexivity.
    + unfold ret at 1. rewrite (IH Hnd' Hc'). f_equal. f_equal.
      apply map_ext. intros p. unfold shift_by. simpl.
      destruct (id w =? id p) eqn:E; [|reflexivity].
      rewrite Cw. rewrite find_id_none; [reflexivity|].
      apply Z.eqb_eq in E. now rewrite <- E.
Qed.

Lemma find_id_waiting (l ws : list Person) (p : Person) :
  pk_unique l -> Permutation ws (waiting_rows l) -> In p l ->
  find (fun w => id w =? id p) ws = if is_waiting p then Some p else None.
Proof.
  intros Hpk Hperm Hp.
  destruct (find (fun w => id w =? id p) ws) as [w|] eqn:F.
  - apply find_some in F. destruct F as [Hw E]. apply Z.eqb_eq in E.
    apply (Permutation_in _ Hperm) in Hw. apply waiting_rows_In in Hw.
    destruct Hw as [Hw Ww].
    assert (w = p) by (eapply pk_unique_eq; eauto). subst. now rewrite Ww.
  - destruct (is_waiting p) eqn:Wp; [|reflexivity].
    assert (Hin : In p ws).
    { eapply Permutation_in; [symmetry; exact Hperm|]. now apply waiting_rows_In. }
    pose proof (find_none _ _ F p Hin) as H. simpl in H.
    rewrite Z.eqb_refl in H. discriminate.
Qed.

(** A loop over the rows that [get_waiting] returns rewrites the table row
    by row, provided the condition raises on no waiting row. *)
Lemma shift_where_spec (cond : Person -> outcome bool) (c : Person -> bool)
    (delta : Z) (l : list Person) (s : Setting) :
  pk_unique l ->
  (forall w, In w l -> is_waiting w = true ->
     cond w = Return (c w) /\ (c w = true -> position w <> None)) ->
  shift_where cond delta (order_by by_position (waiting_rows l)) (mkStore l s) =
  (Return tt, mkStore (map (shift_row c delta) l) s).
Proof.
  intros Hpk Hc.
  pose proof (order_by_perm by_position (waiting_rows l)) as Hperm.
  rewrite (shift_where_loop cond c delta).
  - f_equal. f_equal. apply map_ext_in. intros p Hp.
    unfold shift_by, shift_row. rewrite (find_id_waiting l _ p Hpk Hperm Hp).
    destruct (is_waiting p); reflexivity.
  - eapply Permutation_NoDup; [symmetry; apply Permutation_map; exact Hperm|].
    unfold pk_unique in Hpk. clear - Hpk.
    induction l as [|a l IH]; simpl; [constructor|].
    inversion Hpk as [|? ? Ha Hnd]; subst.
    destruct (is_waiting a); simpl; auto.
    constructor; auto. intros Hin. apply Ha.
    apply in_map_iff in Hin. destruct Hin as (q & E & Hq).
    apply filter_In in Hq. apply in_map_iff. exists q. tauto.
  - intros w Hw. apply (Permutation_in _ Hperm) in Hw.
    apply waiting_rows_In in Hw. now apply Hc.
Qed.

(** ** Removing the head: the block shared by catch-up and manual advance *)

Lemma behind_spec (first w : Person) (f : Z) :
  position first = Some f ->
  behind first w = Return (behind_b (id first) f w) /\
  (behind_b (id first) f w = true -> position w <> None).
Proof.
  intros Hf. unfold behind, behind_b. rewrite Hf.
  destruct (id w =? id first); simpl; [split; [reflexivity|discriminate]|].
  destruct (position w) as [n|]; simpl; [|split; [reflexivity|discriminate]].
  destruct (n =? 0); simpl; split; try reflexivity; discriminate.
Qed.

Lemma pop_rows_eq (l : list Person) (fid f : Z) (t : datetime) :
  update_row fid (set_position None)
    (map (shift_row (behind_b fid f) (-1))
       (update_row fid (set_passed_at (Some t))
          (update_row fid (set_status Passed) l))) =
  map (pop_row fid f t) l.
Proof.
  unfold update_row. rewrite !map_map. apply map_ext. intros p.
  unfold pop_row, shift_row, behind_b.
  destruct (id p =? fid) eqn:E; simpl; rewrite ?E; simpl; rewrite ?E;
    [reflexivity|].
  destruct (is_waiting p) eqn:W; simpl; rewrite ?E; [|reflexivity].
  destruct (position p) as [n|] eqn:P; simpl; rewrite ?E; [|reflexivity].
  destruct (negb (n =? 0) && (n >? f)); simpl; rewrite ?E; [|reflexivity].
  reflexivity.
Qed.

Lemma pop_row_id fid f t p : id (pop_row fid f t p) = id p.
Proof.
  unfold pop_row. destruct (id p =? fid); [reflexivity|].
  destruct (is_waiting p); [|reflexivity].
  destruct (position p) as [n|]; [|reflexivity].
  destruct (negb (n =? 0) && (n >? f)); reflexivity.
Qed.

Lemma order_by_match {A B} (le : A -> A -> bool) (l : list A) (a b : B) :
  match order_by le l with _ :: _ => a | [] => b end =
  match l with _ :: _ => a | [] => b end.
Proof.
  pose proof (order_by_perm le l) as H. apply Permutation_length in H.
  destruct (order_by le l), l; simpl in *; try reflexivity; discriminate.
Qed.

Lemma find_map_id (F : Person -> Person) (l : list Person) (p : Person) :
  pk_unique l -> In p l -> (forall q, id (F q) = id q) ->
  find (fun q => id q =? id p) (map F l) = Some (F p).
Proof.
  intros Hpk Hp HF.
  destruct (find (fun q => id q =? id p) (map F l)) as [q|] eqn:E.
  - apply find_some in E. destruct E as [Hq E]. apply Z.eqb_eq in E.
    apply in_map_iff in Hq. destruct Hq as (q' & <- & Hq').
    rewrite HF in E. f_equal. f_equal. eapply pk_unique_eq; eauto.
  - pose proof (find_none _ _ E (F p) (in_map F l p Hp)) as H. simpl in H.
    rewrite HF, Z.eqb_refl in H. discriminate.
Qed.

(** [advance_next] on a table whose head has a position. *)
Lemma advance_next_run (l : list Person) (s : Setting) (now : datetime)
    (first : Person) (f : Z) :
  pk_unique l ->
  hd_error (order_by by_position (waiting_rows l)) = Some first ->
  position first = Some f ->
  advance_next now (mkStore l s) =
  (Return (Some (pop_row (id first) f now first)),
   mkStore (map (pop_row (id first) f now) l)
           (advance_setting (map (pop_row (id first) f now) l) now s)).
Proof.
  intros Hpk Hfirst Hf.
  assert (Hin : In first l).
  { destruct (order_by_first_least by_position by_position_total
                by_position_trans _ _ Hfirst) as [H _].
    now apply waiting_rows_In in H. }
  unfold advance_next, bind, get_setting, first_waiting. simpl.
  rewrite Hfirst. unfold shift_up_behind.
  rewrite (shift_where_spec (behind first) (behind_b (id first) f)).
  - simpl. rewrite pop_rows_eq. rewrite order_by_match.
    unfold advance_setting, anchor_if_waiting.
    destruct (waiting_rows (map (pop_row (id first) f now) l));
      destruct (timer_paused s) eqn:Ps; simpl; unfold Person_get; simpl;
      rewrite ?Ps;
      rewrite (find_map_id _ l first Hpk Hin) by (intros; apply pop_row_id);
      reflexivity.
  - unfold update_row. apply pk_unique_map; [|apply pk_unique_map; auto].
    + intros p. destruct (id p =? id first); reflexivity.
    + intros p. destruct (id p =? id first); reflexivity.
  - intros w _ _. now apply behind_spec.
Qed.

(** Under I1 the row that [.first()] returns is the one at position 1. *)
Lemma first_waiting_I1 (l : list Person) :
  I1 l -> (1 <= count_waiting l)%nat ->
  exists first,
    hd_error (order_by by_position (waiting_rows l)) = Some first /\
    In first l /\ is_waiting first = true /\ position first = Some 1.
Proof.
  intros HI HN.
  destruct (order_by by_position (waiting_rows l)) as [|first t] eqn:E.
  - apply order_by_nil in E. unfold count_waiting in HN. rewrite E in HN.
    simpl in HN. lia.
  - assert (Hhd : hd_error (order_by by_position (waiting_rows l)) = Some first)
      by now rewrite E.
    destruct (order_by_first_least by_position by_position_total
                by_position_trans _ _ Hhd) as [Hin Hleast].
    apply waiting_rows_In in Hin. destruct Hin as [Hin Hw].
    exists first. repeat split; auto.
    destruct (I1_bounds l first HI Hin Hw) as (i & Pi & Hi).
    destruct (I1_onto l 1 HI) as (w1 & Hw1 & Ww1 & P1); [lia|].
    specialize (Hleast w1). unfold by_position in Hleast.
    rewrite Pi, P1 in Hleast. simpl in Hleast.
    rewrite Pi. f_equal.
    assert ((i <=? 1) = true) by (apply Hleast; now apply waiting_rows_In).
    lia.
Qed.

Lemma pop_row_other (l : list Person) (first p : Person) (t : datetime) :
  pk_unique l -> I1 l -> In first l -> position first = Some 1 ->
  is_waiting first = true ->
  In p l -> p <> first -> is_waiting p = true ->
  exists n, position p = Some n /\ 2 <= n <= Z.of_nat (count_waiting l) /\
            pop_row (id first) 1 t p = set_position (Some (n - 1)) p.
Proof.
  intros Hpk HI Hf Pf Wf Hp Hne Wp.
  destruct (I1_bounds l p HI Hp Wp) as (n & Pn & Hn).
  assert (n <> 1).
  { intros ->. apply Hne. apply (I1_distinct l); auto. congruence. }
  exists n. repeat split; try lia; auto.
  unfold pop_row. 
  destruct (id p =? id first) eqn:E.
  - apply Z.eqb_eq in E. exfalso. apply Hne. eapply pk_unique_eq; eauto.
  - rewrite Wp, Pn.
    replace (negb (n =? 0) && (n >? 1)) with true; [reflexivity|].
    symmetry. apply andb_true_iff. split; [apply negb_true_iff|]; lia.
Qed.

Lemma pop_row_status (l : list Person) (first p : Person) (f : Z) (t : datetime) :
  pk_unique l -> In first l -> In p l -> p <> first ->
  is_waiting (pop_row (id first) f t p) = is_waiting p.
Proof.
  intros Hpk Hf Hp Hne. unfold pop_row.
  destruct (id p =? id first) eqn:E.
  - apply Z.eqb_eq in E. exfalso. apply Hne. eapply pk_unique_eq; eauto.
  - destruct (is_waiting p) eqn:W; [|exact W].
    destruct (position p) as [n|]; [|exact W].
    destruct (negb (n =? 0) && (n >? f)); exact W.
Qed.

Lemma pop_row_first (first : Person) (f : Z) (t : datetime) :
  pop_row (id first) f t first =
  mkPerson (id first) (name first) Passed None (added_at first) (Some t).
Proof. unfold pop_row. now rewrite Z.eqb_refl. Qed.

Lemma pop_count (l : list Person) (first : Person) (f : Z) (t : datetime) :
  pk_unique l -> In first l -> is_waiting first = true ->
  (count_waiting (map (pop_row (id first) f t) l) + 1 = count_waiting l)%nat.
Proof.
  intros Hpk Hf Wf.
  pose proof (count_waiting_map_one (pop_row (id first) f t) l first
                (pk_unique_NoDup l Hpk) Hf) as H.
  rewrite Wf, pop_row_first in H. simpl in H.
  rewrite Nat.add_0_r in H. apply H.
  intros p Hp Hne. eapply pop_row_status; eauto.
Qed.

(** Removing the head keeps I1. *)
Lemma pop_I1 (l : list Person) (first : Person) (t : datetime) :
  pk_unique l -> I1 l -> In first l -> is_waiting first = true ->
  position first = Some 1 ->
  I1 (map (pop_row (id first) 1 t) l).
Proof.
  intros Hpk HI Hf Wf Pf.
  pose proof (pop_count l first 1 t Hpk Hf Wf) as Hc.
  assert (Hrow : forall p, In p l -> is_waiting (pop_row (id first) 1 t p) = true ->
            exists n, position p = Some n /\ 2 <= n <= Z.of_nat (count_waiting l) /\
                      pop_row (id first) 1 t p = set_position (Some (n - 1)) p /\
                      is_waiting p = true).
  { intros p Hp W.
    assert (Hne : p <> first) by (intros ->; now rewrite pop_row_first in W).
    rewrite (pop_row_status l first p 1 t) in W by auto.
    destruct (pop_row_other l first p t) as (n & ? & ? & ?); auto.
    exists n. auto. }
  apply I1_map; [now apply pk_unique_NoDup| |].
  - intros p Hp W. destruct (Hrow p Hp W) as (n & Pn & Hn & E & _).
    exists (n - 1). rewrite E. split; [reflexivity|lia].
  - intros p q Hp Hq Wp Wq E.
    destruct (Hrow p Hp Wp) as (n & Pn & Hn & En & Wp').
    destruct (Hrow q Hq Wq) as (m & Pm & Hm & Em & Wq').
    rewrite En, Em in E. simpl in E. injection E as E.
    apply (I1_distinct l); auto. rewrite Pn, Pm. f_equal. lia.
Qed.

Lemma pop_pk (l : list Person) (fid f : Z) (t : datetime) :
  pk_unique l -> pk_unique (map (pop_row fid f t) l).
Proof. apply pk_unique_map. intros. apply pop_row_id. Qed.

(** ** Catch-up advance, turn by turn *)

Lemma process_iteration_idle (now : datetime) (L : Z) (l : list Person) (s : Setting) :
  start_time s = None ->
  process_iteration now L (mkStore l s) = (Return false, mkStore l s).
Proof.
  intros H. unfold process_iteration, bind, get_setting. simpl. now rewrite H.
Qed.

Lemma process_iteration_early (now : datetime) (L : Z) (l : list Person)
    (s : Setting) (a : datetime) :
  start_time s = Some a -> now - a < timedelta L ->
  process_iteration now L (mkStore l s) = (Return false, mkStore l s).
Proof.
  intros H Hlt. unfold process_iteration, bind, get_setting. simpl. rewrite H.
  apply Z.ltb_lt in Hlt. now rewrite Hlt.
Qed.

Lemma process_iteration_empty (now : datetime) (L : Z) (l : list Person)
    (s : Setting) (a : datetime) :
  start_time s = Some a -> timedelta L <= now - a -> waiting_rows l = [] ->
  process_iteration now L (mkStore l s) =
  (Return false,
   mkStore l (set_time_remaining_on_pause None (set_start_time None s))).
Proof.
  intros H Hge Hw. unfold process_iteration, bind, get_setting. simpl. rewrite H.
  apply Z.ltb_ge in Hge. rewrite Hge.
  unfold first_waiting. simpl. rewrite Hw. reflexivity.
Qed.

Lemma process_iteration_pop (now : datetime) (L : Z) (l : list Person)
    (s : Setting) (a : datetime) (first : Person) (f : Z) :
  pk_unique l ->
  start_time s = Some a -> timedelta L <= now - a ->
  hd_error (order_by by_position (waiting_rows l)) = Some first ->
  position first = Some f ->
  let l' := map (pop_row (id first) f (a + timedelta L)) l in
  process_iteration now L (mkStore l s) =
  (Return true,
   mkStore l' (set_start_time (anchor_if_waiting l' (a + timedelta L)) s)).
Proof.
  intros Hpk H Hge Hfirst Hf. unfold process_iteration, bind, get_setting. simpl.
  rewrite H. apply Z.ltb_ge in Hge. rewrite Hge.
  unfold first_waiting. simpl. rewrite Hfirst. unfold shift_up_behind.
  rewrite (shift_where_spec (behind first) (behind_b (id first) f)).
  - simpl. rewrite pop_rows_eq. rewrite order_by_match.
    unfold anchor_if_waiting.
    destruct (waiting_rows (map (pop_row (id first) f (a + timedelta L)) l));
      reflexivity.
  - unfold update_row. apply pk_unique_map; [|apply pk_unique_map; auto].
    + intros p. destruct (id p =? id first); reflexivity.
    + intros p. destruct (id p =? id first); reflexivity.
  - intros w _ _. now apply behind_spec.
Qed.

Lemma is_waiting_set_position (v : option Z) (p : Person) :
  is_waiting (set_position v p) = is_waiting p.
Proof. reflexivity. Qed.

Lemma set_position_same (p : Person) (i : Z) :
  position p = Some i -> set_position (Some i) p = p.
Proof. destruct p; simpl; intros ->; reflexivity. Qed.

Lemma set_start_time_same (s : Setting) (v : option datetime) :
  start_time s = v -> set_start_time v s = s.
Proof. destruct s; simpl; intros ->; reflexivity. Qed.

Lemma catch_up_zero (a : datetime) (L : Z) (l : list Person) :
  I1 l -> map (catch_up_row a L 0) l = l.
Proof.
  intros HI. rewrite <- (map_id l) at 2. apply map_ext_in. intros p Hp.
  unfold catch_up_row. destruct (is_waiting p) eqn:W; [|reflexivity].
  destruct (I1_bounds l p HI Hp W) as (i & Pi & Hi). rewrite Pi.
  replace (i <=? 0) with false by (symmetry; apply Z.leb_gt; lia).
  rewrite Z.sub_0_r. now apply set_position_same.
Qed.

Lemma catch_up_compose (a : datetime) (L : Z) (m : Z) (l : list Person)
    (first : Person) :
  pk_unique l -> I1 l -> In first l -> is_waiting first = true ->
  position first = Some 1 -> 0 <= m ->
  map (catch_up_row (a + timedelta L) L m)
      (map (pop_row (id first) 1 (a + timedelta L)) l) =
  map (catch_up_row a L (m + 1)) l.
Proof.
  intros Hpk HI Hf Wf Pf Hm. rewrite map_map. apply map_ext_in. intros p Hp.
  destruct (Z.eq_dec (id p) (id first)) as [E|E].
  - assert (p = first) by (eapply pk_unique_eq; eauto). subst p.
    rewrite pop_row_first. unfold catch_up_row. simpl. rewrite Wf, Pf.
    replace (1 <=? m + 1) with true by (symmetry; apply Z.leb_le; lia).
    do 2 f_equal. unfold timedelta. lia.
  - assert (Hne : p <> first) by congruence.
    destruct (is_waiting p) eqn:W.
    + destruct (pop_row_other l first p (a + timedelta L)) as (n & Pn & Hn & ->); auto.
      unfold catch_up_row. rewrite is_waiting_set_position. simpl. rewrite W, Pn.
      destruct (n <=? m + 1) eqn:C.
      * replace (n - 1 <=? m) with true by (symmetry; apply Z.leb_le; lia).
        do 2 f_equal. unfold timedelta. ring.
      * replace (n - 1 <=? m) with false by (symmetry; apply Z.leb_gt; lia).
        unfold set_position. simpl. do 2 f_equal. lia.
    + unfold pop_row. apply Z.eqb_neq in E. rewrite E, W.
      unfold catch_up_row. now rewrite W.
Qed.

Lemma count_waiting_zero (l : list Person) :
  count_waiting l = 0%nat -> waiting_rows l = [].
Proof. unfold count_waiting. now destruct (waiting_rows l). Qed.

Lemma anchor_if_waiting_some (l : list Person) (t : datetime) :
  (1 <= count_waiting l)%nat -> anchor_if_waiting l t = Some t.
Proof.
  unfold anchor_if_waiting, count_waiting.
  destruct (waiting_rows l); simpl; [lia|reflexivity].
Qed.

Lemma anchor_if_waiting_none (l : list Person) (t : datetime) :
  count_waiting l = 0%nat -> anchor_if_waiting l t = None.
Proof.
  intros H. unfold anchor_if_waiting. now rewrite (count_waiting_zero l H).
Qed.

Lemma set_start_time_twice (v w : option datetime) (s : Setting) :
  set_start_time v (set_start_time w s) = set_start_time v s.
Proof. reflexivity. Qed.

Lemma process_loop_S (fuel : nat) (clock : nat -> datetime) (i : nat) (L : Z)
    (st : Store) :
  process_loop (S fuel) clock i L st =
  match process_iteration (clock i) L st with
  | (Return true, st') => process_loop fuel clock (S i) L st'
  | (Return false, st') => Some (Return tt, st')
  | (Raise e, st') => Some (Raise e, st')
  end.
Proof. reflexivity. Qed.

(** The loop from a table in which someone waits, when every clock reading
    lies in the interval number [k] (counted from 0) after the anchor. *)
Lemma process_loop_catch_up (L : Z) (clock : nat -> datetime) :
  0 < L ->
  forall (k : nat) (l : list Person) (s : Setting) (a : datetime) (fuel i0 : nat),
    pk_unique l -> I1 l -> (1 <= count_waiting l)%nat ->
    start_time s = Some a ->
    (forall i, a + timedelta (Z.of_nat k * L) <= clock i
               < a + timedelta ((Z.of_nat k + 1) * L)) ->
    (Nat.min k (count_waiting l) + 2 <= fuel)%nat ->
    process_loop fuel clock i0 L (mkStore l s) =
    Some (Return tt,
          mkStore
            (map (catch_up_row a L (Z.of_nat (Nat.min k (count_waiting l)))) l)
            (set_start_time
               (if (k <? count_waiting l)%nat
                then Some (a + timedelta (Z.of_nat k * L)) else None) s)).
Proof.
  intros HL. induction k as [|k IH]; intros l s a fuel i0 Hpk HI HN Ha Hclock Hfuel.
  - destruct fuel as [|fuel]; [lia|]. rewrite process_loop_S.
    rewrite (process_iteration_early _ _ _ _ a Ha).
    + simpl. rewrite catch_up_zero by assumption.
      replace (0 <? count_waiting l)%nat with true
        by (symmetry; apply Nat.ltb_lt; lia).
      rewrite set_start_time_same; [reflexivity|].
      rewrite Ha. apply f_equal. unfold timedelta. lia.
    + specialize (Hclock i0). unfold timedelta in *. lia.
  - destruct fuel as [|fuel]; [lia|]. rewrite process_loop_S.
    destruct (first_waiting_I1 l HI HN) as (first & Hhd & Hin & Wf & Pf).
    rewrite (process_iteration_pop _ _ _ _ a first 1 Hpk Ha); auto.
    2:{ specialize (Hclock i0). unfold timedelta in *. nia. }
    pose proof (pop_count l first 1 (a + timedelta L) Hpk Hin Wf) as Hc.
    pose proof (pop_I1 l first (a + timedelta L) Hpk HI Hin Wf Pf) as HI'.
    pose proof (pop_pk l (id first) 1 (a + timedelta L) Hpk) as Hpk'.
    set (l' := map (pop_row (id first) 1 (a + timedelta L)) l) in *.
    destruct (count_waiting l') as [|n'] eqn:En.
    + rewrite anchor_if_waiting_none by assumption.
      destruct fuel as [|fuel]; [lia|]. rewrite process_loop_S.
      rewrite process_iteration_idle by reflexivity.
      replace (count_waiting l) with 1%nat by lia.
      replace (Nat.min (S k) 1) with 1%nat by lia.
      replace (S k <? 1)%nat with false by (symmetry; apply Nat.ltb_ge; lia).
      do 3 f_equal. change (Z.of_nat 1) with (0 + 1).
      rewrite <- (catch_up_compose a L 0 l first); auto; [|lia].
      fold l'. now rewrite catch_up_zero.
    + rewrite anchor_if_waiting_some by lia.
      rewrite (IH l' _ (a + timedelta L)); auto.
      * rewrite set_start_time_twice. rewrite En.
        replace (Z.of_nat (Nat.min (S k) (count_waiting l)))
          with (Z.of_nat (Nat.min k (S n')) + 1) by lia.
        unfold l'. rewrite catch_up_compose by (auto; lia).
        do 3 f_equal.
        replace (S k <? count_waiting l)%nat with (k <? S n')%nat.
        2:{ destruct (Nat.ltb_spec k (S n')), (Nat.ltb_spec (S k) (count_waiting l));
              auto; lia. }
        replace (a + timedelta L + timedelta (Z.of_nat k * L))
          with (a + timedelta (Z.of_nat (S k) * L)) by (unfold timedelta; lia).
        reflexivity.
      * rewrite En. lia.
      * intros i. specialize (Hclock i). unfold timedelta in *. lia.
      * rewrite En. lia.
Qed.

(** The table after a catch-up satisfies I1 again, with [m] rows fewer
    waiting. *)
Lemma catch_up_rows_I1 (L : Z) :
  forall (m : nat) (l : list Person) (a : datetime),
    pk_unique l -> I1 l -> (m <= count_waiting l)%nat ->
    I1 (map (catch_up_row a L (Z.of_nat m)) l) /\
    count_waiting (map (catch_up_row a L (Z.of_nat m)) l) = (count_waiting l - m)%nat.
Proof.
  induction m as [|m IH]; intros l a Hpk HI Hm.
  - simpl. rewrite catch_up_zero by assumption. split; [exact HI|lia].
  - destruct (first_waiting_I1 l HI) as (first & Hhd & Hin & Wf & Pf); [lia|].
    pose proof (pop_count l first 1 (a + timedelta L) Hpk Hin Wf) as Hc.
    replace (Z.of_nat (S m)) with (Z.of_nat m + 1) by lia.
    rewrite <- (catch_up_compose a L (Z.of_nat m) l first) by (auto; lia).
    destruct (IH (map (pop_row (id first) 1 (a + timedelta L)) l) (a + timedelta L))
      as [HI' Hc']; [now apply pop_pk|now apply pop_I1|lia|].
    split; [exact HI'|]. rewrite Hc'. lia.
Qed.

Lemma process_timer_advances_catch_up_run (clock : nat -> datetime) (st : Store)
    (k : nat) (a : datetime) :
  pk_unique (persons st) -> I1 (persons st) ->
  timer_paused (setting st) = false ->
  start_time (setting st) = Some a ->
  (1 <= k)%nat ->
  (forall i, a + timedelta (Z.of_nat k * tour_length_seconds (setting st))
             <= clock i
             < a + timedelta ((Z.of_nat k + 1) * tour_length_seconds (setting st))) ->
  process_timer_advances clock st =
  Some (Return tt,
        mkStore
          (map (catch_up_row a (tour_length_seconds (setting st))
                  (Z.of_nat (Nat.min k (count_waiting (persons st)))))
               (persons st))
          (catch_up_setting k (count_waiting (persons st)) a (setting st))).
Proof.
  destruct st as [l s]. simpl. intros Hpk HI Hp Ha Hk Hclock.
  set (L := tour_length_seconds s) in *.
  assert (HL : 0 < L).
  { specialize (Hclock 0%nat). unfold timedelta in Hclock. lia. }
  unfold process_timer_advances, process_timer_advances_fuel.
  cbn [persons setting]. rewrite Hp, Ha. cbn [orb]. fold L.
  assert (Hlen : (count_waiting l <= length l)%nat)
    by (unfold count_waiting, waiting_rows; apply filter_length_le).
  unfold catch_up_setting. fold L.
  destruct (count_waiting l) as [|n] eqn:En.
  - rewrite process_loop_S.
    rewrite (process_iteration_empty _ _ _ _ a Ha).
    + rewrite Nat.min_0_r. simpl. rewrite catch_up_zero by assumption.
      replace (k <? 0)%nat with false by (symmetry; apply Nat.ltb_ge; lia).
      reflexivity.
    + specialize (Hclock 0%nat). unfold timedelta in *. nia.
    + now apply count_waiting_zero.
  - rewrite (process_loop_catch_up L clock HL k l s a); auto.
    + rewrite En. reflexivity.
    + rewrite En. lia.
    + rewrite En. lia.
Qed.

(** C3. In a running state (not paused, anchor [a]) that satisfies I1, when
    every clock reading of the call lies in [[a + k*L, a + (k+1)*L)] with
    [k >= 1] and [L] the interval length, one catch-up advance returns and
    - moves the rows at positions [1 .. min k N] to passed, the row at
      position [i] with [passed_at = a + i*L] and no position;
    - moves every other waiting row up by [min k N];
    - leaves the anchor at [a + k*L] if rows still wait ([k < N]) and clears
      it otherwise;
    so that [min k N] rows fewer are waiting, and I1 holds again. *)
Theorem process_timer_advances_catch_up (clock : nat -> datetime) (st : Store)
    (k : nat) (a : datetime) :
  pk_unique (persons st) -> I1 (persons st) ->
  timer_paused (setting st) = false ->
  start_time (setting st) = Some a ->
  (1 <= k)%nat ->
  (forall i, a + timedelta (Z.of_nat k * tour_length_seconds (setting st))
             <= clock i
             < a + timedelta ((Z.of_nat k + 1) * tour_length_seconds (setting st))) ->
  let N := count_waiting (persons st) in
  exists st',
    process_timer_advances clock st = Some (Return tt, st') /\
    persons st' =
      map (catch_up_row a (tour_length_seconds (setting st)) (Z.of_nat (Nat.min k N)))
          (persons st) /\
    setting st' = catch_up_setting k N a (setting st) /\
    count_waiting (persons st') = (N - Nat.min k N)%nat /\
    I1 (persons st').
Proof.
  intros Hpk HI Hp Ha Hk Hclock N.
  eexists. split; [apply (process_timer_advances_catch_up_run clock st k a); assumption|].
  cbn [persons setting]. split; [reflexivity|]. split; [reflexivity|].
  destruct (catch_up_rows_I1 (tour_length_seconds (setting st))
              (Nat.min k N) (persons st) a Hpk HI) as [HI' Hc]; [unfold N; lia|].
  split; [exact Hc|exact HI'].
Qed.

(** ** Facts that hold in every state, whatever the loops raise *)

Lemma for_each_preserves {A} (P : Store -> Prop) (ws : list A) (body : A -> M unit) :
  (forall w st, P st -> P (snd (body w st))) ->
  forall st, P st -> P (snd (for_each ws body st)).
Proof.
  intros Hbody. induction ws as [|w ws IH]; intros st HP; simpl; [exact HP|].
  unfold bind. pose proof (Hbody w st HP) as H1.
  destruct (body w st) as [[[]|e] st1]; simpl in *; auto.
Qed.

Lemma same_frame_refl (st : Store) : same_frame st st.
Proof. repeat split. Qed.

Lemma same_frame_setattr_position (st0 st : Store) (pid : Z) (v : option Z) :
  same_frame st0 st -> same_frame st0 (snd (setattr pid (set_position v) st)).
Proof.
  intros (Hs & Hi & Ht). unfold same_frame, setattr, update_row. simpl.
  rewrite <- Hi, <- Ht, !map_map. repeat split; auto;
    apply map_ext; intros p; destruct (id p =? pid); reflexivity.
Qed.

Lemma shift_where_frame (cond : Person -> outcome bool) (delta : Z)
    (ws : list Person) (st : Store) :
  same_frame st (snd (shift_where cond delta ws st)).
Proof.
  unfold shift_where.
  apply (for_each_preserves (same_frame st)); [|apply same_frame_refl].
  intros w st1 H. unfold bind, lift.
  destruct (cond w) as [[|]|e]; simpl; auto.
  destruct (py_add (position w) delta) as [v|e]; simpl; auto.
  now apply same_frame_setattr_position.
Qed.

Lemma count_waiting_status (l l' : list Person) :
  map status l = map status l' -> count_waiting l = count_waiting l'.
Proof.
  unfold count_waiting, waiting_rows, is_waiting.
  revert l'. induction l as [|a l IH]; intros [|b l'] H; simpl in *;
    try discriminate; [reflexivity|].
  injection H as Hab H. rewrite Hab. specialize (IH l' H).
  destruct (status b); simpl; lia.
Qed.

Lemma count_waiting_update_position (pid : Z) (v : option Z) (l : list Person) :
  count_waiting (update_row pid (set_position v) l) = count_waiting l.
Proof.
  apply count_waiting_status. unfold update_row. rewrite map_map.
  apply map_ext. intros p. destruct (id p =? pid); reflexivity.
Qed.

Lemma count_waiting_update_passed_at (pid : Z) (v : option datetime) (l : list Person) :
  count_waiting (update_row pid (set_passed_at v) l) = count_waiting l.
Proof.
  apply count_waiting_status. unfold update_row. rewrite map_map.
  apply map_ext. intros p. destruct (id p =? pid); reflexivity.
Qed.

Lemma count_waiting_mark_passed_le (pid : Z) (l : list Person) :
  (count_waiting (update_row pid (set_status Passed) l) <= count_waiting l)%nat.
Proof.
  unfold count_waiting, waiting_rows, update_row.
  induction l as [|b l IH]; simpl; [lia|].
  destruct (id b =? pid); simpl; destruct (is_waiting b); simpl; lia.
Qed.

Lemma count_waiting_mark_passed (first : Person) (l : list Person) :
  In first l -> is_waiting first = true ->
  (count_waiting (update_row (id first) (set_status Passed) l) < count_waiting l)%nat.
Proof.
  induction l as [|a l IH]; intros Hin Hw; [destruct Hin|].
  pose proof (count_waiting_mark_passed_le (id first) l) as Hle.
  unfold count_waiting, waiting_rows, update_row in *. simpl.
  destruct Hin as [->|Hin].
  - rewrite Z.eqb_refl, Hw. simpl. lia.
  - specialize (IH Hin Hw).
    destruct (id a =? id first); simpl; destruct (is_waiting a); simpl; lia.
Qed.

(** One turn in any state: the interval length and the pause flag stay; a
    turn that stops leaves no anchor or an anchor younger than the interval;
    a turn that goes on has taken a row out of the waiting set. *)
Lemma process_iteration_any (now : datetime) (L : Z) (st : Store)
    (o : outcome bool) (st' : Store) :
  process_iteration now L st = (o, st') ->
  tour_length_seconds (setting st') = tour_length_seconds (setting st) /\
  timer_paused (setting st') = timer_paused (setting st) /\
  match o with
  | Return false =>
      start_time (setting st') = None \/
      (st' = st /\ exists a, start_time (setting st) = Some a /\ now - a < timedelta L)
  | Return true => (count_waiting (persons st') < count_waiting (persons st))%nat
  | Raise _ => True
  end.
Proof.
  destruct st as [l s]. unfold process_iteration, bind, get_setting. simpl.
  destruct (start_time s) as [a|] eqn:Ha.
  2:{ intros E. injection E as <- <-. simpl. auto. }
  destruct (now - a <? timedelta L) eqn:Hlt.
  { intros E. injection E as <- <-. simpl. repeat split; auto.
    right. split; auto. exists a. split; auto. now apply Z.ltb_lt. }
  unfold first_waiting. simpl.
  destruct (hd_error (order_by by_position (waiting_rows l))) as [first|] eqn:Hhd.
  2:{ simpl. intros E. injection E as <- <-. simpl. auto. }
  simpl.
  destruct (order_by_first_least by_position by_position_total by_position_trans
              _ _ Hhd) as [Hin _].
  apply waiting_rows_In in Hin. destruct Hin as [Hin Hw].
  match goal with
  | |- context [shift_up_behind ?f ?ws ?st1] =>
      pose proof (shift_where_frame (behind f) (-1) ws st1) as Hfr;
      unfold shift_up_behind;
      destruct (shift_where (behind f) (-1) ws st1) as [[[]|e] [l2 s2]]
  end; simpl in *.
  - destruct Hfr as (Hs & _ & Hst). simpl in Hs, Hst. subst s2.
    intros E.
    assert (Hcount : (count_waiting (update_row (id first) (set_position None) l2)
                      < count_waiting l)%nat).
    { rewrite count_waiting_update_position.
      rewrite (count_waiting_status _ _ Hst).
      rewrite count_waiting_update_passed_at.
      now apply count_waiting_mark_passed. }
    destruct (order_by by_position
                (waiting_rows (update_row (id first) (set_position None) l2)));
      simpl in E; injection E as <- <-; simpl; auto.
  - destruct Hfr as (Hs & _ & _). simpl in Hs. subst s2.
    intros E. injection E as <- <-. simpl. auto.
Qed.

Lemma process_loop_total (clock : nat -> datetime) (L : Z) :
  forall (fuel i : nat) (st : Store),
    (count_waiting (persons st) < fuel)%nat ->
    exists r, process_loop fuel clock i L st = Some r.
Proof.
  induction fuel as [|fuel IH]; intros i st Hf; [lia|].
  rewrite process_loop_S.
  destruct (process_iteration (clock i) L st) as [[[|]|e] st'] eqn:E; eauto.
  apply process_iteration_any in E. destruct E as (_ & _ & Hc).
  apply IH. lia.
Qed.

(** [process_timer_advances] always returns: the fuel never runs out. *)
Lemma process_timer_advances_total (clock : nat -> datetime) (st : Store) :
  exists r, process_timer_advances clock st = Some r.
Proof.
  unfold process_timer_advances, process_timer_advances_fuel.
  destruct (timer_paused (setting st) || _); eauto.
  apply process_loop_total.
  unfold count_waiting, waiting_rows.
  pose proof (filter_length_le is_waiting (persons st)). lia.
Qed.

Lemma process_loop_stops (now : datetime) (L : Z) :
  forall (fuel i : nat) (st st' : Store),
    process_loop fuel (fun _ => now) i L st = Some (Return tt, st') ->
    tour_length_seconds (setting st') = tour_length_seconds (setting st) /\
    timer_paused (setting st') = timer_paused (setting st) /\
    (start_time (setting st') = None \/
     exists a, start_time (setting st') = Some a /\ now - a < timedelta L).
Proof.
  induction fuel as [|fuel IH]; intros i st st' H; [discriminate|].
  rewrite process_loop_S in H.
  destruct (process_iteration now L st) as [[[|]|e] st1] eqn:E;
    apply process_iteration_any in E; destruct E as (HL & HP & Ho).
  - apply IH in H. destruct H as (HL' & HP' & Hs).
    repeat split; auto; congruence.
  - injection H as <-. repeat split; auto.
    destruct Ho as [Ho|(-> & a & Ha & Hlt)]; eauto.
  - discriminate.
Qed.

(** From a table that satisfies I1 the loop returns normally and I1 holds
    again. *)
Lemma process_loop_I1 (clock : nat -> datetime) (L : Z) :
  forall (fuel i : nat) (l : list Person) (s : Setting),
    pk_unique l -> I1 l -> (count_waiting l < fuel)%nat ->
    exists l' s',
      process_loop fuel clock i L (mkStore l s) = Some (Return tt, mkStore l' s') /\
      pk_unique l' /\ I1 l'.
Proof.
  induction fuel as [|fuel IH]; intros i l s Hpk HI Hf; [lia|].
  rewrite process_loop_S.
  destruct (start_time s) as [a|] eqn:Ha.
  2:{ rewrite process_iteration_idle by assumption. eauto. }
  destruct (Z.lt_ge_cases (clock i - a) (timedelta L)) as [Hlt|Hge].
  { rewrite (process_iteration_early _ _ _ _ a) by assumption. eauto. }
  destruct (count_waiting l) as [|n] eqn:En.
  { rewrite (process_iteration_empty _ _ _ _ a); auto using count_waiting_zero.
    eauto. }
  destruct (first_waiting_I1 l HI) as (first & Hhd & Hin & Wf & Pf); [lia|].
  rewrite (process_iteration_pop _ _ _ _ a first 1); auto.
  pose proof (pop_count l first 1 (a + timedelta L) Hpk Hin Wf) as Hc.
  apply IH.
  - now apply pop_pk.
  - now apply pop_I1.
  - lia.
Qed.

Lemma process_timer_advances_I1 (clock : nat -> datetime) (st : Store) :
  pk_unique (persons st) -> I1 (persons st) ->
  exists st',
    process_timer_advances clock st = Some (Return tt, st') /\
    pk_unique (persons st') /\ I1 (persons st').
Proof.
  destruct st as [l s]. simpl. intros Hpk HI.
  unfold process_timer_advances, process_timer_advances_fuel.
  cbn [persons setting].
  destruct (timer_paused s || _).
  - exists (mkStore l s). auto.
  - destruct (process_loop_I1 clock (tour_length_seconds s)
                (S (S (length l))) 0%nat l s Hpk HI) as (l' & s' & E & ? & ?).
    + unfold count_waiting, waiting_rows.
      pose proof (filter_length_le is_waiting l). lia.
    + exists (mkStore l' s'). auto.
Qed.

(** C4. Catch-up advance is idempotent.  In every state the call returns
    (the loop terminates); when it returns normally, a second call at the
    same instant returns normally and leaves the state of the first call as
    it is; and in a state that satisfies I1 it does return normally. *)
Theorem process_timer_advances_idempotent (now : datetime) (st : Store) :
  exists (out : outcome unit) (st' : Store),
    process_timer_advances (fun _ => now) st = Some (out, st') /\
    (out = Return tt ->
     process_timer_advances (fun _ => now) st' = Some (Return tt, st')) /\
    (pk_unique (persons st) -> I1 (persons st) -> out = Return tt).
Proof.
  destruct (process_timer_advances_total (fun _ => now) st) as [[out st'] E].
  exists out, st'. split; [exact E|]. split.
  - intros ->. revert E.
    unfold process_timer_advances, process_timer_advances_fuel.
    destruct (timer_paused (setting st) ||
              match start_time (setting st) with None => true | Some _ => false end)
      eqn:G.
    + intros E. injection E as <-. now rewrite G.
    + intros E. apply process_loop_stops in E. destruct E as (HL & HP & Hs).
      apply orb_false_iff in G. destruct G as [G _].
      rewrite HP, G. cbn [orb].
      destruct Hs as [Hs|(a & Ha & Hlt)]; rewrite ?Hs, ?Ha; [reflexivity|].
      rewrite process_loop_S. destruct st' as [l' s']. cbn [setting] in *.
      rewrite (process_iteration_early _ _ _ _ a Ha); [reflexivity|].
      now rewrite HL.
  - intros Hpk HI.
    destruct (process_timer_advances_I1 (fun _ => now) st Hpk HI) as (st1 & E1 & _).
    congruence.
Qed.

(** ** Clock projection *)

Lemma trunc_floor_clamped (x : Z) :
  Z.max (Z.quot x 1000000) 0 = Z.max 0 (x / 1000000).
Proof.
  destruct (Z.le_gt_cases 0 x) as [H|H].
  - rewrite Z.quot_div_nonneg by lia. lia.
  - assert (Hq : Z.quot x 1000000 <= 0).
    { replace x with (- (- x)) by lia. rewrite Z.quot_opp_l by lia.
      pose proof (Z.quot_pos (- x) 1000000). lia. }
    assert (Hd : x / 1000000 < 0) by (apply Z.div_lt_upper_bound; lia).
    lia.
Qed.

(** C6. The clock projection depends on the settings row and the instant
    only and returns a value, no state: the frozen snapshot when paused,
    nothing when there is no anchor, and otherwise the interval length minus
    the seconds since the anchor, rounded down to an integer and clamped at
    zero. *)
Theorem compute_time_remaining_seconds_spec (now : datetime) (s : Setting) :
  (timer_paused s = true ->
   compute_time_remaining_seconds now s = time_remaining_on_pause s) /\
  (timer_paused s = false -> start_time s = None ->
   compute_time_remaining_seconds now s = None) /\
  (forall a, timer_paused s = false -> start_time s = Some a ->
   compute_time_remaining_seconds now s =
   Some (Z.max 0 ((timedelta (tour_length_seconds s) - (now - a)) / 1000000))).
Proof.
  unfold compute_time_remaining_seconds. repeat split.
  - now intros ->.
  - now intros -> ->.
  - intros a -> ->. unfold int_of_seconds. now rewrite trunc_floor_clamped.
Qed.

(** ** Pause and resume *)

Lemma api_pause_running (t : datetime) (l : list Person) (s : Setting) (a : datetime) :
  timer_paused s = false -> start_time s = Some a ->
  api_pause t (mkStore l s) =
  (Return (PausedWith (compute_time_remaining_seconds t s)),
   mkStore l (paused_setting t s)).
Proof.
  intros Hp Ha. unfold api_pause, bind, get_setting, paused_setting,
    compute_time_remaining_seconds. simpl. rewrite Hp, Ha. reflexivity.
Qed.

Lemma api_pause_paused (t : datetime) (l : list Person) (s : Setting) :
  timer_paused s = true ->
  api_pause t (mkStore l s) = (Return Resumed, mkStore l (resumed_setting t s)).
Proof.
  intros Hp. unfold api_pause, bind, get_setting, resumed_setting. simpl.
  rewrite Hp. reflexivity.
Qed.

(** C7. Pause followed by resume is a round trip for the clock projection.
    Pausing a running timer with an anchor stores the clock projection as
    the snapshot and sets the pause flag (the anchor it leaves behind is not
    read while the timer is paused).  Resuming, at once or at any other
    instant [t2], back-dates the anchor to [t2 - (L - snapshot)], clears the
    snapshot and the flag, and the clock projection at [t2] is the projection
    at the instant of the pause, exactly.  No row of the queue changes. *)
Theorem pause_resume_round_trip (t1 t2 : datetime) (st : Store) (a : datetime) :
  timer_paused (setting st) = false ->
  start_time (setting st) = Some a ->
  exists (rem : Z) (st1 st2 : Store),
    compute_time_remaining_seconds t1 (setting st) = Some rem /\
    api_pause t1 st = (Return (PausedWith (Some rem)), st1) /\
    timer_paused (setting st1) = true /\
    time_remaining_on_pause (setting st1) = Some rem /\
    start_time (setting st1) = Some a /\
    api_pause t2 st1 = (Return Resumed, st2) /\
    timer_paused (setting st2) = false /\
    time_remaining_on_pause (setting st2) = None /\
    start_time (setting st2) =
      Some (t2 - timedelta (tour_length_seconds (setting st) - rem)) /\
    persons st2 = persons st /\
    compute_time_remaining_seconds t2 (setting st2) =
    compute_time_remaining_seconds t1 (setting st).
Proof.
  destruct st as [l s]. simpl. intros Hp Ha.
  set (rem := Z.max (int_of_seconds (timedelta (tour_length_seconds s) - (t1 - a))) 0).
  assert (Hrem : compute_time_remaining_seconds t1 s = Some rem).
  { unfold compute_time_remaining_seconds. now rewrite Hp, Ha. }
  exists rem, (mkStore l (paused_setting t1 s)),
    (mkStore l (resumed_setting t2 (paused_setting t1 s))).
  split; [exact Hrem|].
  split. { rewrite (api_pause_running t1 l s a Hp Ha), Hrem. reflexivity. }
  split; [reflexivity|].
  split. { unfold paused_setting. now rewrite Hrem. }
  split. { exact Ha. }
  split. { now apply api_pause_paused. }
  unfold resumed_setting, paused_setting. rewrite Hrem. simpl.
  repeat split; auto.
  unfold compute_time_remaining_seconds. simpl. f_equal.
  unfold int_of_seconds, timedelta.
  replace (tour_length_seconds s * 1000000 -
           (t2 - (t2 - (tour_length_seconds s - rem) * 1000000)))
    with (rem * 1000000) by lia.
  rewrite Z.quot_mul by lia. unfold rem. lia.
Qed.

(** ** Interval length change *)






(** ** Moving a row that has already passed to passed *)

Lemma update_row_noop (pid : Z) (f : Person -> Person) (l : list Person) :
  (forall q, In q l -> id q = pid -> f q = q) -> update_row pid f l = l.
Proof.
  intros H. unfold update_row. rewrite <- (map_id l) at 2.
  apply map_ext_in. intros q Hq. destruct (id q =? pid) eqn:E; [|reflexivity].
  apply H; auto. now apply Z.eqb_eq.
Qed.

Lemma waiting_rows_update_passed (p : Person) (f : Person -> Person) (l : list Person) :
  pk_unique l -> In p l -> is_waiting p = false -> is_waiting (f p) = false ->
  waiting_rows (update_row (id p) f l) = waiting_rows l.
Proof.
  intros Hpk Hp Wp Wf. unfold waiting_rows, update_row.
  assert (H : forall q, In q l -> id q = id p -> q = p)
    by (intros; eapply pk_unique_eq; eauto).
  clear Hpk Hp. induction l as [|q l IH]; simpl; [reflexivity|].
  rewrite IH by (intros; apply H; auto; now right).
  destruct (id q =? id p) eqn:E; [|reflexivity].
  apply Z.eqb_eq in E. rewrite (H q (or_introl eq_refl) E), Wf, Wp. reflexivity.
Qed.

Lemma find_by_id (l : list Person) (pid : Z) (p : Person) :
  find (fun q => id q =? pid) l = Some p -> In p l /\ id p = pid.
Proof.
  intros H. apply find_some in H. destruct H as [H E]. apply Z.eqb_eq in E. auto.
Qed.

(** C10. In a running state in which someone waits, moving to passed a row
    that has already passed succeeds, stamps that row with [passed_at = now]
    and resets the anchor to now, although no other row, no waiting position
    and not the head have changed. *)
Theorem move_passed_to_passed_resets_anchor (st : Store) (pid : Z) (p : Person)
    (to_position : option Z) (now : datetime) :
  pk_unique (persons st) ->
  find (fun q => id q =? pid) (persons st) = Some p ->
  status p = Passed ->
  timer_paused (setting st) = false ->
  waiting_rows (persons st) <> [] ->
  let persons' := update_row pid (set_passed_at (Some now)) (persons st) in
  move_person_to pid "passed" to_position now st =
    (Return tt, mkStore persons' (set_start_time (Some now) (setting st))) /\
  waiting_rows persons' = waiting_rows (persons st) /\
  hd_error (order_by by_position (waiting_rows persons')) =
  hd_error (order_by by_position (waiting_rows (persons st))).
Proof.
  destruct st as [l s]. simpl. intros Hpk Hfind Hst Hp Hw.
  destruct (find_by_id l pid p Hfind) as [Hin Hid]. subst pid.
  assert (Wp : is_waiting p = false) by (unfold is_waiting; now rewrite Hst).
  assert (Hwr : waiting_rows (update_row (id p) (set_passed_at (Some now)) l) =
                waiting_rows l)
    by (apply waiting_rows_update_passed; auto).
  split; [|split; [exact Hwr|now rewrite Hwr]].
  unfold move_person_to, bind, Person_get. simpl. rewrite Hfind.
  unfold move_to_passed, bind. rewrite Hst. simpl.
  rewrite (update_row_noop (id p) (set_status Passed) l).
  2:{ intros q Hq E. assert (q = p) by (eapply pk_unique_eq; eauto). subst q.
      destruct p; simpl in *; now subst. }
  unfold reset_timer_after_move, bind, get_setting, first_waiting. simpl.
  rewrite Hp, Hwr. simpl.
  destruct (order_by by_position (waiting_rows l)) eqn:E; [|reflexivity].
  apply order_by_nil in E. contradiction.
Qed.

(** ** Undo *)

Lemma waiting_ids_NoDup (l : list Person) :
  pk_unique l -> NoDup (map id (order_by by_position (waiting_rows l))).
Proof.
  intros Hpk.
  eapply Permutation_NoDup;
    [symmetry; apply Permutation_map, order_by_perm|].
  unfold pk_unique in Hpk. unfold waiting_rows.
  induction l as [|a l IH]; simpl; [constructor|].
  inversion Hpk as [|? ? Ha Hnd]; subst.
  destruct (is_waiting a); simpl; auto.
  constructor; auto. intros Hin. apply Ha.
  apply in_map_iff in Hin. destruct Hin as (q & E & Hq).
  apply filter_In in Hq. apply in_map_iff. exists q. tauto.
Qed.

Lemma bump_loop (ws : list Person) :
  NoDup (map id ws) ->
  forall l s,
    for_each ws (fun w =>
      setattr (id w) (set_position (Some (py_or (position w) 0 + 1))))
      (mkStore l s) =
    (Return tt,
     mkStore (map (fun p => match find (fun w => id w =? id p) ws with
                            | Some w => set_position (Some (py_or (position w) 0 + 1)) p
                            | None => p
                            end) l) s).
Proof.
  induction ws as [|w ws IH]; intros Hnd l s.
  - simpl. unfold ret. now rewrite map_id.
  - inversion Hnd as [|? ? Hw Hnd']; subst.
    simpl. unfold bind at 1. unfold setattr at 1. simpl.
    rewrite (IH Hnd'). f_equal. f_equal.
    unfold update_row. rewrite map_map. apply map_ext. intros p.
    rewrite (Z.eqb_sym (id w) (id p)).
    destruct (id p =? id w) eqn:E; [|reflexivity].
    simpl. rewrite find_id_none; [reflexivity|].
    apply Z.eqb_eq in E. now rewrite E.
Qed.

Lemma back_row_id lid p : id (back_row lid p) = id p.
Proof.
  unfold back_row. destruct (id p =? lid); [reflexivity|].
  destruct (is_waiting p); reflexivity.
Qed.

Lemma restart_or_full_length_run (now : datetime) (l : list Person) (s : Setting) :
  restart_or_full_length now (mkStore l s) = (Return tt, mkStore l (restarted now s)).
Proof.
  unfold restart_or_full_length, bind, get_setting, restarted. simpl.
  destruct (timer_paused s); reflexivity.
Qed.

Lemma go_back_run (l : list Person) (s : Setting) (now : datetime) (last : Person) :
  pk_unique l ->
  hd_error (order_by by_passed_at_desc (passed_rows l)) = Some last ->
  go_back now (mkStore l s) =
  (Return (Some (back_row (id last) last)),
   mkStore (map (back_row (id last)) l) (restarted now s)).
Proof.
  intros Hpk Hhd.
  assert (Hin : In last l).
  { destruct (order_by_first_least by_passed_at_desc by_passed_at_desc_total
                by_passed_at_desc_trans _ _ Hhd) as [H _].
    unfold passed_rows in H. apply filter_In in H. tauto. }
  unfold go_back, bind, get_setting, last_passed. simpl. rewrite Hhd.
  rewrite (bump_loop _ (waiting_ids_NoDup l Hpk)). simpl.
  rewrite restart_or_full_length_run. simpl.
  assert (E : update_row (id last) (set_passed_at None)
                (update_row (id last) (set_position (Some 1))
                   (update_row (id last) (set_status Waiting)
                      (map (fun p =>
                              match find (fun w => id w =? id p)
                                      (order_by by_position (waiting_rows l)) with
                              | Some w => set_position (Some (py_or (position w) 0 + 1)) p
                              | None => p
                              end) l))) =
              map (back_row (id last)) l).
  { unfold update_row. rewrite !map_map. apply map_ext_in. intros p Hp.
    rewrite (find_id_waiting l _ p Hpk (order_by_perm _ _) Hp).
    unfold back_row, bump.
    destruct (is_waiting p); simpl; destruct (id p =? id last) eqn:E;
      simpl; rewrite ?E; simpl; rewrite ?E; reflexivity. }
  rewrite E. unfold Person_get. simpl.
  rewrite (find_map_id _ l last Hpk Hin) by (intros; apply back_row_id).
  reflexivity.
Qed.

Lemma is_waiting_status (p : Person) : is_waiting p = true <-> status p = Waiting.
Proof. unfold is_waiting. destruct (status p); split; congruence. Qed.

Lemma is_passed_waiting (p : Person) : is_passed p = negb (is_waiting p).
Proof. unfold is_passed, is_waiting. now destruct (status p). Qed.



(** ** The timer invariant that every operation keeps *)

Lemma I4_timer_consistent (st : Store) : I4 st -> timer_consistent st.
Proof.
  intros [Hp Hr]. split.
  - intros H. now apply Hp.
  - intros H. destruct (Hr H) as [Ha Hf]. split; [exact Hf|]. apply Ha.
Qed.

Lemma order_by_hd_none {A} (le : A -> A -> bool) (l : list A) :
  hd_error (order_by le l) = None -> l = [].
Proof.
  intros H. apply (order_by_nil le).
  destruct (order_by le l); [reflexivity|discriminate].
Qed.

Ltac inv_run H :=
  unfold discard in H; simpl in H; first [discriminate|injection H as <-].

Lemma add_person_consistent name t1 t2 st r st' :
  timer_consistent st -> add_person name t1 t2 st = (Return r, st') ->
  timer_consistent st'.
Proof.
  destruct st as [l s]. unfold timer_consistent, add_person, bind, get_waiting,
    insert_row, get_setting. simpl. intros [Hp Hr].
  destruct (start_time s) eqn:Ha, (timer_paused s) eqn:Pa; simpl;
    try destruct (time_remaining_on_pause s) eqn:Fr; simpl;
    intros E; injection E as <- <-; simpl; rewrite ?Ha, ?Pa, ?Fr;
    (split; [try discriminate; auto | try discriminate]);
    try (intros _; split; [apply Hr; reflexivity|discriminate]);
    try (intros _; discriminate).
Qed.

Lemma process_iteration_consistent now L st b st' :
  timer_paused (setting st) = false -> timer_consistent st ->
  process_iteration now L st = (Return b, st') -> timer_consistent st'.
Proof.
  destruct st as [l s]. simpl. intros Pa HJ.
  assert (Fr : time_remaining_on_pause s = None) by (now apply HJ).
  unfold process_iteration, bind, get_setting. simpl.
  destruct (start_time s) as [a|] eqn:Ha.
  2:{ intros E. injection E as <- <-. exact HJ. }
  destruct (now - a <? timedelta L).
  { intros E. injection E as <- <-. exact HJ. }
  unfold first_waiting. simpl.
  destruct (hd_error (order_by by_position (waiting_rows l))) as [first|] eqn:Hhd.
  2:{ simpl. intros E. injection E as <- <-. unfold timer_consistent. simpl.
      rewrite Pa. split; [discriminate|]. intros _. split; [reflexivity|].
      apply order_by_hd_none in Hhd. contradiction. }
  simpl.
  match goal with
  | |- context [shift_up_behind ?f ?ws ?st1] =>
      pose proof (shift_where_frame (behind f) (-1) ws st1) as Hfr;
      unfold shift_up_behind;
      destruct (shift_where (behind f) (-1) ws st1) as [[[]|e] [l2 s2]]
  end; simpl in *; [|discriminate].
  destruct Hfr as (Hs & _ & _). simpl in Hs. subst s2.
  destruct (order_by by_position
              (waiting_rows (update_row (id first) (set_position None) l2))) eqn:Ew;
    simpl; intros E; injection E as <- <-; unfold timer_consistent; simpl;
    rewrite Pa; (split; [discriminate|]); intros _; (split; [exact Fr|]).
  - apply order_by_nil in Ew. intros H. contradiction.
  - discriminate.
Qed.

Lemma process_loop_consistent clock L :
  forall fuel i st st',
    timer_paused (setting st) = false -> timer_consistent st ->
    process_loop fuel clock i L st = Some (Return tt, st') -> timer_consistent st'.
Proof.
  induction fuel as [|fuel IH]; intros i st st' Pa HJ H; [discriminate|].
  rewrite process_loop_S in H.
  destruct (process_iteration (clock i) L st) as [[[|]|e] st1] eqn:E.
  - apply (IH (S i) st1 st'); auto.
    + apply process_iteration_any in E. destruct E as (_ & HP & _). congruence.
    + eapply process_iteration_consistent; eauto.
  - injection H as <-. eapply process_iteration_consistent; eauto.
  - discriminate.
Qed.

Lemma advance_next_consistent now st r st' :
  timer_consistent st -> advance_next now st = (Return r, st') ->
  timer_consistent st'.
Proof.
  destruct st as [l s]. intros HJ.
  unfold advance_next, bind, get_setting, first_waiting. simpl.
  destruct (hd_error (order_by by_position (waiting_rows l))) as [first|] eqn:Hhd.
  2:{ simpl. intros E. injection E as <- <-. exact HJ. }
  simpl.
  match goal with
  | |- context [shift_up_behind ?f ?ws ?st1] =>
      pose proof (shift_where_frame (behind f) (-1) ws st1) as Hfr;
      unfold shift_up_behind;
      destruct (shift_where (behind f) (-1) ws st1) as [[[]|e] [l2 s2]]
  end; simpl in *; [|discriminate].
  destruct Hfr as (Hs & _ & _). simpl in Hs. subst s2.
  unfold Person_get. destruct HJ as [Hp Hr]. simpl in Hp, Hr.
  destruct (order_by by_position
              (waiting_rows (update_row (id first) (set_position None) l2))) eqn:Ew;
    destruct (timer_paused s) eqn:Pa; simpl;
    intros E; injection E as <- <-; unfold timer_consistent; simpl; rewrite ?Pa;
    (split; [try discriminate; auto|try discriminate]);
    intros _; (split; [now apply Hr|]).
  - apply order_by_nil in Ew. intros H. contradiction.
  - discriminate.
Qed.

Lemma for_each_setting {A} (ws : list A) (body : A -> M unit) (st : Store) :
  (forall w st1, setting (snd (body w st1)) = setting st1) ->
  setting (snd (for_each ws body st)) = setting st.
Proof.
  intros H.
  apply (for_each_preserves (fun st1 => setting st1 = setting st)); auto.
  intros w st1 E. now rewrite H.
Qed.

Lemma restarted_consistent now (l l' : list Person) (s : Setting) :
  timer_consistent (mkStore l s) -> timer_consistent (mkStore l' (restarted now s)).
Proof.
  unfold timer_consistent, restarted. simpl. intros [Hp Hr].
  destruct (timer_paused s) eqn:Pa; simpl; rewrite Pa;
    (split; [try discriminate; auto|try discriminate]).
  intros _. split; [now apply Hr|discriminate].
Qed.

Lemma go_back_consistent now st r st' :
  timer_consistent st -> go_back now st = (Return r, st') ->
  timer_consistent st'.
Proof.
  destruct st as [l s]. intros HJ.
  unfold go_back, bind, get_setting, last_passed. simpl.
  destruct (hd_error (order_by by_passed_at_desc (passed_rows l))) as [last|].
  2:{ simpl. intros E. injection E as <- <-. exact HJ. }
  simpl.
  match goal with
  | |- context [for_each ?ws ?body ?st1] =>
      pose proof (for_each_setting ws body st1) as Hfr;
      destruct (for_each ws body st1) as [[[]|e] [l2 s2]]
  end; simpl in *; [|discriminate].
  rewrite Hfr by reflexivity.
  rewrite restart_or_full_length_run. unfold Person_get. simpl.
  intros E. injection E as <- <-. now apply restarted_consistent with (l := l).
Qed.

Lemma reorder_waiting_consistent ids now st st' :
  timer_consistent st -> reorder_waiting ids now st = (Return tt, st') ->
  timer_consistent st'.
Proof.
  destruct st as [l s]. intros HJ.
  unfold reorder_waiting, bind, all_waiting. simpl.
  match goal with
  | |- context [for_each ?ws ?body ?st1] =>
      pose proof (for_each_setting ws body st1) as Hfr;
      destruct (for_each ws body st1) as [[[]|e] [l1 s1]]
  end; simpl in *; [|discriminate].
  rewrite Hfr by (intros w st1; destruct (existsb _ _); reflexivity).
  match goal with
  | |- context [for_each ?ws ?body ?st1] =>
      pose proof (for_each_setting ws body st1) as Hfr2;
      destruct (for_each ws body st1) as [[[]|e] [l2 s2]]
  end; simpl in *; [|discriminate].
  rewrite Hfr2 by (intros [idx pid] st1; reflexivity).
  rewrite restart_or_full_length_run. unfold commit, ret.
  intros E. injection E as <-. now apply restarted_consistent with (l := l).
Qed.

Ltac frame_loop :=
  match goal with
  | |- context [shift_where ?c ?d ?ws ?st1] =>
      let Hfr := fresh "Hfr" in
      let l2 := fresh "l" in
      let s2 := fresh "s" in
      pose proof (shift_where_frame c d ws st1) as Hfr;
      destruct (shift_where c d ws st1) as [[[]|?] [l2 s2]];
      simpl in *; [destruct Hfr as (Hfr & _ & _); simpl in Hfr; subst s2|try discriminate]
  end.

Lemma move_to_waiting_frame p tp st b st1 :
  move_to_waiting p tp st = (Return b, st1) ->
  setting st1 = setting st /\ (b = false -> st1 = st).
Proof.
  destruct st as [l s]. unfold move_to_waiting, bind, get_waiting. simpl.
  destruct (status p).
  - destruct tp as [tp|]; simpl.
    2:{ intros E. injection E as <- <-. auto. }
    destruct (py_eq (position p) _); simpl.
    { intros E. injection E as <- <-. auto. }
    destruct (py_gt (position p) _) as [[|]|e]; simpl; [| |discriminate];
      frame_loop; intros E; injection E as <- <-; simpl; split; auto; discriminate.
  - frame_loop. intros E. injection E as <- <-. simpl. split; auto; discriminate.
Qed.

Lemma move_to_passed_frame p now st b st1 :
  move_to_passed p now st = (Return b, st1) -> setting st1 = setting st /\ b = true.
Proof.
  destruct st as [l s]. unfold move_to_passed, bind, get_waiting. simpl.
  destruct (status p); simpl.
  - frame_loop. intros E. injection E as <- <-. simpl. split; auto.
  - intros E. injection E as <- <-. simpl. split; auto.
Qed.

Lemma reset_timer_after_move_consistent now l l1 s st' :
  timer_consistent (mkStore l s) ->
  reset_timer_after_move now (mkStore l1 s) = (Return tt, st') ->
  timer_consistent st'.
Proof.
  intros [Hp Hr]. simpl in Hp, Hr.
  unfold reset_timer_after_move, bind, get_setting, first_waiting. simpl.
  destruct (timer_paused s) eqn:Pa; simpl.
  - intros E. injection E as <-. unfold timer_consistent. simpl. rewrite Pa.
    split; [discriminate|discriminate].
  - destruct (hd_error (order_by by_position (waiting_rows l1))) eqn:Hhd; simpl;
      intros E; injection E as <-; unfold timer_consistent; simpl; rewrite Pa;
      (split; [discriminate|]); intros _; (split; [now apply Hr|]).
    + discriminate.
    + apply order_by_hd_none in Hhd. intros H. contradiction.
Qed.

Lemma move_person_to_consistent pid to_status to_position now st st' :
  timer_consistent st ->
  move_person_to pid to_status to_position now st = (Return tt, st') ->
  timer_consistent st'.
Proof.
  destruct st as [l s]. intros HJ.
  unfold move_person_to, bind at 1, Person_get. simpl.
  destruct (find (fun p => id p =? pid) l) as [p|]; [|discriminate].
  unfold bind at 1.
  destruct ((if String.eqb to_status "waiting" then move_to_waiting p to_position
             else if String.eqb to_status "passed" then move_to_passed p now
             else raise (ValueError "invalid target status")) (mkStore l s))
    as [[b|e] [l1 s1]] eqn:Eb; [|discriminate].
  assert (Hfr : s1 = s /\ (b = false -> mkStore l1 s1 = mkStore l s)).
  { destruct (String.eqb to_status "waiting").
    - apply move_to_waiting_frame in Eb. exact Eb.
    - destruct (String.eqb to_status "passed"); [|discriminate].
      apply move_to_passed_frame in Eb. destruct Eb as [? ->].
      split; [assumption|discriminate]. }
  destruct Hfr as [-> Hsame]. destruct b.
  - unfold bind.
    destruct (reset_timer_after_move now (mkStore l1 s)) as [[[]|e] st2] eqn:Er;
      [|discriminate].
    unfold commit, ret. intros E. injection E as <-.
    eapply reset_timer_after_move_consistent; eauto.
  - unfold ret. intros E. injection E as <-. now rewrite Hsame.
Qed.

Lemma api_pause_consistent now st r st' :
  timer_consistent st -> api_pause now st = (Return r, st') ->
  timer_consistent st'.
Proof.
  destruct st as [l s]. intros _.
  unfold api_pause, bind, get_setting. simpl.
  destruct (timer_paused s) eqn:Pa; simpl.
  - intros E. injection E as <- <-. unfold timer_consistent. simpl.
    split; [discriminate|]. intros _. split; [reflexivity|discriminate].
  - destruct (start_time s); simpl; intros E; injection E as <- <-;
      unfold timer_consistent; simpl; split; discriminate.
Qed.

Lemma api_set_tour_length_consistent data now st r st' :
  timer_consistent st -> api_set_tour_length data now st = (Return r, st') ->
  timer_consistent st'.
Proof.
  destruct st as [l s]. intros HJ. unfold api_set_tour_length.
  destruct (requested_number data) as [x|].
  2:{ unfold ret. intros E. injection E as <- <-. exact HJ. }
  unfold bind, lift, set_setting, get_setting.
  destruct (py_int x) as [v|e]; [|discriminate]. simpl.
  destruct HJ as [Hp Hr]. simpl in Hp, Hr.
  destruct (timer_paused s) eqn:Pa; simpl; intros E; injection E as <- <-;
    unfold timer_consistent; simpl; rewrite Pa;
    (split; [try discriminate; auto|try discriminate]).
  intros _. split; [now apply Hr|discriminate].
Qed.

(** C5 (as the code has it). Every operation that returns normally keeps
    this much of I4: a paused timer has its snapshot; a running timer has no
    snapshot and has an anchor whenever someone waits. *)
Theorem every_operation_keeps_timer_consistent (op : operation) (st st' : Store) :
  timer_consistent st ->
  run op st = Some (Return tt, st') ->
  timer_consistent st'.
Proof.
  intros HJ. destruct op; simpl.
  - destruct (add_person name0 now_added now_start st) as [[r|e] st1] eqn:E;
      intros H; inv_run H.
    eapply add_person_consistent; eauto.
  - unfold process_timer_advances, process_timer_advances_fuel.
    destruct (timer_paused (setting st) || _) eqn:G.
    + intros H. injection H as <-. exact HJ.
    + apply orb_false_iff in G. destruct G as [G _].
      now apply process_loop_consistent.
  - destruct (advance_next now st) as [[r|e] st1] eqn:E;
      intros H; inv_run H.
    eapply advance_next_consistent; eauto.
  - destruct (go_back now st) as [[r|e] st1] eqn:E;
      intros H; inv_run H.
    eapply go_back_consistent; eauto.
  - intros H. injection H as H. eapply reorder_waiting_consistent; eauto.
  - intros H. injection H as H. eapply move_person_to_consistent; eauto.
  - destruct (api_pause now st) as [[r|e] st1] eqn:E;
      intros H; inv_run H.
    eapply api_pause_consistent; eauto.
  - destruct (api_set_tour_length data now st) as [[r|e] st1] eqn:E;
      intros H; inv_run H.
    eapply api_set_tour_length_consistent; eauto.
Qed.

(** ** Bulk reorder *)

Lemma existsb_eqb_In (x : Z) (l : list Z) : existsb (Z.eqb x) l = true <-> In x l.
Proof.
  rewrite existsb_exists. split.
  - intros (y & Hy & E). apply Z.eqb_eq in E. now subst.
  - intros H. exists x. split; [exact H|apply Z.eqb_refl].
Qed.

Lemma validation_passes (waiting_ids ids : list Z) (st : Store) :
  (forall x, In x ids -> In x waiting_ids) ->
  for_each ids (check_id waiting_ids) st = (Return tt, st).
Proof.
  induction ids as [|x ids IH]; intros H; simpl; [reflexivity|].
  unfold bind, check_id at 1.
  replace (existsb (Z.eqb x) waiting_ids) with true
    by (symmetry; apply existsb_eqb_In, H; now left).
  simpl. apply IH. intros y Hy. apply H. now right.
Qed.

Lemma validation_fails (waiting_ids ids : list Z) (st : Store) :
  (exists x, In x ids /\ ~ In x waiting_ids) ->
  for_each ids (check_id waiting_ids) st =
  (Raise (ValueError "Invalid id in reorder"), st).
Proof.
  induction ids as [|x ids IH]; intros (y & Hy & Hn); [destruct Hy|].
  simpl. unfold bind, check_id at 1.
  destruct (existsb (Z.eqb x) waiting_ids) eqn:E; simpl.
  - apply IH. exists y. split; [|exact Hn].
    destruct Hy as [->|Hy]; [|exact Hy].
    apply existsb_eqb_In in E. contradiction.
  - reflexivity.
Qed.

Lemma reorder_writes (el : list (Z * Z)) :
  forall l s,
    for_each el (fun '(idx, pid) => setattr pid (set_position (Some (idx + 1))))
      (mkStore l s) =
    (Return tt,
     mkStore (map (fun p => set_position (reordered_position p el (position p)) p) l) s).
Proof.
  induction el as [|[idx pid] el IH]; intros l s.
  - simpl. unfold ret. f_equal. f_equal. rewrite <- (map_id l) at 1.
    apply map_ext. intros p. now destruct p.
  - simpl. unfold bind at 1. unfold setattr at 1. simpl. rewrite IH.
    f_equal. f_equal. unfold update_row. rewrite map_map. apply map_ext.
    intros p. destruct (id p =? pid); reflexivity.
Qed.

(** [reorder_waiting] raises exactly when an id of the sequence is not the
    id of a waiting row, and then before any write. *)
Lemma reorder_waiting_rejects (ids : list Z) (now : datetime) (st : Store) :
  (exists x, In x ids /\ ~ In x (map id (waiting_rows (persons st)))) ->
  reorder_waiting ids now st = (Raise (ValueError "Invalid id in reorder"), st).
Proof.
  intros H. unfold reorder_waiting, bind at 1, all_waiting. unfold bind at 1.
  fold (check_id (map id (waiting_rows (persons st)))).
  now rewrite validation_fails.
Qed.

Lemma reorder_waiting_accepts (ids : list Z) (now : datetime) (st : Store) :
  (forall x, In x ids -> In x (map id (waiting_rows (persons st)))) ->
  reorder_waiting ids now st =
  (Return tt,
   mkStore (map (reorder_row ids) (persons st)) (restarted now (setting st))).
Proof.
  intros H. destruct st as [l s].
  unfold reorder_waiting, bind at 1, all_waiting. unfold bind at 1.
  fold (check_id (map id (waiting_rows (persons (mkStore l s))))).
  rewrite validation_passes by assumption.
  unfold bind at 1. rewrite reorder_writes.
  unfold bind. rewrite restart_or_full_length_run. reflexivity.
Qed.

(** ** I1 across the mutations *)

(** A rewrite of the table that gives one row [x] a new status and position
    and sends the position [n] of every other waiting row to [g n] keeps I1
    when [g] is one-to-one into the new range and avoids the new position of
    [x]. *)
Lemma I1_rewrite (l : list Person) (x : Person) (F : Person -> Person)
    (g : Z -> Z) (N' : nat) :
  pk_unique l -> I1 l -> In x l ->
  (forall q, In q l -> q <> x -> is_waiting (F q) = is_waiting q) ->
  (forall q n, In q l -> q <> x -> is_waiting q = true -> position q = Some n ->
     position (F q) = Some (g n)) ->
  (N' + b2n (is_waiting x) = count_waiting l + b2n (is_waiting (F x)))%nat ->
  (forall n, 1 <= n <= Z.of_nat (count_waiting l) ->
     (is_waiting x = true -> position x <> Some n) ->
     1 <= g n <= Z.of_nat N' /\
     (is_waiting (F x) = true -> position (F x) <> Some (g n)) /\
     forall m, 1 <= m <= Z.of_nat (count_waiting l) ->
       (is_waiting x = true -> position x <> Some m) -> g n = g m -> n = m) ->
  (is_waiting (F x) = true ->
     exists k, position (F x) = Some k /\ 1 <= k <= Z.of_nat N') ->
  I1 (map F l).
Proof.
  intros Hpk HI Hx Hst Hpos Hcount Hg Hnew.
  assert (Hc : count_waiting (map F l) = N').
  { pose proof (count_waiting_map_one F l x (pk_unique_NoDup l Hpk) Hx) as H.
    specialize (H (fun q Hq Hne => Hst q Hq Hne)). lia. }
  assert (Hother : forall q, In q l -> q <> x -> is_waiting (F q) = true ->
            exists n, position q = Some n /\ is_waiting q = true /\
                      1 <= n <= Z.of_nat (count_waiting l) /\
                      (is_waiting x = true -> position x <> Some n) /\
                      position (F q) = Some (g n)).
  { intros q Hq Hne W. rewrite Hst in W by auto.
    destruct (I1_bounds l q HI Hq W) as (n & Pn & Hn).
    exists n. repeat split; auto; try lia.
    intros Wx E. apply Hne. apply (I1_distinct l); auto. congruence. }
  apply I1_map; [now apply pk_unique_NoDup| |].
  - intros q Hq W. rewrite Hc.
    destruct (Person_eq_dec q x) as [->|Hne]; [now apply Hnew|].
    destruct (Hother q Hq Hne W) as (n & _ & _ & Hn & Hd & E).
    exists (g n). split; [exact E|]. now apply Hg.
  - intros p q Hp Hq Wp Wq E.
    destruct (Person_eq_dec p x) as [->|Hpx], (Person_eq_dec q x) as [->|Hqx]; auto.
    + destruct (Hother q Hq Hqx Wq) as (n & _ & _ & Hn & Hd & En).
      exfalso. destruct (Hg n Hn Hd) as (_ & Hav & _). apply Hav; auto. congruence.
    + destruct (Hother p Hp Hpx Wp) as (n & _ & _ & Hn & Hd & En).
      exfalso. destruct (Hg n Hn Hd) as (_ & Hav & _). apply Hav; auto. congruence.
    + destruct (Hother p Hp Hpx Wp) as (n & Pn & Wp' & Hn & Hd & En).
      destruct (Hother q Hq Hqx Wq) as (m & Pm & Wq' & Hm & Hd' & Em).
      destruct (Hg n Hn Hd) as (_ & _ & Hinj).
      assert (n = m) by (apply Hinj; auto; congruence).
      apply (I1_distinct l); auto. congruence.
Qed.

Ltac zcases :=
  repeat match goal with
  | |- context [?a >? ?b] => rewrite (Z.gtb_ltb a b)
  | |- context [?a >=? ?b] => rewrite (Z.geb_leb a b)
  | H : context [?a >? ?b] |- _ => rewrite (Z.gtb_ltb a b) in H
  | H : context [?a >=? ?b] |- _ => rewrite (Z.geb_leb a b) in H
  end;
  repeat match goal with
  | |- context [?a <? ?b] => destruct (Z.ltb_spec a b)
  | |- context [?a <=? ?b] => destruct (Z.leb_spec a b)
  | |- context [?a =? ?b] => destruct (Z.eqb_spec a b)
  | H : context [?a <? ?b] |- _ => destruct (Z.ltb_spec a b)
  | H : context [?a <=? ?b] |- _ => destruct (Z.leb_spec a b)
  | H : context [?a =? ?b] |- _ => destruct (Z.eqb_spec a b)
  end; simpl in *.

Lemma other_id (l : list Person) (x q : Person) :
  pk_unique l -> In x l -> In q l -> q <> x -> (id q =? id x) = false.
Proof.
  intros Hpk Hx Hq Hne. apply Z.eqb_neq. intros E. apply Hne.
  eapply pk_unique_eq; eauto.
Qed.

Lemma go_back_I1 (l : list Person) (last : Person) :
  pk_unique l -> I1 l -> In last l -> is_passed last = true ->
  I1 (map (back_row (id last)) l).
Proof.
  intros Hpk HI Hin Plast.
  assert (Wl : is_waiting last = false).
  { rewrite is_passed_waiting in Plast. now apply negb_true_iff in Plast. }
  assert (Fl : back_row (id last) last =
               mkPerson (id last) (name last) Waiting (Some 1) (added_at last) None).
  { unfold back_row. now rewrite Z.eqb_refl. }
  apply (I1_rewrite l last _ (fun n => n + 1) (S (count_waiting l))); auto.
  - intros q Hq Hne. unfold back_row. rewrite (other_id l last q) by auto.
    destruct (is_waiting q) eqn:W; [|exact W]. exact W.
  - intros q n Hq Hne W Pn. unfold back_row. rewrite (other_id l last q) by auto.
    rewrite W. unfold bump. simpl. rewrite Pn. simpl.
    destruct (I1_bounds l q HI Hq W) as (i & Pi & Hi).
    assert (i = n) by congruence. subst i.
    replace (n =? 0) with false by (symmetry; apply Z.eqb_neq; lia). reflexivity.
  - rewrite Wl, Fl. simpl. lia.
  - intros n Hn _. rewrite Fl. simpl. repeat split; try lia.
    intros _ E. injection E. lia.
  - intros _. rewrite Fl. exists 1. simpl. split; [reflexivity|lia].
Qed.

(** Taking any waiting row out keeps I1 (the shift of [move_person_to] to
    passed, and of the advances when the row is the head). *)
Lemma pop_I1_at (l : list Person) (x : Person) (f : Z) (t : datetime) :
  pk_unique l -> I1 l -> In x l -> is_waiting x = true -> position x = Some f ->
  I1 (map (pop_row (id x) f t) l).
Proof.
  intros Hpk HI Hin Wx Px.
  destruct (I1_bounds l x HI Hin Wx) as (i & Pi & Hi).
  assert (i = f) by congruence. subst i.
  apply (I1_rewrite l x _ (fun n => if f <? n then n - 1 else n)
           (count_waiting l - 1)); auto.
  - intros q Hq Hne. eapply pop_row_status; eauto.
  - intros q n Hq Hne W Pn. unfold pop_row. rewrite (other_id l x q) by auto.
    rewrite W, Pn.
    destruct (I1_bounds l q HI Hq W) as (i & Pi' & Hi').
    assert (i = n) by congruence. subst i.
    replace (n =? 0) with false by (symmetry; apply Z.eqb_neq; lia).
    simpl. rewrite Z.gtb_ltb. destruct (f <? n); simpl; auto.
  - rewrite Wx, pop_row_first. simpl. lia.
  - intros n Hn Hd. specialize (Hd Wx). rewrite Px in Hd.
    assert (n <> f) by congruence.
    rewrite pop_row_first. simpl. repeat split.
    + zcases; lia.
    + zcases; lia.
    + discriminate.
    + intros m Hm Hd' E. specialize (Hd' Wx). rewrite Px in Hd'.
      assert (m <> f) by congruence. revert E. zcases; lia.
  - rewrite pop_row_first. discriminate.
Qed.

(** *** Enqueue *)

Lemma one_to_S (n : nat) : one_to (S n) = one_to n ++ [Some (Z.of_nat n + 1)].
Proof.
  unfold one_to. rewrite seq_S, map_app. cbn [map]. do 3 f_equal. lia.
Qed.

Lemma id_lt_next_id (l : list Person) (p : Person) : In p l -> id p < next_id l.
Proof.
  intros H.
  assert (id p <= fold_right (fun q m => Z.max (id q) m) 0 l); [|unfold next_id; lia].
  induction l as [|a l IH]; [destruct H|]. cbn [fold_right].
  destruct H as [->|H]; [lia|]. specialize (IH H). lia.
Qed.

Lemma add_person_run (l : list Person) (s : Setting) (name : string)
    (t1 t2 : datetime) :
  I1 l ->
  add_person name t1 t2 (mkStore l s) =
  (Return (new_person l name t1),
   mkStore (l ++ [new_person l name t1]) (enqueue_setting t2 s)).
Proof.
  intros HI.
  assert (Hmax : match rev (order_by by_position (waiting_rows l)) with
                 | w :: _ => py_or (position w)
                               (Z.of_nat (length (order_by by_position (waiting_rows l))))
                 | [] => 0
                 end = Z.of_nat (count_waiting l)).
  { destruct (rev (order_by by_position (waiting_rows l))) as [|w t] eqn:E.
    - apply (f_equal (@rev Person)) in E. rewrite rev_involutive in E. simpl in E.
      apply order_by_nil in E. unfold count_waiting. now rewrite E.
    - destruct (order_by_last_greatest by_position by_position_total
                  by_position_trans _ _ _ E) as [Hw Hmax].
      apply waiting_rows_In in Hw. destruct Hw as [Hw Ww].
      destruct (I1_bounds l w HI Hw Ww) as (i & Pi & Hi).
      destruct (I1_onto l (Z.of_nat (count_waiting l)) HI) as (wN & HN & WN & PN);
        [lia|].
      specialize (Hmax wN). unfold by_position in Hmax. rewrite PN, Pi in Hmax.
      simpl in Hmax.
      assert ((Z.of_nat (count_waiting l) <=? i) = true)
        by (apply Hmax; now apply waiting_rows_In).
      rewrite Pi. simpl.
      replace (i =? 0) with false by (symmetry; apply Z.eqb_neq; lia). lia. }
  unfold add_person, bind, get_waiting, insert_row, get_setting. simpl.
  rewrite Hmax. unfold new_person, enqueue_setting.
  destruct (start_time s), (timer_paused s); simpl; try reflexivity.
  destruct (time_remaining_on_pause s); reflexivity.
Qed.

Lemma add_person_I1 (l : list Person) (name : string) (t : datetime) :
  pk_unique l -> I1 l ->
  pk_unique (l ++ [new_person l name t]) /\ I1 (l ++ [new_person l name t]).
Proof.
  intros Hpk HI. split.
  - unfold pk_unique. rewrite map_app. simpl.
    eapply Permutation_NoDup; [apply Permutation_cons_append|].
    constructor; [|exact Hpk].
    intros Hin. apply in_map_iff in Hin. destruct Hin as (p & E & Hp).
    apply id_lt_next_id in Hp. lia.
  - assert (Hw : waiting_rows (l ++ [new_person l name t]) =
                 waiting_rows l ++ [new_person l name t])
      by (unfold waiting_rows; now rewrite filter_app).
    unfold I1, waiting_positions, count_waiting. rewrite Hw.
    rewrite map_app, length_app, Nat.add_1_r, one_to_S.
    apply Permutation_app; [exact HI|reflexivity].
Qed.

(** *** Bulk reorder with a permutation of the waiting ids *)

Lemma reordered_position_skip (p : Person) (el : list (Z * Z)) (v : option Z) :
  ~ In (id p) (map snd el) -> reordered_position p el v = v.
Proof.
  unfold reordered_position. revert v.
  induction el as [|[idx pid] el IH]; intros v H; simpl; [reflexivity|].
  simpl in H. destruct (Z.eqb_spec (id p) pid) as [E|E].
  - exfalso. apply H. left. now rewrite E.
  - apply IH. tauto.
Qed.

Lemma enumerate_from_snd {A} (o : nat) (l : list A) :
  map snd (enumerate_from o l) = l.
Proof.
  unfold enumerate_from. revert o. induction l as [|a l IH]; intros o; simpl;
    [reflexivity|]. now rewrite IH.
Qed.

Lemma reordered_position_cons (p : Person) (idx pid : Z) (el : list (Z * Z))
    (v : option Z) :
  reordered_position p ((idx, pid) :: el) v =
  reordered_position p el (if id p =? pid then Some (idx + 1) else v).
Proof. reflexivity. Qed.

Lemma enumerate_from_cons {A} (o : nat) (x : A) (l : list A) :
  enumerate_from o (x :: l) = (Z.of_nat o, x) :: enumerate_from (S o) l.
Proof. reflexivity. Qed.

Lemma reordered_position_at (p : Person) (ids : list Z) :
  NoDup ids ->
  forall (k o : nat) (v : option Z),
    nth_error ids k = Some (id p) ->
    reordered_position p (enumerate_from o ids) v = Some (Z.of_nat (o + k) + 1).
Proof.
  induction 1 as [|x ids Hx Hnd IH]; intros k o v Hk.
  - destruct k; discriminate.
  - rewrite enumerate_from_cons, reordered_position_cons.
    destruct k as [|k]; simpl in Hk.
    + injection Hk as ->. rewrite Z.eqb_refl.
      rewrite reordered_position_skip; [f_equal; lia|].
      now rewrite enumerate_from_snd.
    + destruct (Z.eqb_spec (id p) x) as [E|E].
      * exfalso. apply Hx. rewrite <- E. eapply nth_error_In; eauto.
      * rewrite (IH k (S o) v Hk). f_equal. lia.
Qed.

Lemma waiting_ids_unique (l : list Person) :
  pk_unique l -> NoDup (map id (waiting_rows l)).
Proof.
  intros Hpk.
  eapply Permutation_NoDup; [|apply (waiting_ids_NoDup l Hpk)].
  apply Permutation_map, order_by_perm.
Qed.

Lemma reorder_I1 (l : list Person) (ids : list Z) :
  pk_unique l ->
  NoDup ids ->
  (forall x, In x ids <-> In x (map id (waiting_rows l))) ->
  I1 (map (reorder_row ids) l).
Proof.
  intros Hpk Hnd Hmem.
  assert (Hlen : length ids = count_waiting l).
  { unfold count_waiting. rewrite <- (length_map id (waiting_rows l)).
    apply Permutation_length, NoDup_Permutation; auto using waiting_ids_unique. }
  assert (Hc : count_waiting (map (reorder_row ids) l) = count_waiting l).
  { apply count_waiting_map_same. intros p _. reflexivity. }
  assert (Hrow : forall p, In p l -> is_waiting p = true ->
            exists k, nth_error ids k = Some (id p) /\ (k < length ids)%nat /\
                      position (reorder_row ids p) = Some (Z.of_nat k + 1)).
  { intros p Hp W.
    assert (Hin : In (id p) ids).
    { apply Hmem, in_map. now apply waiting_rows_In. }
    apply In_nth_error in Hin. destruct Hin as (k & Hk).
    exists k. split; [exact Hk|]. split.
    - apply nth_error_Some. congruence.
    - unfold reorder_row. simpl.
      change (enumerate ids) with (enumerate_from 0 ids).
      now rewrite (reordered_position_at p ids Hnd k 0%nat). }
  apply I1_map; [now apply pk_unique_NoDup| |].
  - intros p Hp W. change (is_waiting (reorder_row ids p)) with (is_waiting p) in W.
    destruct (Hrow p Hp W) as (k & _ & Hk & E).
    exists (Z.of_nat k + 1). split; [exact E|]. rewrite Hc. lia.
  - intros p q Hp Hq Wp Wq E.
    change (is_waiting (reorder_row ids p)) with (is_waiting p) in Wp.
    change (is_waiting (reorder_row ids q)) with (is_waiting q) in Wq.
    destruct (Hrow p Hp Wp) as (k & Nk & _ & Ek).
    destruct (Hrow q Hq Wq) as (k' & Nk' & _ & Ek').
    rewrite Ek, Ek' in E. injection E as E.
    assert (k = k') by lia. subst k'.
    eapply pk_unique_eq; eauto. congruence.
Qed.

(** *** Arbitrary move *)

Lemma waiting_positions_map_frame (F : Person -> Person) (l : list Person) :
  (forall q, status (F q) = status q /\ position (F q) = position q) ->
  waiting_positions (map F l) = waiting_positions l.
Proof.
  intros HF. unfold waiting_positions, waiting_rows, is_waiting.
  induction l as [|a l IH]; simpl; [reflexivity|].
  destruct (HF a) as [Hs Hp]. rewrite Hs.
  destruct (status a); simpl; rewrite IH; [now rewrite Hp|reflexivity].
Qed.

Lemma I1_map_frame (F : Person -> Person) (l : list Person) :
  (forall q, status (F q) = status q /\ position (F q) = position q) ->
  I1 l -> I1 (map F l).
Proof.
  intros HF HI. unfold I1. rewrite (waiting_positions_map_frame F l HF).
  replace (count_waiting (map F l)) with (count_waiting l); [exact HI|].
  symmetry. apply count_waiting_status. rewrite map_map. apply map_ext.
  intros q. apply HF.
Qed.

Lemma py_and_truthy_gt (w : Person) (o : Z) :
  let c := fun w => truthy (position w) &&
                    match position w with Some n => n >? o | None => false end in
  py_and (Return (truthy (position w))) (py_gt (position w) (Some o)) = Return (c w) /\
  (c w = true -> position w <> None).
Proof.
  simpl. destruct (position w) as [n|]; simpl; [|split; [reflexivity|discriminate]].
  destruct (n =? 0); simpl; split; try reflexivity; discriminate.
Qed.

Lemma shift_row_fields (c : Person -> bool) (d : Z) (q : Person) :
  id (shift_row c d q) = id q /\ name (shift_row c d q) = name q /\
  status (shift_row c d q) = status q /\ added_at (shift_row c d q) = added_at q /\
  passed_at (shift_row c d q) = passed_at q.
Proof.
  unfold shift_row. destruct (is_waiting q && c q); [|tauto].
  destruct (position q); simpl; tauto.
Qed.

Lemma update_row_map (pid : Z) (f G : Person -> Person) (l : list Person) :
  (forall q, id (G q) = id q) ->
  update_row pid f (map G l) = map (fun q => if id q =? pid then f (G q) else G q) l.
Proof.
  intros HG. unfold update_row. rewrite map_map. apply map_ext. intros q.
  now rewrite HG.
Qed.

Lemma update_row_twice (pid : Z) (f g : Person -> Person) (l : list Person) :
  (forall q, id (g q) = id q) ->
  update_row pid f (update_row pid g l) = update_row pid (fun q => f (g q)) l.
Proof.
  intros Hg. unfold update_row. rewrite map_map. apply map_ext. intros q.
  destruct (id q =? pid) eqn:E; [now rewrite Hg, E|now rewrite E].
Qed.

Lemma move_to_passed_I1 (p : Person) (now : datetime) (l : list Person) (s : Setting) :
  pk_unique l -> I1 l -> In p l ->
  exists l',
    move_to_passed p now (mkStore l s) = (Return true, mkStore l' s) /\
    pk_unique l' /\ I1 l'.
Proof.
  intros Hpk HI Hin. unfold move_to_passed.
  destruct (status p) eqn:St.
  - assert (Wp : is_waiting p = true) by now apply is_waiting_status.
    destruct (I1_bounds l p HI Hin Wp) as (o & Po & Ho).
    exists (map (pop_row (id p) o now) l). split; [|split].
    + unfold bind, get_waiting. simpl. rewrite Po.
      rewrite (shift_where_spec _
                 (fun w => truthy (position w) &&
                           match position w with Some n => n >? o | None => false end));
        auto; [|intros w _ _; apply py_and_truthy_gt].
      simpl. unfold ret. f_equal. f_equal.
      rewrite update_row_map by (intros; apply shift_row_fields).
      rewrite !update_row_map
        by (intros q; destruct (id q =? id p); simpl; apply shift_row_fields).
      apply map_ext. intros q. unfold pop_row.
      destruct (shift_row_fields
                  (fun w => truthy (position w) &&
                            match position w with Some n => n >? o | None => false end)
                  (-1) q) as (Hi & Hn & _ & Ha & _).
      destruct (id q =? id p) eqn:E.
      * unfold set_passed_at, set_status, set_position. simpl.
        now rewrite Hi, Hn, Ha.
      * unfold shift_row. destruct (is_waiting q); simpl; [|reflexivity].
        destruct (position q) as [n|]; reflexivity.
    + now apply pop_pk.
    + now apply pop_I1_at.
  - exists (update_row (id p) (set_passed_at (Some now)) l). split; [|split].
    + unfold bind. simpl. rewrite (update_row_noop (id p) (set_status Passed) l);
        [reflexivity|].
      intros q Hq E. assert (q = p) by (eapply pk_unique_eq; eauto). subst q.
      destruct p; simpl in *; now subst.
    + apply pk_unique_map; auto. intros q. destruct (id q =? id p); reflexivity.
    + apply I1_map_frame; auto. intros q. destruct (id q =? id p); split; reflexivity.
Qed.

Lemma py_and_between_up (w : Person) (tp o n : Z) :
  position w = Some n ->
  py_and (py_ge (position w) (Some tp)) (py_lt (position w) (Some o)) =
  Return ((n >=? tp) && (n <? o)).
Proof. intros ->. simpl. destruct (n >=? tp); reflexivity. Qed.

Lemma py_and_between_down (w : Person) (tp o n : Z) :
  position w = Some n ->
  py_and (py_le (position w) (Some tp)) (py_gt (position w) (Some o)) =
  Return ((n <=? tp) && (n >? o)).
Proof. intros ->. simpl. destruct (n <=? tp); reflexivity. Qed.

Lemma shift_row_position (t : Z -> bool) (d : Z) (q : Person) (n : Z) :
  is_waiting q = true -> position q = Some n ->
  position (shift_row (pos_test t) d q) = Some (if t n then n + d else n).
Proof.
  intros W Pn. unfold shift_row, pos_test. rewrite W, Pn. simpl.
  destruct (t n); simpl; auto.
Qed.

(** Repositioning a waiting row: the rows between the old and the new place
    move by one, the row takes the new place. *)
Lemma reposition_I1 (l : list Person) (p : Person) (o tp : Z) (t : Z -> bool) (d : Z) :
  pk_unique l -> I1 l -> In p l -> is_waiting p = true -> position p = Some o ->
  1 <= tp <= Z.of_nat (count_waiting l) -> o <> tp ->
  (if tp <? o then d = 1 /\ (forall n, t n = (n >=? tp) && (n <? o))
   else d = -1 /\ (forall n, t n = (n <=? tp) && (n >? o))) ->
  I1 (update_row (id p) (set_position (Some tp)) (map (shift_row (pos_test t) d) l)).
Proof.
  intros Hpk HI Hin Wp Po Htp Hne Hdir.
  destruct (I1_bounds l p HI Hin Wp) as (o' & Po' & Ho).
  assert (o' = o) by congruence. subst o'.
  rewrite update_row_map by (intros; apply shift_row_fields).
  set (F := fun q => if id q =? id p
                     then set_position (Some tp) (shift_row (pos_test t) d q)
                     else shift_row (pos_test t) d q).
  assert (Fp : position (F p) = Some tp /\ is_waiting (F p) = true).
  { unfold F. rewrite Z.eqb_refl. split; [reflexivity|].
    rewrite is_waiting_set_position. unfold is_waiting.
    destruct (shift_row_fields (pos_test t) d p) as (_ & _ & -> & _).
    exact Wp. }
  destruct Fp as [Pp Wp'].
  apply (I1_rewrite l p F (fun n => if t n then n + d else n) (count_waiting l)); auto.
  - intros q Hq Hnq. unfold F. rewrite (other_id l p q) by auto.
    unfold is_waiting. now destruct (shift_row_fields (pos_test t) d q) as (_ & _ & -> & _).
  - intros q n Hq Hnq W Pn. unfold F. rewrite (other_id l p q) by auto.
    now apply shift_row_position.
  - rewrite Wp, Wp'. reflexivity.
  - intros n Hn Hd. specialize (Hd Wp). rewrite Po in Hd.
    assert (n <> o) by congruence. rewrite Pp.
    destruct (Z.ltb_spec tp o) as [Hlt|Hge]; destruct Hdir as [-> Ht].
    + repeat split.
      * rewrite Ht. zcases; lia.
      * rewrite Ht. zcases; lia.
      * intros _ E. injection E. rewrite Ht. zcases; lia.
      * intros m Hm Hd' E. specialize (Hd' Wp). rewrite Po in Hd'.
        assert (m <> o) by congruence. revert E. rewrite !Ht. zcases; lia.
    + repeat split.
      * rewrite Ht. zcases; lia.
      * rewrite Ht. zcases; lia.
      * intros _ E. injection E. rewrite Ht. zcases; lia.
      * intros m Hm Hd' E. specialize (Hd' Wp). rewrite Po in Hd'.
        assert (m <> o) by congruence. revert E. rewrite !Ht. zcases; lia.
  - intros _. exists tp. split; [exact Pp|lia].
Qed.

Lemma py_and_truthy_ge_test (w : Person) (ip : Z) :
  py_and (Return (truthy (position w))) (py_ge (position w) (Some ip)) =
  Return (pos_test (fun n => negb (n =? 0) && (n >=? ip)) w) /\
  (pos_test (fun n => negb (n =? 0) && (n >=? ip)) w = true -> position w <> None).
Proof.
  unfold pos_test. destruct (position w) as [n|]; simpl;
    [|split; [reflexivity|discriminate]].
  destruct (n =? 0); simpl; split; try reflexivity; discriminate.
Qed.

(** Inserting a passed row at position [ip]: the waiting rows from [ip] on
    make room. *)
Lemma insert_I1 (l : list Person) (p : Person) (ip : Z) :
  pk_unique l -> I1 l -> In p l -> is_waiting p = false ->
  1 <= ip <= Z.of_nat (count_waiting l) + 1 ->
  I1 (update_row (id p) (set_passed_at None)
        (update_row (id p) (set_position (Some ip))
           (update_row (id p) (set_status Waiting)
              (map (shift_row (pos_test (fun n => negb (n =? 0) && (n >=? ip))) 1) l)))).
Proof.
  intros Hpk HI Hin Wp Hip.
  set (t := fun n => negb (n =? 0) && (n >=? ip)).
  rewrite !update_row_twice by reflexivity.
  rewrite update_row_map by (intros; apply shift_row_fields).
  set (F := fun q => if id q =? id p
                     then set_passed_at None (set_position (Some ip)
                            (set_status Waiting (shift_row (pos_test t) 1 q)))
                     else shift_row (pos_test t) 1 q).
  assert (Fp : position (F p) = Some ip /\ is_waiting (F p) = true).
  { unfold F. rewrite Z.eqb_refl. split; reflexivity. }
  destruct Fp as [Pp Wp'].
  apply (I1_rewrite l p F (fun n => if t n then n + 1 else n)
           (S (count_waiting l))); auto.
  - intros q Hq Hnq. unfold F. rewrite (other_id l p q) by auto.
    unfold is_waiting. now destruct (shift_row_fields (pos_test t) 1 q) as (_ & _ & -> & _).
  - intros q n Hq Hnq W Pn. unfold F. rewrite (other_id l p q) by auto.
    now apply shift_row_position.
  - rewrite Wp, Wp'. simpl. lia.
  - intros n Hn _. rewrite Pp. unfold t. repeat split.
    + zcases; lia.
    + zcases; lia.
    + intros _ E. injection E. zcases; lia.
    + intros m Hm _. zcases; lia.
  - intros _. exists ip. split; [exact Pp|lia].
Qed.

Lemma move_to_waiting_I1 (p : Person) (to_position : option Z) (l : list Person)
    (s : Setting) :
  pk_unique l -> I1 l -> In p l ->
  exists b l',
    move_to_waiting p to_position (mkStore l s) = (Return b, mkStore l' s) /\
    pk_unique l' /\ I1 l'.
Proof.
  intros Hpk HI Hin. unfold move_to_waiting.
  assert (Hlen : Z.of_nat (length (order_by by_position (waiting_rows l))) =
                 Z.of_nat (count_waiting l))
    by (now rewrite order_by_length).
  assert (Hpk_shift : forall c d, pk_unique (map (shift_row c d) l))
    by (intros; apply pk_unique_map; auto; intros; apply shift_row_fields).
  assert (Hpk_upd : forall f l0, (forall q, id (f q) = id q) -> pk_unique l0 ->
                                 pk_unique (update_row (id p) f l0)).
  { intros f l0 Hf H0. apply pk_unique_map; auto.
    intros q. destruct (id q =? id p); auto. }
  destruct (status p) eqn:St.
  - assert (Wp : is_waiting p = true) by now apply is_waiting_status.
    destruct (I1_bounds l p HI Hin Wp) as (o & Po & Ho).
    unfold bind, get_waiting. simpl.
    destruct to_position as [tp|]; [|exists false, l; auto].
    rewrite Hlen, Po. simpl.
    set (to_pos := Z.max 1 (Z.min (Z.of_nat (count_waiting l)) tp)).
    assert (Hto : 1 <= to_pos <= Z.of_nat (count_waiting l)) by (unfold to_pos; lia).
    destruct (Z.eqb_spec o to_pos) as [E|E]; [exists false, l; auto|].
    simpl. rewrite Z.gtb_ltb.
    destruct (Z.ltb_spec to_pos o) as [Hlt|Hge].
    + rewrite (shift_where_spec _
                 (pos_test (fun n => (n >=? to_pos) && (n <? o)))); auto.
      * simpl. eexists. eexists. split; [reflexivity|]. split.
        -- apply Hpk_upd; auto.
        -- apply (reposition_I1 l p o to_pos); auto.
           replace (to_pos <? o) with true by (symmetry; apply Z.ltb_lt; lia).
           auto.
      * intros w Hw Ww. destruct (I1_bounds l w HI Hw Ww) as (n & Pn & _).
        split; [|rewrite Pn; discriminate].
        unfold pos_test. rewrite (py_and_between_up w to_pos o n Pn), Pn. reflexivity.
    + rewrite (shift_where_spec _
                 (pos_test (fun n => (n <=? to_pos) && (n >? o)))); auto.
      * simpl. eexists. eexists. split; [reflexivity|]. split.
        -- apply Hpk_upd; auto.
        -- apply (reposition_I1 l p o to_pos); auto.
           replace (to_pos <? o) with false by (symmetry; apply Z.ltb_ge; lia).
           auto.
      * intros w Hw Ww. destruct (I1_bounds l w HI Hw Ww) as (n & Pn & _).
        split; [|rewrite Pn; discriminate].
        unfold pos_test. rewrite (py_and_between_down w to_pos o n Pn), Pn. reflexivity.
  - assert (Wp : is_waiting p = false) by (unfold is_waiting; now rewrite St).
    unfold bind, get_waiting. simpl. rewrite Hlen.
    set (ip := match to_position with
               | Some tp => if tp <? 1 then 1 else Z.min (Z.of_nat (count_waiting l) + 1) tp
               | None => 1
               end).
    assert (Hip : 1 <= ip <= Z.of_nat (count_waiting l) + 1).
    { unfold ip. destruct to_position as [tp|]; [|lia].
      destruct (Z.ltb_spec tp 1); lia. }
    rewrite (shift_where_spec _
               (pos_test (fun n => negb (n =? 0) && (n >=? ip))));
      auto; [|intros w _ _; apply py_and_truthy_ge_test].
    simpl. eexists. eexists. split; [reflexivity|]. split.
    + repeat apply Hpk_upd; auto.
    + now apply insert_I1.
Qed.

Lemma reset_timer_after_move_persons (now : datetime) (st : Store) :
  exists s', reset_timer_after_move now st = (Return tt, mkStore (persons st) s').
Proof.
  destruct st as [l s].
  unfold reset_timer_after_move, bind, get_setting, first_waiting. simpl.
  destruct (timer_paused s); simpl; [eexists; reflexivity|].
  destruct (hd_error _); eexists; reflexivity.
Qed.

(** [move_person_to] on a state that satisfies I1: for a known id and one
    of the two statuses it returns normally and I1 holds again. *)
Lemma move_person_to_I1 (st : Store) (pid : Z) (to_status : string)
    (to_position : option Z) (now : datetime) (p : Person) :
  pk_unique (persons st) -> I1 (persons st) ->
  find (fun q => id q =? pid) (persons st) = Some p ->
  to_status = "waiting"%string \/ to_status = "passed"%string ->
  exists st',
    move_person_to pid to_status to_position now st = (Return tt, st') /\
    pk_unique (persons st') /\ I1 (persons st').
Proof.
  destruct st as [l s]. simpl. intros Hpk HI Hfind Hstatus.
  destruct (find_by_id l pid p Hfind) as [Hin _].
  unfold move_person_to, bind at 1, Person_get. simpl. rewrite Hfind.
  assert (Hbranch : exists b l',
            (if String.eqb to_status "waiting" then move_to_waiting p to_position
             else if String.eqb to_status "passed" then move_to_passed p now
             else raise (ValueError "invalid target status")) (mkStore l s) =
            (Return b, mkStore l' s) /\ pk_unique l' /\ I1 l').
  { destruct Hstatus as [-> | ->]; simpl.
    - now apply move_to_waiting_I1.
    - destruct (move_to_passed_I1 p now l s Hpk HI Hin) as (l' & E & ? & ?).
      exists true, l'. auto. }
  destruct Hbranch as (b & l' & Eb & Hpk' & HI').
  unfold bind at 1. rewrite Eb. destruct b.
  - destruct (reset_timer_after_move_persons now (mkStore l' s)) as (s' & Er).
    unfold bind. rewrite Er. exists (mkStore l' s'). auto.
  - exists (mkStore l' s). auto.
Qed.

Lemma api_pause_persons (now : datetime) (st : Store) :
  persons (snd (api_pause now st)) = persons st.
Proof.
  destruct st as [l s]. unfold api_pause, bind, get_setting. simpl.
  destruct (timer_paused s); simpl; [reflexivity|].
  destruct (start_time s); reflexivity.
Qed.

Lemma api_set_tour_length_persons (data : tour_length_body) (now : datetime) (st : Store) :
  persons (snd (api_set_tour_length data now st)) = persons st.
Proof.
  destruct st as [l s]. unfold api_set_tour_length.
  destruct (requested_number data) as [x|]; [|reflexivity].
  unfold bind, lift, set_setting, get_setting.
  destruct (py_int x) as [v|e]; [|reflexivity]. simpl.
  destruct (timer_paused s); reflexivity.
Qed.

(** Every operation of the engine keeps the primary key and invariant I1,
    the reorder when its sequence is a permutation of the waiting ids. *)
Theorem operations_keep_I1 (op : operation) (st st' : Store) :
  pk_unique (persons st) -> I1 (persons st) ->
  reorder_well_formed op st ->
  run op st = Some (Return tt, st') ->
  pk_unique (persons st') /\ I1 (persons st').
Proof.
  intros Hpk HI Hwf. destruct op; simpl.
  - destruct st as [l s]. simpl in *. rewrite add_person_run by assumption.
    unfold discard. simpl. intros H. injection H as <-. simpl.
    now apply add_person_I1.
  - destruct (process_timer_advances_I1 clock st Hpk HI) as (st1 & E & Hpk1 & HI1).
    rewrite E. intros H. injection H as <-. auto.
  - destruct st as [l s]. simpl in *.
    destruct (count_waiting l) as [|n] eqn:En.
    + unfold advance_next, bind, get_setting, first_waiting. simpl.
      rewrite (count_waiting_zero l En). simpl.
      unfold discard. simpl. intros H. injection H as <-. auto.
    + destruct (first_waiting_I1 l HI) as (first & Hhd & Hin & Wf & Pf); [lia|].
      rewrite (advance_next_run l s now first 1 Hpk Hhd Pf).
      unfold discard. simpl. intros H. injection H as <-. simpl. split.
      * now apply pop_pk.
      * now apply pop_I1.
  - destruct st as [l s]. simpl in *.
    destruct (hd_error (order_by by_passed_at_desc (passed_rows l))) as [last|] eqn:Hhd.
    + rewrite (go_back_run l s now last Hpk Hhd).
      unfold discard. simpl. intros H. injection H as <-. simpl.
      destruct (order_by_first_least by_passed_at_desc by_passed_at_desc_total
                  by_passed_at_desc_trans _ _ Hhd) as [Hl _].
      unfold passed_rows in Hl. apply filter_In in Hl. destruct Hl as [Hl Pl].
      split.
      * apply pk_unique_map; auto. intros. apply back_row_id.
      * now apply go_back_I1.
    + unfold go_back, bind, get_setting, last_passed. simpl. rewrite Hhd.
      unfold discard. simpl. intros H. injection H as <-. auto.
  - destruct Hwf as [Hnd Hmem].
    rewrite reorder_waiting_accepts by (intros x; apply Hmem).
    intros H. injection H as <-. simpl. split.
    + apply pk_unique_map; auto.
    + now apply reorder_I1.
  - intros H0. injection H0 as H.
    destruct (find (fun q => id q =? person_id) (persons st)) as [p|] eqn:Hfind.
    2:{ unfold move_person_to, bind, Person_get in H. rewrite Hfind in H.
        discriminate. }
    destruct (String.eqb_spec to_status "waiting") as [Ew|Ew];
      [|destruct (String.eqb_spec to_status "passed") as [Ep|Ep]].
    + destruct (move_person_to_I1 st person_id to_status to_position now p)
        as (st1 & E & Hpk1 & HI1); auto.
      rewrite E in H. injection H as <-. auto.
    + destruct (move_person_to_I1 st person_id to_status to_position now p)
        as (st1 & E & Hpk1 & HI1); auto.
      rewrite E in H. injection H as <-. auto.
    + apply String.eqb_neq in Ew, Ep.
      unfold move_person_to, bind, Person_get in H. rewrite Hfind, Ew, Ep in H.
      discriminate.
  - pose proof (api_pause_persons now st) as Hp.
    destruct (api_pause now st) as [[r|e] st1]; unfold discard; simpl in *;
      intros H; [injection H as <-|discriminate]. now rewrite Hp.
  - pose proof (api_set_tour_length_persons data now st) as Hp.
    destruct (api_set_tour_length data now st) as [[r|e] st1]; unfold discard;
      simpl in *; intros H; [injection H as <-|discriminate]. now rewrite Hp.
Qed.

(** * Concrete runs

    The states [queue3], [queue4] and [paused2] are defined above. *)

Lemma queue3_pk : pk_unique (persons queue3).
Proof. apply pk_uniqueb_sound. reflexivity. Qed.

Lemma queue3_I1 : I1 (persons queue3).
Proof. apply I1b_sound. reflexivity. Qed.

Lemma queue4_pk : pk_unique (persons queue4).
Proof. apply pk_uniqueb_sound. reflexivity. Qed.

Lemma queue4_I1 : I1 (persons queue4).
Proof. apply I1b_sound. reflexivity. Qed.

(** The scenario of the specification: enqueue A, B, C; advance; undo. *)
Example scenario_enqueue_advance_undo :
  let st0 := init_db in
  let st1 := snd (add_person "A" 100 1000000 st0) in
  let st2 := snd (add_person "B" 200 2000000 st1) in
  let st3 := snd (add_person "C" 300 3000000 st2) in
  st3 = queue3 /\
  map position (persons (snd (advance_next 4000000 st3))) = [None; Some 1; Some 2] /\
  map position (persons (snd (go_back 5000000 (snd (advance_next 4000000 st3))))) =
  [Some 1; Some 2; Some 3].
Proof. repeat split. Qed.

(** C1, failing input. [reorder_waiting [3]] on [queue3]: the sequence is a
    proper subset of the waiting ids, the call returns normally, and two
    waiting rows are left at position 1. *)
Theorem reorder_waiting_subset_breaks_I1 :
  I1 (persons queue3) /\
  exists st',
    run (Reorder [3] 30000000) queue3 = Some (Return tt, st') /\
    map position (persons st') = [Some 1; Some 2; Some 1] /\
    ~ I1 (persons st').
Proof.
  split; [exact queue3_I1|].
  exists (snd (reorder_waiting [3] 30000000 queue3)).
  split; [reflexivity|]. split; [reflexivity|].
  intros H. apply I1_iff in H. destruct H as [Hnd _].
  cbv in Hnd. inversion Hnd as [|? ? Hin _]; subst. apply Hin. right. now left.
Qed.

(** C2, failing inputs. A proper subset of the waiting ids and a sequence
    with a duplicated id are both accepted: no error is raised, positions
    are overwritten and the anchor is reset. *)
Theorem reorder_waiting_accepts_non_permutations :
  reorder_waiting [3] 30000000 queue3 =
    (Return tt,
     mkStore
       [ mkPerson 1 "A" Waiting (Some 1) (Some 100) None;
         mkPerson 2 "B" Waiting (Some 2) (Some 200) None;
         mkPerson 3 "C" Waiting (Some 1) (Some 300) None ]
       (mkSetting 300 false (Some 30000000) None)) /\
  reorder_waiting [1; 2; 2; 3] 30000000 queue3 =
    (Return tt,
     mkStore
       [ mkPerson 1 "A" Waiting (Some 1) (Some 100) None;
         mkPerson 2 "B" Waiting (Some 3) (Some 200) None;
         mkPerson 3 "C" Waiting (Some 4) (Some 300) None ]
       (mkSetting 300 false (Some 30000000) None)).
Proof. split; reflexivity. Qed.

(** The part of C2 that the code does: an id that is not the id of a
    waiting row is rejected before any write. *)
Example reorder_waiting_foreign_id :
  reorder_waiting [3; 2; 7] 30000000 queue3 =
  (Raise (ValueError "Invalid id in reorder"), queue3).
Proof. reflexivity. Qed.

(** C3, at [queue3] with the clock 450 s after the anchor ([k = 1]). *)
Lemma process_timer_advances_catch_up_witness :
  process_timer_advances (fun _ => 451000000) queue3 =
  Some (Return tt,
        mkStore
          [ mkPerson 1 "A" Passed None (Some 100) (Some 301000000);
            mkPerson 2 "B" Waiting (Some 1) (Some 200) None;
            mkPerson 3 "C" Waiting (Some 2) (Some 300) None ]
          (mkSetting 300 false (Some 301000000) None)).
Proof.
  destruct (process_timer_advances_catch_up (fun _ => 451000000) queue3 1 1000000)
    as (st' & E & Hpersons & Hsetting & _).
  - exact queue3_pk.
  - exact queue3_I1.
  - reflexivity.
  - reflexivity.
  - apply le_n.
  - intros _. vm_compute. split; [discriminate|reflexivity].
  - rewrite E. destruct st' as [l' s']. simpl in Hpersons, Hsetting.
    rewrite Hpersons, Hsetting. reflexivity.
Defined.

(** C4, at [queue3] with the clock 650 s after the anchor. *)
Lemma process_timer_advances_idempotent_witness :
  exists st',
    process_timer_advances (fun _ => 651000000) queue3 = Some (Return tt, st') /\
    process_timer_advances (fun _ => 651000000) st' = Some (Return tt, st').
Proof.
  destruct (process_timer_advances_idempotent 651000000 queue3)
    as (out & st' & E & Hidem & Hret).
  exists st'. rewrite (Hret queue3_pk queue3_I1) in *. auto.
Defined.

(** C5, counterexamples to I4 as stated: from states that satisfy I4,
    [advance_next] while paused leaves an anchor on a paused timer, and
    setting the interval length on the empty running queue leaves an anchor
    with nobody waiting. *)
Lemma I4_broken_by_advance_and_set_tour_length :
  (I4 paused2 /\
   exists st', run (AdvanceNext 5000000) paused2 = Some (Return tt, st') /\ ~ I4 st') /\
  (I4 init_db /\
   exists st', run (SetTourLength (mkBody (Some (JInt 2)) None) 7000000) init_db =
               Some (Return tt, st') /\ ~ I4 st').
Proof.
  split; split.
  - split; simpl; intros H; [split; [reflexivity|discriminate]|discriminate].
  - exists (snd (advance_next 5000000 paused2)).
    split; [reflexivity|]. intros [Hp _]. simpl in Hp.
    destruct (Hp eq_refl) as [H _]. discriminate.
  - split; simpl; intros H; [discriminate|]. split; [|reflexivity].
    split; intros H'; contradiction.
  - exists (snd (api_set_tour_length (mkBody (Some (JInt 2)) None) 7000000 init_db)).
    split; [reflexivity|]. intros [_ Hr]. simpl in Hr.
    destruct (Hr eq_refl) as [[H _] _]. apply H; [discriminate|reflexivity].
Qed.

Lemma paused2_consistent : timer_consistent paused2.
Proof. split; simpl; intros H; [discriminate|discriminate]. Defined.

(** C5, at [paused2] with a manual advance. *)
Lemma every_operation_keeps_timer_consistent_witness :
  timer_consistent
    (mkStore
       [ mkPerson 1 "A" Passed None (Some 100) (Some 5000000);
         mkPerson 2 "B" Waiting (Some 1) (Some 200) None ]
       (mkSetting 300 true (Some 5000000) (Some 300))).
Proof.
  apply (every_operation_keeps_timer_consistent (AdvanceNext 5000000) paused2).
  - exact paused2_consistent.
  - reflexivity.
Defined.

(** C6, at the settings of [queue3], 100.5 s after the anchor: 199 s. *)
Lemma compute_time_remaining_seconds_spec_witness :
  compute_time_remaining_seconds 101500000 (setting queue3) = Some 199.
Proof.
  destruct (compute_time_remaining_seconds_spec 101500000 (setting queue3))
    as (_ & _ & H).
  rewrite (H 1000000 eq_refl eq_refl). reflexivity.
Defined.

(** The pause at [queue3] leaves the anchor in the settings row; it is not
    read while the timer is paused and the resume writes a new one. *)
Lemma api_pause_keeps_anchor :
  api_pause 101500000 queue3 =
    (Return (PausedWith (Some 199)),
     mkStore (persons queue3) (mkSetting 300 true (Some 1000000) (Some 199))) /\
  start_time (setting (snd (api_pause 101500000 queue3))) <> None.
Proof. split; [reflexivity|discriminate]. Qed.

(** C7, at [queue3]: pause 100.5 s after the anchor, resume an hour later. *)
Lemma pause_resume_round_trip_witness :
  compute_time_remaining_seconds 3701500000
    (setting (snd (api_pause 3701500000 (snd (api_pause 101500000 queue3))))) =
  compute_time_remaining_seconds 101500000 (setting queue3).
Proof.
  destruct (pause_resume_round_trip 101500000 3701500000 queue3 1000000
              eq_refl eq_refl)
    as (rem & st1 & st2 & _ & E1 & _ & _ & _ & E2 & _ & _ & _ & _ & H).
  rewrite E1. simpl. rewrite E2. simpl. exact H.
Defined.



(** C9, numbers with a fraction at [queue3]: half a second is stored as 0
    and half a minute as 30; NaN and an infinity raise in [int] and nothing
    is written. *)
Lemma api_set_tour_length_fractions :
  valid_binary 53 1024 one_half = true /\
  api_set_tour_length (mkBody None (Some (JFloat one_half))) 7000000 queue3 =
    (Return (TourLengthSet 0),
     mkStore (persons queue3) (mkSetting 0 false (Some 7000000) None)) /\
  api_set_tour_length (mkBody (Some (JFloat one_half)) None) 7000000 queue3 =
    (Return (TourLengthSet 30),
     mkStore (persons queue3) (mkSetting 30 false (Some 7000000) None)) /\
  api_set_tour_length (mkBody None (Some (JFloat S754_nan))) 7000000 queue3 =
    (Raise (ValueError "cannot convert float NaN to integer"), queue3) /\
  api_set_tour_length (mkBody None (Some (JFloat infinity))) 7000000 queue3 =
    (Raise (OverflowError "cannot convert float infinity to integer"), queue3).
Proof. repeat split. Qed.

(** C10, at [queue4]: the passed row 4 is moved to passed at 9 s. *)
Lemma move_passed_to_passed_resets_anchor_witness :
  move_person_to 4 "passed" None 9000000 queue4 =
  (Return tt,
   mkStore
     [ mkPerson 1 "A" Waiting (Some 1) (Some 100) None;
       mkPerson 2 "B" Waiting (Some 2) (Some 200) None;
       mkPerson 3 "C" Waiting (Some 3) (Some 300) None;
       mkPerson 4 "D" Passed None (Some 50) (Some 9000000) ]
     (mkSetting 300 false (Some 9000000) None)).
Proof.
  destruct (move_passed_to_passed_resets_anchor queue4 4
              (mkPerson 4 "D" Passed None (Some 50) (Some 500000)) None 9000000)
    as (H & _ & _).
  - exact queue4_pk.
  - reflexivity.
  - reflexivity.
  - reflexivity.
  - discriminate.
  - exact H.
Defined.

(** The operations keep I1 at [queue4] with a move of row 3 to the head. *)
Lemma operations_keep_I1_witness :
  I1 (persons (snd (move_person_to 3 "waiting" (Some 1) 9000000 queue4))).
Proof.
  apply (operations_keep_I1 (Move 3 "waiting" (Some 1) 9000000) queue4).
  - exact queue4_pk.
  - exact queue4_I1.
  - exact I.
  - reflexivity.
Defined.

(** * Further properties of the engine *)

(** ** The listing of the queue *)

Lemma opt_le_antisym (a b : option Z) :
  opt_le a b = true -> opt_le b a = true -> a = b.
Proof.
  destruct a, b; simpl; try discriminate; auto.
  intros H1 H2. f_equal. lia.
Qed.

Lemma sorted_perm_eq {A} (le : A -> A -> bool) (l1 l2 : list A) :
  (forall x y, le x y = true -> le y x = true -> x = y) ->
  StronglySorted (holds le) l1 -> StronglySorted (holds le) l2 ->
  Permutation l1 l2 -> l1 = l2.
Proof.
  intros Hanti H1. revert l2.
  induction H1 as [|x l1 Hs1 IH Hx]; intros l2 H2 Hperm.
  - apply Permutation_nil in Hperm. now subst.
  - destruct H2 as [|y l2 Hs2 Hy].
    + apply Permutation_sym, Permutation_nil in Hperm. discriminate.
    + assert (x = y).
      { rewrite Forall_forall in Hx, Hy.
        assert (Hxin : In x (y :: l2))
          by (eapply Permutation_in; [exact Hperm|now left]).
        assert (Hyin : In y (x :: l1))
          by (eapply Permutation_in; [symmetry; exact Hperm|now left]).
        destruct Hxin as [E|Hxin]; [now subst|].
        destruct Hyin as [E|Hyin]; [now subst|].
        apply Hanti; [apply Hx, Hyin|apply Hy, Hxin]. }
      subst y. f_equal. apply IH; auto.
      eapply Permutation_cons_inv; eauto.
Qed.

Lemma StronglySorted_map {A B} (f : A -> B) (leA : A -> A -> Prop)
    (leB : B -> B -> Prop) (l : list A) :
  (forall x y, leA x y -> leB (f x) (f y)) ->
  StronglySorted leA l -> StronglySorted leB (map f l).
Proof.
  intros Hf. induction 1 as [|x l Hs IH Hx]; simpl; constructor; auto.
  rewrite Forall_forall in *. intros b Hb. apply in_map_iff in Hb.
  destruct Hb as (y & <- & Hy). auto.
Qed.

Lemma one_to_sorted (n : nat) : StronglySorted (holds opt_le) (one_to n).
Proof.
  induction n as [|n IH]; [constructor|].
  rewrite one_to_S.
  assert (H : forall l x, StronglySorted (holds opt_le) l ->
            (forall y, In y l -> opt_le y x = true) ->
            StronglySorted (holds opt_le) (l ++ [x])).
  { induction l as [|a l IHl]; intros x Hs Hle; simpl.
    - repeat constructor.
    - inversion Hs as [|? ? Hs' Ha]; subst. constructor.
      + apply IHl; auto. intros y Hy. apply Hle. now right.
      + rewrite Forall_forall in *. intros y Hy. apply in_app_iff in Hy.
        destruct Hy as [Hy|[<-|[]]]; [now apply Ha|].
        apply Hle. now left. }
  apply H; [exact IH|].
  intros y Hy. apply in_one_to in Hy. destruct Hy as (i & -> & Hi). simpl. lia.
Qed.

Lemma nth_error_one_to (n k : nat) :
  (k < n)%nat -> nth_error (one_to n) k = Some (Some (Z.of_nat k + 1)).
Proof.
  intros H. unfold one_to. rewrite nth_error_map.
  rewrite nth_error_nth' with (d := 0%nat) by (now rewrite length_seq).
  rewrite seq_nth by assumption. simpl. do 2 f_equal. lia.
Qed.

(** Under I1 [get_waiting] lists the rows at positions 1, 2, ..., N, in
    this order. *)
Lemma get_waiting_positions (l : list Person) :
  I1 l ->
  map position (order_by by_position (waiting_rows l)) = one_to (count_waiting l).
Proof.
  intros HI. apply (sorted_perm_eq opt_le).
  - apply opt_le_antisym.
  - apply (StronglySorted_map position (holds by_position));
      [intros x y H; exact H|].
    apply order_by_sorted; [apply by_position_total|apply by_position_trans].
  - apply one_to_sorted.
  - etransitivity; [|exact HI]. apply Permutation_map, order_by_perm.
Qed.

Lemma queue_length (l : list Person) : length (queue l) = count_waiting l.
Proof. unfold queue. now rewrite length_map, order_by_length. Qed.

(** The id at place [k] of the queue is the id of the waiting row at
    position [k + 1]. *)
Lemma queue_nth (l : list Person) (k : nat) (pid : Z) :
  I1 l ->
  (nth_error (queue l) k = Some pid <->
   exists w, In w l /\ is_waiting w = true /\ id w = pid /\
             position w = Some (Z.of_nat k + 1)).
Proof.
  intros HI. pose proof (get_waiting_positions l HI) as Hpos.
  set (ws := order_by by_position (waiting_rows l)) in *.
  assert (Hrow : forall j w, nth_error ws j = Some w ->
            In w l /\ is_waiting w = true /\ position w = Some (Z.of_nat j + 1)).
  { intros j w Hj.
    assert (Hin : In w ws) by (eapply nth_error_In; eauto).
    apply order_by_In, waiting_rows_In in Hin. destruct Hin as [Hin Hw].
    repeat split; auto.
    assert (Hlt : (j < count_waiting l)%nat).
    { unfold count_waiting.
      rewrite <- (order_by_length by_position (waiting_rows l)). fold ws.
      apply nth_error_Some. congruence. }
    pose proof (nth_error_one_to _ _ Hlt) as E. rewrite <- Hpos in E.
    rewrite nth_error_map, Hj in E. simpl in E. congruence. }
  unfold queue. fold ws. rewrite nth_error_map. split.
  - destruct (nth_error ws k) as [w|] eqn:E; simpl; [|discriminate].
    intros H. injection H as <-. exists w.
    destruct (Hrow k w E) as (? & ? & ?). auto.
  - intros (w & Hin & Hw & <- & Pw).
    assert (Hws : In w ws) by (apply order_by_In; now apply waiting_rows_In).
    apply In_nth_error in Hws. destruct Hws as (j & Hj).
    destruct (Hrow j w Hj) as (_ & _ & Pj).
    assert (j = k) by (rewrite Pw in Pj; injection Pj; lia). subst j.
    now rewrite Hj.
Qed.

Lemma list_eq_nth {A} (X Y : list A) :
  length X = length Y ->
  (forall k x, nth_error X k = Some x -> nth_error Y k = Some x) ->
  X = Y.
Proof.
  revert Y. induction X as [|a X IH]; intros [|b Y] Hlen H; simpl in *;
    try discriminate; [reflexivity|].
  f_equal.
  - specialize (H 0%nat a eq_refl). simpl in H. congruence.
  - apply IH; [lia|]. intros k x Hk. apply (H (S k) x Hk).
Qed.

(** A list is the queue of a table that satisfies I1 as soon as it has its
    length and every place [k] holds the id of a waiting row at position
    [k + 1]. *)
Lemma queue_intro (l : list Person) (X : list Z) :
  I1 l -> length X = count_waiting l ->
  (forall k pid, nth_error X k = Some pid ->
     exists w, In w l /\ is_waiting w = true /\ id w = pid /\
               position w = Some (Z.of_nat k + 1)) ->
  queue l = X.
Proof.
  intros HI Hlen H. symmetry. apply list_eq_nth.
  - now rewrite queue_length.
  - intros k pid Hk. apply queue_nth; auto.
Qed.

(** ** What each mutation does to the queue *)

Lemma queue_head (l : list Person) (first : Person) :
  hd_error (order_by by_position (waiting_rows l)) = Some first ->
  exists rest, queue l = id first :: rest.
Proof.
  unfold queue. destruct (order_by by_position (waiting_rows l)) as [|w t];
    [discriminate|].
  intros H. injection H as ->. simpl. eauto.
Qed.

(** Removing the row at position 1 removes the first id of the queue. *)
Lemma pop_queue (l : list Person) (first : Person) (t : datetime) :
  pk_unique l -> I1 l -> In first l -> is_waiting first = true ->
  position first = Some 1 ->
  queue (map (pop_row (id first) 1 t) l) = tl (queue l).
Proof.
  intros Hpk HI Hin Wf Pf.
  pose proof (pop_count l first 1 t Hpk Hin Wf) as Hc.
  apply queue_intro.
  - now apply pop_I1.
  - destruct (queue l) as [|h q] eqn:E.
    + pose proof (queue_length l) as Hl. rewrite E in Hl. simpl in Hl. lia.
    + pose proof (queue_length l) as Hl. rewrite E in Hl. simpl in *. lia.
  - intros k pid Hk.
    assert (Hk' : nth_error (queue l) (S k) = Some pid)
      by (destruct (queue l); [destruct k; discriminate|exact Hk]).
    apply queue_nth in Hk'; auto. destruct Hk' as (w & Hw & Ww & <- & Pw).
    assert (Hne : w <> first).
    { intros ->. rewrite Pf in Pw. injection Pw. lia. }
    destruct (pop_row_other l first w t) as (n & Pn & _ & E); auto.
    exists (pop_row (id first) 1 t w). split; [now apply in_map|].
    rewrite E. repeat split.
    + rewrite is_waiting_set_position. exact Ww.
    + simpl. f_equal. rewrite Pw in Pn. injection Pn. lia.
Qed.


(** X2. [advance_next] on a table that satisfies I1 with a non-empty queue: the
    head is returned, passed at [now] and without position; the queue loses
    its first id; the anchor is [now] if the queue is not empty afterwards
    and cleared otherwise, also while paused, when the snapshot is reset to
    the full interval. *)
Theorem advance_next_pops_the_head (l : list Person) (s : Setting) (now : datetime)
    (h : Z) (rest : list Z) :
  pk_unique l -> I1 l -> queue l = h :: rest ->
  exists r l' s',
    advance_next now (mkStore l s) = (Return (Some r), mkStore l' s') /\
    id r = h /\ status r = Passed /\ passed_at r = Some now /\ position r = None /\
    In r l' /\
    queue l' = rest /\ I1 l' /\
    start_time s' = (match rest with [] => None | _ :: _ => Some now end) /\
    time_remaining_on_pause s' =
      (if timer_paused s then Some (tour_length_seconds s)
       else time_remaining_on_pause s) /\
    timer_paused s' = timer_paused s /\
    tour_length_seconds s' = tour_length_seconds s.
Proof.
  intros Hpk HI Hq.
  assert (HN : (1 <= count_waiting l)%nat).
  { rewrite <- queue_length, Hq. simpl. lia. }
  destruct (first_waiting_I1 l HI HN) as (first & Hhd & Hin & Wf & Pf).
  destruct (queue_head l first Hhd) as (rest' & Hq').
  assert (h = id first /\ rest' = rest) by (split; congruence).
  destruct H as [-> ->].
  pose proof (pop_queue l first now Hpk HI Hin Wf Pf) as Hpop.
  rewrite Hq in Hpop. simpl in Hpop.
  set (l' := map (pop_row (id first) 1 now) l) in *.
  exists (pop_row (id first) 1 now first), l', (advance_setting l' now s).
  split; [apply (advance_next_run l s now first 1 Hpk Hhd Pf)|].
  rewrite pop_row_first. do 4 (split; [reflexivity|]).
  split. { rewrite <- (pop_row_first first 1 now). now apply in_map. }
  split; [exact Hpop|]. split; [now apply pop_I1|].
  assert (Ha : anchor_if_waiting l' now =
               match rest with [] => None | _ :: _ => Some now end).
  { unfold anchor_if_waiting.
    pose proof (queue_length l') as Hl. rewrite Hpop in Hl. unfold count_waiting in Hl.
    destruct rest, (waiting_rows l'); simpl in Hl; try discriminate; reflexivity. }
  unfold advance_setting. rewrite Ha.
  destruct (timer_paused s) eqn:Pa; simpl; rewrite ?Pa; repeat split; reflexivity.
Qed.

(** X3. [advance_next] with nobody waiting returns [None] and writes nothing,
    and this is the only case in which it returns [None] under I1. *)
Theorem advance_next_none_iff_empty (l : list Person) (s : Setting) (now : datetime) :
  pk_unique l -> I1 l ->
  (waiting_rows l = [] ->
   advance_next now (mkStore l s) = (Return None, mkStore l s)) /\
  (fst (advance_next now (mkStore l s)) = Return None -> waiting_rows l = []).
Proof.
  intros Hpk HI. split.
  - intros E. unfold advance_next, bind, get_setting, first_waiting. simpl.
    rewrite E. reflexivity.
  - intros H. destruct (waiting_rows l) as [|w ws] eqn:E; [reflexivity|exfalso].
    assert (HN : (1 <= count_waiting l)%nat)
      by (unfold count_waiting; rewrite E; simpl; lia).
    destruct (first_waiting_I1 l HI HN) as (first & Hhd & Hin & Wf & Pf).
    rewrite (advance_next_run l s now first 1 Hpk Hhd Pf) in H. discriminate.
Qed.

(** X4. [go_back] on a table that satisfies I1 with at least one passed row: a
    most recently passed row returns to the front of the queue, waiting at
    position 1 and without [passed_at]; every other waiting id keeps its
    place behind it; the timer is restarted. *)
Theorem go_back_returns_to_the_front (l : list Person) (s : Setting) (now : datetime) :
  pk_unique l -> I1 l -> passed_rows l <> [] ->
  exists last r l',
    In last l /\ is_passed last = true /\
    (forall q, In q l -> is_passed q = true ->
       opt_le (passed_at q) (passed_at last) = true) /\
    go_back now (mkStore l s) = (Return (Some r), mkStore l' (restarted now s)) /\
    id r = id last /\ name r = name last /\ status r = Waiting /\
    position r = Some 1 /\ passed_at r = None /\ In r l' /\
    queue l' = id last :: queue l /\ I1 l'.
Proof.
  intros Hpk HI Hne.
  destruct (hd_error (order_by by_passed_at_desc (passed_rows l))) as [last|] eqn:Hhd;
    [|apply order_by_hd_none in Hhd; contradiction].
  destruct (order_by_first_least by_passed_at_desc by_passed_at_desc_total
              by_passed_at_desc_trans (passed_rows l) last Hhd) as [Hin Hleast].
  apply filter_In in Hin. destruct Hin as [Hin Pl].
  assert (Wl : is_waiting last = false)
    by (rewrite is_passed_waiting in Pl; now destruct (is_waiting last)).
  pose proof (go_back_I1 l last Hpk HI Hin Pl) as HI'.
  assert (Er : back_row (id last) last =
               mkPerson (id last) (name last) Waiting (Some 1) (added_at last) None).
  { unfold back_row. now rewrite Z.eqb_refl. }
  exists last, (back_row (id last) last), (map (back_row (id last)) l).
  split; [exact Hin|]. split; [exact Pl|].
  split. { intros q Hq Pq. apply (Hleast q). apply filter_In. now split. }
  split; [now apply go_back_run|].
  do 5 (split; [rewrite Er; reflexivity|]).
  split; [now apply in_map|].
  split; [|exact HI'].
  assert (Hc : count_waiting (map (back_row (id last)) l) = S (count_waiting l)).
  { assert (Hoth : forall p, In p l -> p <> last ->
                     is_waiting (back_row (id last) p) = is_waiting p).
    { intros p Hp Hpl. unfold back_row.
      destruct (id p =? id last) eqn:E.
      - apply Z.eqb_eq in E. exfalso. apply Hpl. now apply (pk_unique_eq l).
      - destruct (is_waiting p) eqn:Wp; [|exact Wp].
        unfold bump. now rewrite is_waiting_set_position. }
    pose proof (count_waiting_map_one (back_row (id last)) l last
                  (pk_unique_NoDup l Hpk) Hin Hoth) as H.
    rewrite Er, Wl in H. simpl in H. lia. }
  apply queue_intro; [exact HI'|simpl; now rewrite queue_length, Hc|].
  intros k pid Hk. destruct k as [|j]; simpl in Hk.
  - injection Hk as <-. exists (back_row (id last) last).
    split; [now apply in_map|]. rewrite Er. repeat split.
  - apply queue_nth in Hk; auto. destruct Hk as (w & Hw & Ww & <- & Pw).
    exists (back_row (id last) w). split; [now apply in_map|].
    assert (E : (id w =? id last) = false).
    { apply Z.eqb_neq. intros E. apply (pk_unique_eq l) in E; auto.
      subst w. congruence. }
    unfold back_row. rewrite E, Ww. unfold bump.
    rewrite is_waiting_set_position, Pw. repeat split; auto.
    rewrite Nat2Z.inj_succ. unfold py_or, truthy. cbn [position set_position].
    destruct (Z.of_nat j + 1 =? 0) eqn:Z0; [apply Z.eqb_eq in Z0; lia|].
    apply f_equal. lia.
Qed.

(** X5. [go_back] with no passed row returns [None] and writes nothing; with one
    it never returns [None]. *)
Theorem go_back_none_iff_no_passed (l : list Person) (s : Setting) (now : datetime) :
  pk_unique l ->
  (passed_rows l = [] -> go_back now (mkStore l s) = (Return None, mkStore l s)) /\
  (fst (go_back now (mkStore l s)) = Return None -> passed_rows l = []).
Proof.
  intros Hpk. split.
  - intros E. unfold go_back, bind, get_setting, last_passed. simpl.
    rewrite E. reflexivity.
  - intros H.
    destruct (hd_error (order_by by_passed_at_desc (passed_rows l))) as [last|] eqn:Hhd;
      [|now apply order_by_hd_none in Hhd].
    rewrite (go_back_run l s now last Hpk Hhd) in H. discriminate.
Qed.

Lemma filter_map_fixed {A} (f : A -> bool) (F : A -> A) (l : list A) :
  (forall p, In p l -> f (F p) = f p) ->
  (forall p, In p l -> f p = true -> F p = p) ->
  filter f (map F l) = filter f l.
Proof.
  induction l as [|p l IH]; intros H1 H2; [reflexivity|].
  simpl. rewrite (H1 p) by now left.
  rewrite IH;
    [|intros q Hq; apply H1; now right|intros q Hq; apply H2; now right].
  destruct (f p) eqn:E; [|reflexivity].
  rewrite (H2 p); [reflexivity|now left|exact E].
Qed.

(** X6. [reorder_waiting] with a permutation of the waiting ids installs exactly
    that order, whatever the positions were before: the queue read back is
    the sequence given, I1 holds afterwards also when it did not before, only
    positions of waiting rows are written, and the timer is restarted. *)
Theorem reorder_waiting_installs_the_order (l : list Person) (s : Setting)
    (ids : list Z) (now : datetime) :
  pk_unique l -> is_permutation_of_waiting ids l ->
  exists l',
    reorder_waiting ids now (mkStore l s) = (Return tt, mkStore l' (restarted now s)) /\
    queue l' = ids /\ I1 l' /\
    map id l' = map id l /\ map status l' = map status l /\
    map name l' = map name l /\ map passed_at l' = map passed_at l /\
    passed_rows l' = passed_rows l.
Proof.
  intros Hpk [Hnd Hiff].
  pose proof (reorder_I1 l ids Hpk Hnd Hiff) as HI'.
  exists (map (reorder_row ids) l).
  split.
  { apply (reorder_waiting_accepts ids now (mkStore l s)). intros x. apply Hiff. }
  assert (Hst : forall p, is_waiting (reorder_row ids p) = is_waiting p)
    by (intros p; unfold reorder_row; apply is_waiting_set_position).
  assert (Hlen : length ids = count_waiting l).
  { unfold count_waiting. rewrite <- (length_map id).
    apply Permutation_length, NoDup_Permutation; auto.
    now apply waiting_ids_unique. }
  split.
  { apply queue_intro; [exact HI'| |].
    - rewrite count_waiting_map_same; auto.
    - intros k pid Hk.
      assert (Hin : In pid (map id (waiting_rows l)))
        by (apply Hiff; eapply nth_error_In; eauto).
      apply in_map_iff in Hin. destruct Hin as (w & <- & Hw).
      apply waiting_rows_In in Hw. destruct Hw as [Hw Ww].
      exists (reorder_row ids w). split; [now apply in_map|].
      rewrite Hst. repeat split; auto.
      unfold reorder_row. cbn [position set_position].
      change (enumerate ids) with (enumerate_from 0 ids).
      rewrite (reordered_position_at w ids Hnd k 0 (position w) Hk).
      reflexivity. }
  split; [exact HI'|].
  rewrite !map_map.
  do 4 (split; [apply map_ext; intros p; reflexivity|]).
  apply filter_map_fixed.
  - intros p _. now rewrite !is_passed_waiting, Hst.
  - intros p Hp Pp. unfold reorder_row.
    rewrite reordered_position_skip; [now destruct p|].
    unfold enumerate. change (combine (map Z.of_nat (seq 0 (length ids))) ids)
      with (enumerate_from 0 ids).
    rewrite enumerate_from_snd. intros Hin. apply Hiff in Hin.
    apply in_map_iff in Hin. destruct Hin as (w & E & Hw).
    apply waiting_rows_In in Hw. destruct Hw as [Hw Ww].
    apply (pk_unique_eq l) in E; auto. subst w.
    rewrite is_passed_waiting, Ww in Pp. discriminate.
Qed.

(** ** Catch-up under an arbitrary clock *)

Lemma pop_row_passed (l : list Person) (first p : Person) (f : Z) (t : datetime) :
  pk_unique l -> In first l -> is_waiting first = true ->
  In p l -> is_passed p = true -> pop_row (id first) f t p = p.
Proof.
  intros Hpk Hf Wf Hp Pp. unfold pop_row.
  rewrite is_passed_waiting in Pp.
  destruct (id p =? id first) eqn:E.
  - apply Z.eqb_eq in E. apply (pk_unique_eq l) in E; auto. subst p.
    rewrite Wf in Pp. discriminate.
  - destruct (is_waiting p); [discriminate|reflexivity].
Qed.

Lemma process_loop_prefix (clock : nat -> datetime) (L : Z) :
  forall (fuel i : nat) (l : list Person) (s : Setting),
    pk_unique l -> I1 l -> (count_waiting l < fuel)%nat ->
    exists l' s' m,
      process_loop fuel clock i L (mkStore l s) = Some (Return tt, mkStore l' s') /\
      pk_unique l' /\ I1 l' /\ (m <= count_waiting l)%nat /\
      queue l' = skipn m (queue l) /\
      (forall p, In p l -> is_passed p = true -> In p l') /\
      (start_time s = None -> m = 0%nat) /\
      (forall a, start_time s = Some a ->
         (start_time s' = None \/
          start_time s' = Some (a + timedelta (Z.of_nat m * L))) /\
         forall k pid, (k < m)%nat -> nth_error (queue l) k = Some pid ->
           exists r, In r l' /\ id r = pid /\ status r = Passed /\
                     position r = None /\
                     passed_at r = Some (a + timedelta ((Z.of_nat k + 1) * L))).
Proof.
  induction fuel as [|fuel IH]; intros i l s Hpk HI Hf; [lia|].
  rewrite process_loop_S.
  destruct (start_time s) as [a|] eqn:Ha.
  2:{ rewrite process_iteration_idle by assumption.
      exists l, s, 0%nat. do 6 (split; [auto; lia|]).
      split; [reflexivity|discriminate]. }
  destruct (Z.lt_ge_cases (clock i - a) (timedelta L)) as [Hlt|Hge].
  { rewrite (process_iteration_early _ _ _ _ a) by assumption.
    exists l, s, 0%nat. do 6 (split; [auto; lia|]).
    split; [discriminate|].
    intros a' E. injection E as <-. split; [|intros; lia].
    right. rewrite Ha. unfold timedelta. f_equal. simpl. lia. }
  destruct (count_waiting l) as [|n] eqn:En.
  { rewrite (process_iteration_empty _ _ _ _ a); auto using count_waiting_zero.
    exists l, (set_time_remaining_on_pause None (set_start_time None s)), 0%nat.
    do 6 (split; [auto; lia|]).
    split; [discriminate|].
    intros a' E. split; [now left|intros; lia]. }
  destruct (first_waiting_I1 l HI) as (first & Hhd & Hin & Wf & Pf); [lia|].
  rewrite (process_iteration_pop _ _ _ _ a first 1); auto.
  pose proof (pop_count l first 1 (a + timedelta L) Hpk Hin Wf) as Hc.
  pose proof (pop_queue l first (a + timedelta L) Hpk HI Hin Wf Pf) as Hq.
  destruct (queue_head l first Hhd) as (rest & Hql).
  set (l1 := map (pop_row (id first) 1 (a + timedelta L)) l) in *.
  set (s1 := set_start_time (anchor_if_waiting l1 (a + timedelta L)) s).
  destruct (IH (S i) l1 s1) as
    (l' & s' & m & E & Hpk' & HI' & Hm & Hq' & Hpass & Hnone & Hsome).
  { now apply pop_pk. } { now apply pop_I1. } { lia. }
  assert (Hfirst : In (pop_row (id first) 1 (a + timedelta L) first) l').
  { apply Hpass; [now apply in_map|]. now rewrite pop_row_first. }
  exists l', s', (S m). split; [exact E|].
  split; [exact Hpk'|]. split; [exact HI'|]. split; [lia|].
  split. { rewrite Hq', Hq, Hql. reflexivity. }
  split.
  { intros p Hp Pp. apply Hpass.
    - pose proof (pop_row_passed l first p 1 (a + timedelta L) Hpk Hin Wf Hp Pp) as Ep.
      unfold l1. rewrite <- Ep. now apply in_map.
    - exact Pp. }
  split; [discriminate|].
  intros a' Ea. injection Ea as <-.
  unfold anchor_if_waiting in s1.
  destruct (waiting_rows l1) as [|w1 ws1] eqn:Ew.
  - assert (m = 0%nat).
    { unfold count_waiting in Hm. rewrite Ew in Hm. simpl in Hm. lia. }
    subst m. specialize (Hnone eq_refl).
    split.
    + left. 
      assert (Hs : process_loop fuel clock (S i) L (mkStore l1 s1) =
                   Some (Return tt, mkStore l1 s1)).
      { destruct fuel; [lia|]. rewrite process_loop_S.
        now rewrite process_iteration_idle. }
      rewrite Hs in E. injection E as <- <-. reflexivity.
    + intros k pid Hk Hn. assert (k = 0%nat) by lia. subst k.
      rewrite Hql in Hn. simpl in Hn. injection Hn as <-.
      exists (pop_row (id first) 1 (a + timedelta L) first).
      split; [exact Hfirst|]. rewrite pop_row_first. repeat split.
      cbn [passed_at]. apply f_equal. change (Z.of_nat 0) with 0.
      unfold timedelta. lia.
  - destruct (Hsome (a + timedelta L) eq_refl) as [Hst Hrows].
    split.
    + destruct Hst as [Hst|Hst]; [now left|right].
      rewrite Hst. f_equal. rewrite Nat2Z.inj_succ. unfold timedelta. lia.
    + intros k pid Hk Hn. destruct k as [|j].
      * rewrite Hql in Hn. simpl in Hn. injection Hn as <-.
        exists (pop_row (id first) 1 (a + timedelta L) first).
        split; [exact Hfirst|]. rewrite pop_row_first. repeat split.
        cbn [passed_at]. apply f_equal. change (Z.of_nat 0) with 0.
      unfold timedelta. lia.
      * assert (Hn' : nth_error (queue l1) j = Some pid).
        { rewrite Hq, Hql. rewrite Hql in Hn. exact Hn. }
        destruct (Hrows j pid) as (r & Hr & Hid & Hs & Hp & Hpa); [lia|exact Hn'|].
        exists r. repeat split; auto.
        rewrite Hpa. f_equal. rewrite Nat2Z.inj_succ. unfold timedelta. lia.
Qed.

(** X7. [process_timer_advances], whatever the clock reads at each iteration,
    on a running timer with anchor [a] over a table that satisfies I1: the
    call returns normally; it removes a prefix of the queue and leaves the
    order of the rest; the row removed at index [k] is passed, without
    position, at [a + (k+1) * tour_length_seconds], a time that does not
    depend on the clock; rows passed before stay as they are; the anchor
    ends cleared or moved by whole intervals. *)
Theorem process_timer_advances_removes_a_prefix (clock : nat -> datetime)
    (l : list Person) (s : Setting) (a : datetime) :
  pk_unique l -> I1 l -> timer_paused s = false -> start_time s = Some a ->
  exists l' s' m,
    process_timer_advances clock (mkStore l s) = Some (Return tt, mkStore l' s') /\
    pk_unique l' /\ I1 l' /\ (m <= count_waiting l)%nat /\
    queue l' = skipn m (queue l) /\
    (forall p, In p l -> is_passed p = true -> In p l') /\
    (start_time s' = None \/
     start_time s' = Some (a + timedelta (Z.of_nat m * tour_length_seconds s))) /\
    (forall k pid, (k < m)%nat -> nth_error (queue l) k = Some pid ->
       exists r, In r l' /\ id r = pid /\ status r = Passed /\ position r = None /\
                 passed_at r =
                   Some (a + timedelta ((Z.of_nat k + 1) * tour_length_seconds s))).
Proof.
  intros Hpk HI Hp Ha.
  unfold process_timer_advances, process_timer_advances_fuel.
  cbn [persons setting]. rewrite Hp, Ha. cbn [orb].
  destruct (process_loop_prefix clock (tour_length_seconds s)
              (S (S (length l))) 0%nat l s Hpk HI)
    as (l' & s' & m & E & Hpk' & HI' & Hm & Hq & Hpass & _ & Hsome).
  { unfold count_waiting, waiting_rows.
    pose proof (filter_length_le is_waiting l). lia. }
  destruct (Hsome a Ha) as [Hst Hrows].
  exists l', s', m. repeat split; auto.
Qed.

(** ** Moves between and inside the two lists *)

Lemma nth_error_nil_none {A} (k : nat) : nth_error (@nil A) k = None.
Proof. destruct k; reflexivity. Qed.

Lemma nth_error_remove_at {A} (i : nat) :
  forall (q : list A) (k : nat),
    nth_error (remove_at i q) k =
    if (k <? i)%nat then nth_error q k else nth_error q (S k).
Proof.
  unfold remove_at. induction i as [|i IH]; intros q k.
  - simpl. destruct q as [|x q]; [now rewrite !nth_error_nil_none|reflexivity].
  - destruct q as [|x q].
    + simpl. rewrite !nth_error_nil_none. now destruct (k <? S i)%nat.
    + destruct k as [|k]; [reflexivity|].
      change (nth_error (firstn (S i) (x :: q) ++ skipn (S (S i)) (x :: q)) (S k))
        with (nth_error (firstn i q ++ skipn (S i) q) k).
      rewrite IH. reflexivity.
Qed.

Lemma nth_error_insert_at {A} (x : A) (i : nat) :
  forall (q : list A) (k : nat),
    (i <= length q)%nat ->
    nth_error (insert_at i x q) k =
    if (k <? i)%nat then nth_error q k
    else if (k =? i)%nat then Some x else nth_error q (k - 1).
Proof.
  unfold insert_at. induction i as [|i IH]; intros q k Hi.
  - simpl. destruct k as [|k]; [reflexivity|]. simpl. now rewrite Nat.sub_0_r.
  - destruct q as [|x0 q]; [simpl in Hi; lia|].
    destruct k as [|k]; [reflexivity|].
    change (nth_error (firstn (S i) (x0 :: q) ++ x :: skipn (S i) (x0 :: q)) (S k))
      with (nth_error (firstn i q ++ x :: skipn i q) k).
    rewrite IH by (simpl in Hi; lia).
    change (S k <? S i)%nat with (k <? i)%nat.
    change (S k =? S i)%nat with (k =? i)%nat.
    destruct (k <? i)%nat eqn:E1; [reflexivity|].
    destruct (k =? i)%nat eqn:E2; [reflexivity|].
    apply Nat.ltb_ge in E1. apply Nat.eqb_neq in E2.
    destruct k as [|k]; [lia|]. simpl. now rewrite Nat.sub_0_r.
Qed.

Lemma length_remove_at {A} (i : nat) (q : list A) :
  (i < length q)%nat -> S (length (remove_at i q)) = length q.
Proof.
  intros H. unfold remove_at. rewrite length_app, length_firstn, length_skipn. lia.
Qed.

Lemma length_insert_at {A} (i : nat) (x : A) (q : list A) :
  length (insert_at i x q) = S (length q).
Proof.
  unfold insert_at. rewrite length_app. simpl. rewrite length_firstn, length_skipn. lia.
Qed.

Lemma reset_timer_after_move_run (now : datetime) (l : list Person) (s : Setting) :
  reset_timer_after_move now (mkStore l s) =
  (Return tt, mkStore l (move_setting l now s)).
Proof.
  unfold reset_timer_after_move, move_setting, anchor_if_waiting, bind,
    get_setting, first_waiting. simpl.
  destruct (timer_paused s); simpl; [reflexivity|].
  destruct (hd_error (order_by by_position (waiting_rows l))) as [f|] eqn:E.
  - destruct (waiting_rows l) eqn:Ew; [discriminate|reflexivity].
  - apply order_by_hd_none in E. rewrite E. reflexivity.
Qed.

Lemma move_to_passed_run (p : Person) (now : datetime) (l : list Person)
    (s : Setting) (o : Z) :
  pk_unique l -> In p l -> is_waiting p = true -> position p = Some o ->
  move_to_passed p now (mkStore l s) =
  (Return true, mkStore (map (pop_row (id p) o now) l) s).
Proof.
  intros Hpk Hin Wp Po. unfold move_to_passed.
  apply is_waiting_status in Wp. rewrite Wp.
  unfold bind, get_waiting. simpl. rewrite Po.
  rewrite (shift_where_spec _
             (fun w => truthy (position w) &&
                       match position w with Some n => n >? o | None => false end));
    auto; [|intros w _ _; apply py_and_truthy_gt].
  simpl. unfold ret. f_equal. f_equal.
  rewrite update_row_map by (intros; apply shift_row_fields).
  rewrite !update_row_map
    by (intros q; destruct (id q =? id p); simpl; apply shift_row_fields).
  apply map_ext. intros q. unfold pop_row.
  destruct (shift_row_fields
              (fun w => truthy (position w) &&
                        match position w with Some n => n >? o | None => false end)
              (-1) q) as (Hi & Hn & _ & Ha & _).
  destruct (id q =? id p) eqn:E.
  - unfold set_passed_at, set_status, set_position. simpl.
    now rewrite Hi, Hn, Ha.
  - unfold shift_row. destruct (is_waiting q); simpl; [|reflexivity].
    destruct (position q) as [n|]; reflexivity.
Qed.

Lemma move_to_waiting_run_within (p : Person) (tp : Z) (l : list Person)
    (s : Setting) (o : Z) :
  pk_unique l -> I1 l -> In p l -> is_waiting p = true -> position p = Some o ->
  o <> clamped_pos (count_waiting l) tp ->
  move_to_waiting p (Some tp) (mkStore l s) =
  (Return true, mkStore (moved_within p o (clamped_pos (count_waiting l) tp) l) s).
Proof.
  intros Hpk HI Hin Wp Po Hne. unfold move_to_waiting, moved_within.
  assert (Hlen : Z.of_nat (length (order_by by_position (waiting_rows l))) =
                 Z.of_nat (count_waiting l))
    by (now rewrite order_by_length).
  pose proof Wp as St. apply is_waiting_status in St. rewrite St.
  unfold bind, get_waiting. simpl. rewrite Hlen, Po. simpl.
  fold (clamped_pos (count_waiting l) tp).
  set (to_pos := clamped_pos (count_waiting l) tp) in *.
  destruct (Z.eqb_spec o to_pos) as [E|E]; [contradiction|].
  simpl. rewrite Z.gtb_ltb.
  destruct (Z.ltb_spec to_pos o) as [Hlt|Hge].
  - rewrite (shift_where_spec _
               (pos_test (fun n => (n >=? to_pos) && (n <? o)))); auto.
    intros w Hw Ww. destruct (I1_bounds l w HI Hw Ww) as (n & Pn & _).
    split; [|rewrite Pn; discriminate].
    unfold pos_test. rewrite (py_and_between_up w to_pos o n Pn), Pn. reflexivity.
  - rewrite (shift_where_spec _
               (pos_test (fun n => (n <=? to_pos) && (n >? o)))); auto.
    intros w Hw Ww. destruct (I1_bounds l w HI Hw Ww) as (n & Pn & _).
    split; [|rewrite Pn; discriminate].
    unfold pos_test. rewrite (py_and_between_down w to_pos o n Pn), Pn. reflexivity.
Qed.

Lemma move_to_waiting_run_same (p : Person) (to_position : option Z)
    (l : list Person) (s : Setting) (o : Z) :
  is_waiting p = true -> position p = Some o ->
  (to_position = None \/
   exists tp, to_position = Some tp /\ o = clamped_pos (count_waiting l) tp) ->
  move_to_waiting p to_position (mkStore l s) = (Return false, mkStore l s).
Proof.
  intros Wp Po H. unfold move_to_waiting.
  apply is_waiting_status in Wp. rewrite Wp.
  unfold bind, get_waiting. simpl.
  destruct H as [-> | (tp & -> & E)]; [reflexivity|].
  rewrite order_by_length. fold (count_waiting l).
  fold (clamped_pos (count_waiting l) tp). rewrite Po, <- E. simpl.
  now rewrite Z.eqb_refl.
Qed.

Lemma move_to_waiting_run_insert (p : Person) (to_position : option Z)
    (l : list Person) (s : Setting) :
  pk_unique l -> is_waiting p = false ->
  move_to_waiting p to_position (mkStore l s) =
  (Return true, mkStore (inserted p (insert_pos (count_waiting l) to_position) l) s).
Proof.
  intros Hpk Wp. unfold move_to_waiting, inserted.
  assert (St : status p = Passed)
    by (unfold is_waiting in Wp; destruct (status p); [discriminate|reflexivity]).
  rewrite St. unfold bind, get_waiting. simpl.
  rewrite order_by_length. fold (count_waiting l).
  fold (insert_pos (count_waiting l) to_position).
  set (ip := insert_pos (count_waiting l) to_position).
  rewrite (shift_where_spec _
             (pos_test (fun n => negb (n =? 0) && (n >=? ip))));
    [reflexivity|exact Hpk|intros w _ _; apply py_and_truthy_ge_test].
Qed.

Lemma queue_row (l : list Person) (HI : I1 l) (k : nat) (pid : Z) :
  nth_error (queue l) k = Some pid ->
  exists w n, In w l /\ is_waiting w = true /\ id w = pid /\
              position w = Some n /\ n = Z.of_nat k + 1.
Proof.
  intros H. apply queue_nth in H; auto. destruct H as (w & Hw & Ww & E & Pw).
  exists w, (Z.of_nat k + 1). auto.
Qed.

Lemma pop_row_at (l : list Person) (x w : Person) (o n : Z) (t : datetime) :
  pk_unique l -> In x l -> In w l -> w <> x ->
  is_waiting w = true -> position w = Some n -> 1 <= n ->
  pop_row (id x) o t w = if n >? o then set_position (Some (n - 1)) w else w.
Proof.
  intros Hpk Hx Hw Hne Ww Pn Hn. unfold pop_row.
  rewrite (other_id l x w), Ww, Pn by auto.
  destruct (Z.eqb_spec n 0); [lia|]. reflexivity.
Qed.

Lemma positions_differ (w p : Person) (n o : Z) :
  position w = Some n -> position p = Some o -> n <> o -> w <> p.
Proof. intros Pw Pp Hne ->. rewrite Pw in Pp. injection Pp. exact Hne. Qed.

(** X8. [move_person_to] rejects an unknown id and a target status other than
    the two lists with a [ValueError], and writes nothing. *)
Theorem move_person_to_rejects (pid : Z) (to_status : string)
    (to_position : option Z) (now : datetime) (st : Store) :
  (find (fun q => id q =? pid) (persons st) = None ->
   move_person_to pid to_status to_position now st =
   (Raise (ValueError "person not found"), st)) /\
  (find (fun q => id q =? pid) (persons st) <> None ->
   to_status <> "waiting"%string -> to_status <> "passed"%string ->
   move_person_to pid to_status to_position now st =
   (Raise (ValueError "invalid target status"), st)).
Proof.
  unfold move_person_to, bind, Person_get. simpl. split.
  - intros ->. reflexivity.
  - intros Hf Hw Hp. destruct (find _ (persons st)) as [p|]; [|contradiction].
    apply String.eqb_neq in Hw. apply String.eqb_neq in Hp.
    rewrite Hw, Hp. reflexivity.
Qed.

(** X9. [move_person_to] of a waiting row to the passed list, on a table that
    satisfies I1: the row leaves the queue at its index, the order of the
    others is kept, the row is passed at [now] without position, and the
    timer is reset. *)
Theorem move_person_to_passed_leaves_the_queue (l : list Person) (s : Setting)
    (pid : Z) (to_position : option Z) (now : datetime) (p : Person) :
  pk_unique l -> I1 l ->
  find (fun q => id q =? pid) l = Some p -> is_waiting p = true ->
  exists o l' r,
    position p = Some o /\
    nth_error (queue l) (Z.to_nat (o - 1)) = Some pid /\
    move_person_to pid "passed" to_position now (mkStore l s) =
      (Return tt, mkStore l' (move_setting l' now s)) /\
    queue l' = remove_at (Z.to_nat (o - 1)) (queue l) /\
    I1 l' /\
    In r l' /\ id r = pid /\ name r = name p /\ status r = Passed /\
    position r = None /\ passed_at r = Some now.
Proof.
  intros Hpk HI Hfind Wp.
  destruct (find_by_id l pid p Hfind) as [Hin Hid].
  destruct (I1_bounds l p HI Hin Wp) as (o & Po & Ho).
  set (l' := map (pop_row (id p) o now) l).
  pose proof (pop_I1_at l p o now Hpk HI Hin Wp Po) as HI'.
  pose proof (pop_count l p o now Hpk Hin Wp) as Hc.
  assert (Hnth : nth_error (queue l) (Z.to_nat (o - 1)) = Some pid).
  { apply queue_nth; auto. exists p. repeat split; auto.
    rewrite Po. f_equal. lia. }
  exists o, l', (pop_row (id p) o now p).
  split; [exact Po|]. split; [exact Hnth|].
  split.
  { unfold move_person_to, bind at 1, Person_get. cbn [persons fst snd].
    rewrite Hfind. cbn [String.eqb Ascii.eqb Bool.eqb].
    unfold bind. rewrite (move_to_passed_run p now l s o Hpk Hin Wp Po).
    fold l'. rewrite reset_timer_after_move_run. reflexivity. }
  split.
  { apply queue_intro; [exact HI'| |].
    - pose proof (length_remove_at (Z.to_nat (o - 1)) (queue l)) as Hl.
      rewrite queue_length in Hl. fold l' in Hc. lia.
    - intros k pid' Hk. rewrite nth_error_remove_at in Hk.
      destruct (Nat.ltb_spec k (Z.to_nat (o - 1))) as [Hlt|Hge];
        apply (queue_row l HI) in Hk; destruct Hk as (w & n & Hw & Ww & <- & Pw & En);
        exists (pop_row (id p) o now w);
        (split; [now apply in_map|]);
        (assert (Hne : w <> p) by (apply (positions_differ w p n o Pw Po); lia));
        rewrite (pop_row_at l p w o n now Hpk Hin Hw Hne Ww Pw) by lia;
        zcases; try lia; rewrite ?is_waiting_set_position;
        (split; [exact Ww|]); (split; [reflexivity|]).
      * rewrite Pw. apply f_equal. lia.
      * unfold set_position. cbn [position]. apply f_equal. lia. }
  split; [exact HI'|].
  split; [now apply in_map|].
  rewrite pop_row_first. repeat split. exact Hid.
Qed.

Lemma insert_pos_bounds (n : nat) (to_position : option Z) :
  1 <= insert_pos n to_position <= Z.of_nat n + 1.
Proof.
  unfold insert_pos. destruct to_position as [tp|]; [|lia].
  destruct (Z.ltb_spec tp 1); lia.
Qed.

Lemma clamped_pos_bounds (n : nat) (tp : Z) :
  (1 <= n)%nat -> 1 <= clamped_pos n tp <= Z.of_nat n.
Proof. unfold clamped_pos. lia. Qed.

(** X10. [move_person_to] of a passed row to the waiting list, on a table that
    satisfies I1: the row enters the queue at the requested position, cut to
    [1 .. N+1] (the front when none is given), the order of the others is
    kept, its [passed_at] is cleared, and the timer is reset. *)
Theorem move_person_to_waiting_enters_the_queue (l : list Person) (s : Setting)
    (pid : Z) (to_position : option Z) (now : datetime) (p : Person) :
  pk_unique l -> I1 l ->
  find (fun q => id q =? pid) l = Some p -> is_waiting p = false ->
  exists l' r,
    move_person_to pid "waiting" to_position now (mkStore l s) =
      (Return tt, mkStore l' (move_setting l' now s)) /\
    queue l' =
      insert_at (Z.to_nat (insert_pos (count_waiting l) to_position - 1)) pid (queue l) /\
    I1 l' /\
    In r l' /\ id r = pid /\ name r = name p /\ status r = Waiting /\
    position r = Some (insert_pos (count_waiting l) to_position) /\
    passed_at r = None /\
    start_time (move_setting l' now s) =
      (if timer_paused s then start_time s else Some now).
Proof.
  intros Hpk HI Hfind Wp.
  destruct (find_by_id l pid p Hfind) as [Hin Hid].
  set (ip := insert_pos (count_waiting l) to_position).
  pose proof (insert_pos_bounds (count_waiting l) to_position) as Hip. fold ip in Hip.
  pose proof (insert_I1 l p ip Hpk HI Hin Wp Hip) as HI'.
  fold (inserted p ip l) in HI'.
  set (t := fun n => negb (n =? 0) && (n >=? ip)).
  set (F := fun q => if id q =? id p
                     then set_passed_at None (set_position (Some ip)
                            (set_status Waiting (shift_row (pos_test t) 1 q)))
                     else shift_row (pos_test t) 1 q).
  assert (El : inserted p ip l = map F l).
  { unfold inserted. rewrite !update_row_twice by reflexivity.
    rewrite update_row_map by (intros; apply shift_row_fields). reflexivity. }
  assert (HFp : In (F p) (inserted p ip l)) by (rewrite El; now apply in_map).
  assert (EFp : F p = set_passed_at None (set_position (Some ip)
                        (set_status Waiting (shift_row (pos_test t) 1 p))))
    by (unfold F; now rewrite Z.eqb_refl).
  assert (Hc : count_waiting (inserted p ip l) = S (count_waiting l)).
  { rewrite El.
    assert (WFp : is_waiting (F p) = true) by (rewrite EFp; reflexivity).
    assert (Hoth : forall q, In q l -> q <> p -> is_waiting (F q) = is_waiting q).
    { intros q Hq Hne. unfold F. rewrite (other_id l p q) by auto.
      unfold is_waiting.
      now destruct (shift_row_fields (pos_test t) 1 q) as (_ & _ & -> & _). }
    pose proof (count_waiting_map_one F l p (pk_unique_NoDup l Hpk) Hin Hoth) as H.
    rewrite Wp, WFp in H. simpl in H. lia. }
  exists (inserted p ip l), (F p).
  split.
  { unfold move_person_to, bind at 1, Person_get. cbn [persons fst snd].
    rewrite Hfind. cbn [String.eqb Ascii.eqb Bool.eqb].
    unfold bind. rewrite (move_to_waiting_run_insert p to_position l s Hpk Wp).
    fold ip. rewrite reset_timer_after_move_run. reflexivity. }
  split.
  { apply queue_intro; [exact HI'|now rewrite length_insert_at, queue_length, Hc|].
    intros k pid' Hk.
    rewrite nth_error_insert_at in Hk by (rewrite queue_length; lia).
    destruct (Nat.ltb_spec k (Z.to_nat (ip - 1))) as [Hlt|Hge];
      [|destruct (Nat.eqb_spec k (Z.to_nat (ip - 1))) as [Heq|Hneq]].
    - apply (queue_row l HI) in Hk. destruct Hk as (w & n & Hw & Ww & <- & Pw & En).
      exists (F w). split; [rewrite El; now apply in_map|].
      assert (Hne : w <> p) by (intros ->; congruence).
      unfold F. rewrite (other_id l p w) by auto.
      destruct (shift_row_fields (pos_test t) 1 w) as (Hi & _ & Hs & _).
      split; [unfold is_waiting in *; now rewrite Hs|]. split; [exact Hi|].
      rewrite (shift_row_position t 1 w n Ww Pw). unfold t. zcases; try lia.
      all: simpl; apply f_equal; lia.
    - injection Hk as <-. exists (F p). split; [exact HFp|].
      rewrite EFp. split; [reflexivity|]. split.
      + simpl. destruct (shift_row_fields (pos_test t) 1 p) as (Hi & _). congruence.
      + simpl. apply f_equal. lia.
    - apply (queue_row l HI) in Hk. destruct Hk as (w & n & Hw & Ww & <- & Pw & En).
      exists (F w). split; [rewrite El; now apply in_map|].
      assert (Hne : w <> p) by (intros ->; congruence).
      unfold F. rewrite (other_id l p w) by auto.
      destruct (shift_row_fields (pos_test t) 1 w) as (Hi & _ & Hs & _).
      split; [unfold is_waiting in *; now rewrite Hs|]. split; [exact Hi|].
      rewrite (shift_row_position t 1 w n Ww Pw). unfold t. zcases; try lia.
      all: simpl; apply f_equal; lia. }
  split; [exact HI'|]. split; [exact HFp|].
  rewrite EFp.
  destruct (shift_row_fields (pos_test t) 1 p) as (Hi & Hn & _).
  split; [simpl; congruence|]. split; [simpl; congruence|].
  do 3 (split; [reflexivity|]).
  unfold move_setting, anchor_if_waiting.
  destruct (timer_paused s); [reflexivity|].
  destruct (waiting_rows (inserted p ip l)) eqn:Ew; [|reflexivity].
  unfold count_waiting in Hc. rewrite Ew in Hc. discriminate.
Qed.

(** X11. [move_person_to] of a waiting row to another position of the queue, on
    a table that satisfies I1: the requested position is cut to [1 .. N];
    the row is taken out of the queue and put back at that position, the
    order of the others is kept; the timer is reset whether or not the head
    of the queue changed. *)
Theorem move_person_to_waiting_repositions (l : list Person) (s : Setting)
    (pid tp : Z) (now : datetime) (p : Person) (o : Z) :
  pk_unique l -> I1 l ->
  find (fun q => id q =? pid) l = Some p -> is_waiting p = true ->
  position p = Some o -> o <> clamped_pos (count_waiting l) tp ->
  exists l' r,
    move_person_to pid "waiting" (Some tp) now (mkStore l s) =
      (Return tt, mkStore l' (move_setting l' now s)) /\
    queue l' =
      insert_at (Z.to_nat (clamped_pos (count_waiting l) tp - 1)) pid
        (remove_at (Z.to_nat (o - 1)) (queue l)) /\
    I1 l' /\
    In r l' /\ id r = pid /\ status r = Waiting /\
    position r = Some (clamped_pos (count_waiting l) tp) /\
    start_time (move_setting l' now s) =
      (if timer_paused s then start_time s else Some now).
Proof.
  intros Hpk HI Hfind Wp Po Hne.
  destruct (find_by_id l pid p Hfind) as [Hin Hid].
  destruct (I1_bounds l p HI Hin Wp) as (o' & Po' & Ho).
  assert (o' = o) by congruence. subst o'. clear Po'.
  assert (HN : (1 <= count_waiting l)%nat) by lia.
  set (to_pos := clamped_pos (count_waiting l) tp) in *.
  pose proof (clamped_pos_bounds (count_waiting l) tp HN) as Hto. fold to_pos in Hto.
  set (t := fun n => if to_pos <? o then (n >=? to_pos) && (n <? o)
                     else (n <=? to_pos) && (n >? o)).
  set (d := if to_pos <? o then 1 else -1).
  set (F := fun q => if id q =? id p
                     then set_position (Some to_pos) (shift_row (pos_test t) d q)
                     else shift_row (pos_test t) d q).
  assert (El : moved_within p o to_pos l = map F l).
  { unfold moved_within, F, t, d. destruct (to_pos <? o);
      rewrite update_row_map by (intros; apply shift_row_fields); reflexivity. }
  assert (HI' : I1 (moved_within p o to_pos l)).
  { unfold moved_within.
    destruct (to_pos <? o) eqn:Elt.
    - apply (reposition_I1 l p o to_pos); auto. rewrite Elt. auto.
    - apply (reposition_I1 l p o to_pos); auto. rewrite Elt. auto. }
  assert (Hst : forall q, is_waiting (F q) = is_waiting q).
  { intros q. unfold F.
    destruct (shift_row_fields (pos_test t) d q) as (_ & _ & Hs & _).
    unfold is_waiting. destruct (id q =? id p); simpl; now rewrite Hs. }
  assert (Hc : count_waiting (moved_within p o to_pos l) = count_waiting l).
  { rewrite El. apply count_waiting_map_same. auto. }
  assert (EFp : F p = set_position (Some to_pos) (shift_row (pos_test t) d p))
    by (unfold F; now rewrite Z.eqb_refl).
  assert (HFp : In (F p) (moved_within p o to_pos l))
    by (rewrite El; now apply in_map).
  assert (Hrow : forall k pid', nth_error (queue l) k = Some pid' ->
            Z.of_nat k + 1 <> o ->
            exists w, In w (moved_within p o to_pos l) /\ is_waiting w = true /\
                      id w = pid' /\
                      position w = Some (if t (Z.of_nat k + 1)
                                         then Z.of_nat k + 1 + d else Z.of_nat k + 1)).
  { intros k pid' Hk Hko.
    apply (queue_row l HI) in Hk. destruct Hk as (w & n & Hw & Ww & <- & Pw & En).
    exists (F w). split; [rewrite El; now apply in_map|].
    split; [now rewrite Hst|].
    assert (Hwp : w <> p) by (apply (positions_differ w p n o Pw Po); lia).
    unfold F. rewrite (other_id l p w) by auto.
    destruct (shift_row_fields (pos_test t) d w) as (Hi & _).
    split; [exact Hi|].
    rewrite (shift_row_position t d w n Ww Pw). now rewrite En. }
  exists (moved_within p o to_pos l), (F p).
  split.
  { unfold move_person_to, bind at 1, Person_get. cbn [persons fst snd].
    rewrite Hfind. cbn [String.eqb Ascii.eqb Bool.eqb].
    unfold bind.
    rewrite (move_to_waiting_run_within p tp l s o Hpk HI Hin Wp Po Hne).
    fold to_pos. rewrite reset_timer_after_move_run. reflexivity. }
  assert (Hlr : S (length (remove_at (Z.to_nat (o - 1)) (queue l))) = count_waiting l).
  { rewrite length_remove_at; rewrite queue_length; lia. }
  split.
  { apply queue_intro; [exact HI'|rewrite length_insert_at; lia|].
    intros k pid' Hk.
    rewrite nth_error_insert_at in Hk by lia.
    rewrite !nth_error_remove_at in Hk.
    destruct (Nat.ltb_spec k (Z.to_nat (to_pos - 1))) as [Hlt|Hge];
      [|destruct (Nat.eqb_spec k (Z.to_nat (to_pos - 1))) as [Heq|Hneq]].
    - destruct (Nat.ltb_spec k (Z.to_nat (o - 1))) as [Hlt'|Hge'];
        apply Hrow in Hk; try lia;
        destruct Hk as (w & Hw & Ww & Hi & Pw); exists w;
        repeat (split; [assumption|]); rewrite Pw; unfold t, d;
        rewrite ?Nat2Z.inj_succ; zcases; simpl; apply f_equal; lia.
    - injection Hk as <-. exists (F p). split; [exact HFp|].
      rewrite EFp. rewrite is_waiting_set_position.
      destruct (shift_row_fields (pos_test t) d p) as (Hi & _ & Hs & _).
      split; [unfold is_waiting in *; now rewrite Hs|].
      split; [simpl; congruence|]. simpl. apply f_equal. lia.
    - destruct (Nat.ltb_spec (k - 1) (Z.to_nat (o - 1))) as [Hlt'|Hge'];
        apply Hrow in Hk; try lia;
        destruct Hk as (w & Hw & Ww & Hi & Pw); exists w;
        repeat (split; [assumption|]); rewrite Pw; unfold t, d;
        rewrite ?Nat2Z.inj_succ; zcases; simpl; apply f_equal; lia. }
  split; [exact HI'|]. split; [exact HFp|].
  rewrite EFp.
  destruct (shift_row_fields (pos_test t) d p) as (Hi & _ & Hs & _).
  split; [simpl; congruence|].
  split; [simpl; rewrite Hs; now apply is_waiting_status|].
  split; [reflexivity|].
  unfold move_setting, anchor_if_waiting.
  destruct (timer_paused s); [reflexivity|].
  destruct (waiting_rows (moved_within p o to_pos l)) eqn:Ew; [|reflexivity].
  assert (count_waiting (moved_within p o to_pos l) = 0%nat)
    by (unfold count_waiting; now rewrite Ew).
  lia.
Qed.

(** X12. [move_person_to] of a waiting row to the waiting list with no position,
    or with one that is cut to the row's own position, returns before the
    timer reset: nothing at all is written. *)
Theorem move_person_to_waiting_in_place (l : list Person) (s : Setting)
    (pid : Z) (to_position : option Z) (now : datetime) (p : Person) (o : Z) :
  find (fun q => id q =? pid) l = Some p -> is_waiting p = true ->
  position p = Some o ->
  (to_position = None \/
   exists tp, to_position = Some tp /\ o = clamped_pos (count_waiting l) tp) ->
  move_person_to pid "waiting" to_position now (mkStore l s) =
  (Return tt, mkStore l s).
Proof.
  intros Hfind Wp Po H.
  unfold move_person_to, bind at 1, Person_get. cbn [persons fst snd].
  rewrite Hfind. cbn [String.eqb Ascii.eqb Bool.eqb].
  unfold bind. rewrite (move_to_waiting_run_same p to_position l s o Wp Po H).
  reflexivity.
Qed.

(** ** Invariants of the reachable states *)

Lemma status_fields_map (F : Person -> Person) (l : list Person) :
  (forall p, In p l -> fields_ok p -> fields_ok (F p)) ->
  status_fields l -> status_fields (map F l).
Proof.
  intros HF H q Hq. apply in_map_iff in Hq. destruct Hq as (p & <- & Hp).
  apply HF; [exact Hp|exact (H p Hp)].
Qed.

Lemma fields_ok_set_position (p : Person) (v : option Z) :
  is_waiting p = true -> fields_ok p -> fields_ok (set_position v p).
Proof.
  unfold fields_ok, is_waiting. simpl. destruct (status p); [auto|discriminate].
Qed.

Lemma fields_ok_shift (c : Person -> bool) (d : Z) (p : Person) :
  fields_ok p -> fields_ok (shift_row c d p).
Proof.
  intros H. unfold shift_row.
  destruct (is_waiting p) eqn:W; [|exact H].
  destruct (c p); [|exact H]. simpl.
  destruct (position p); [|exact H]. now apply fields_ok_set_position.
Qed.

Lemma status_fields_pop (l : list Person) (fid f : Z) (t : datetime) :
  status_fields l -> status_fields (map (pop_row fid f t) l).
Proof.
  apply status_fields_map. intros p _ H. unfold pop_row.
  destruct (id p =? fid); [split; [reflexivity|discriminate]|].
  destruct (is_waiting p) eqn:W; [|exact H].
  destruct (position p) as [n|]; [|exact H].
  destruct (negb (n =? 0) && (n >? f)); [|exact H].
  now apply fields_ok_set_position.
Qed.

Lemma status_fields_back (l : list Person) (lid : Z) :
  status_fields l -> status_fields (map (back_row lid) l).
Proof.
  apply status_fields_map. intros p _ H. unfold back_row.
  destruct (id p =? lid); [reflexivity|].
  destruct (is_waiting p) eqn:W; [|exact H].
  now apply fields_ok_set_position.
Qed.

Lemma status_fields_reorder (l : list Person) (ids : list Z) :
  pk_unique l -> (forall x, In x ids -> In x (map id (waiting_rows l))) ->
  status_fields l -> status_fields (map (reorder_row ids) l).
Proof.
  intros Hpk Hsub. apply status_fields_map. intros p Hp H. unfold reorder_row.
  destruct (is_waiting p) eqn:W; [now apply fields_ok_set_position|].
  rewrite reordered_position_skip; [now destruct p|].
  change (enumerate ids) with (enumerate_from 0 ids). rewrite enumerate_from_snd.
  intros Hin. apply Hsub in Hin. apply in_map_iff in Hin.
  destruct Hin as (w & E & Hw). apply waiting_rows_In in Hw. destruct Hw as [Hw Ww].
  apply (pk_unique_eq l) in E; auto. subst w. congruence.
Qed.

Lemma status_fields_update_passed (l : list Person) (p : Person) (t : datetime) :
  pk_unique l -> In p l -> is_waiting p = false ->
  status_fields l -> status_fields (update_row (id p) (set_passed_at (Some t)) l).
Proof.
  intros Hpk Hin Wp. apply status_fields_map. intros q Hq H.
  destruct (id q =? id p) eqn:E; [|exact H].
  apply Z.eqb_eq in E. apply (pk_unique_eq l) in E; auto. subst q.
  unfold fields_ok, is_waiting in *. simpl.
  destruct (status p); [discriminate|]. split; [tauto|discriminate].
Qed.

Lemma status_fields_inserted (l : list Person) (p : Person) (ip : Z) :
  status_fields l -> status_fields (inserted p ip l).
Proof.
  unfold inserted. rewrite !update_row_twice by reflexivity.
  rewrite update_row_map by (intros; apply shift_row_fields).
  apply status_fields_map. intros q _ H.
  destruct (id q =? id p); [reflexivity|now apply fields_ok_shift].
Qed.

Lemma status_fields_moved_within (l : list Person) (p : Person) (o tp : Z) :
  pk_unique l -> In p l -> is_waiting p = true ->
  status_fields l -> status_fields (moved_within p o tp l).
Proof.
  intros Hpk Hin Wp. unfold moved_within.
  destruct (tp <? o);
    rewrite update_row_map by (intros; apply shift_row_fields);
    apply status_fields_map; intros q Hq H;
    (destruct (id q =? id p) eqn:E; [|now apply fields_ok_shift]);
    apply Z.eqb_eq in E; apply (pk_unique_eq l) in E; auto; subst q;
    (apply fields_ok_set_position; [|now apply fields_ok_shift]);
    unfold is_waiting in *;
    match goal with
    | |- context [shift_row ?c ?d p] =>
        destruct (shift_row_fields c d p) as (_ & _ & -> & _)
    end; exact Wp.
Qed.

Lemma process_loop_status_fields (clock : nat -> datetime) (L : Z) :
  forall (fuel i : nat) (l : list Person) (s : Setting) (st' : Store),
    pk_unique l -> I1 l -> status_fields l ->
    process_loop fuel clock i L (mkStore l s) = Some (Return tt, st') ->
    status_fields (persons st').
Proof.
  induction fuel as [|fuel IH]; intros i l s st' Hpk HI Hsf; [discriminate|].
  rewrite process_loop_S.
  destruct (start_time s) as [a|] eqn:Ha.
  2:{ rewrite process_iteration_idle by assumption. intros E. now injection E as <-. }
  destruct (Z.lt_ge_cases (clock i - a) (timedelta L)) as [Hlt|Hge].
  { rewrite (process_iteration_early _ _ _ _ a) by assumption.
    intros E. now injection E as <-. }
  destruct (count_waiting l) as [|n] eqn:En.
  { rewrite (process_iteration_empty _ _ _ _ a); auto using count_waiting_zero.
    intros E. now injection E as <-. }
  destruct (first_waiting_I1 l HI) as (first & Hhd & Hin & Wf & Pf); [lia|].
  rewrite (process_iteration_pop _ _ _ _ a first 1); auto.
  apply IH.
  - now apply pop_pk.
  - now apply pop_I1.
  - now apply status_fields_pop.
Qed.

Lemma move_to_passed_run_passed (p : Person) (now : datetime) (l : list Person)
    (s : Setting) :
  pk_unique l -> In p l -> is_waiting p = false ->
  move_to_passed p now (mkStore l s) =
  (Return true, mkStore (update_row (id p) (set_passed_at (Some now)) l) s).
Proof.
  intros Hpk Hin Wp. unfold move_to_passed.
  assert (St : status p = Passed)
    by (unfold is_waiting in Wp; destruct (status p); [discriminate|reflexivity]).
  rewrite St. unfold bind. simpl.
  rewrite (update_row_noop (id p) (set_status Passed) l); [reflexivity|].
  intros q Hq E. assert (q = p) by (eapply pk_unique_eq; eauto). subst q.
  destruct p; simpl in *; now subst.
Qed.

(** The table after [move_person_to] found the row [p]. *)
Lemma move_person_to_shape (l : list Person) (s : Setting) (pid : Z)
    (to_status : string) (to_position : option Z) (now : datetime) (p : Person) :
  pk_unique l -> I1 l ->
  find (fun q => id q =? pid) l = Some p ->
  to_status = "waiting"%string \/ to_status = "passed"%string ->
  move_person_to pid to_status to_position now (mkStore l s) = (Return tt, mkStore l s) \/
  exists l',
    move_person_to pid to_status to_position now (mkStore l s) =
      (Return tt, mkStore l' (move_setting l' now s)) /\
    ((exists o, l' = map (pop_row (id p) o now) l) \/
     (is_waiting p = false /\
      l' = update_row (id p) (set_passed_at (Some now)) l) \/
     (exists ip, l' = inserted p ip l) \/
     (exists o tp, is_waiting p = true /\ l' = moved_within p o tp l)).
Proof.
  intros Hpk HI Hfind Hts.
  destruct (find_by_id l pid p Hfind) as [Hin Hid].
  assert (Hrun : forall b l',
            (if String.eqb to_status "waiting" then move_to_waiting p to_position
             else if String.eqb to_status "passed" then move_to_passed p now
             else raise (ValueError "invalid target status")) (mkStore l s) =
            (Return b, mkStore l' s) ->
            move_person_to pid to_status to_position now (mkStore l s) =
            if b then (Return tt, mkStore l' (move_setting l' now s))
            else (Return tt, mkStore l' s)).
  { intros b l' E. unfold move_person_to, bind at 1, Person_get.
    cbn [persons fst snd]. rewrite Hfind. unfold bind at 1. rewrite E.
    destruct b; [|reflexivity].
    unfold bind. rewrite reset_timer_after_move_run. reflexivity. }
  destruct (is_waiting p) eqn:Wp.
  - destruct (I1_bounds l p HI Hin Wp) as (o & Po & Ho).
    destruct Hts as [-> | ->].
    + destruct to_position as [tp|].
      * destruct (Z.eq_dec o (clamped_pos (count_waiting l) tp)) as [E|E].
        -- left. apply (Hrun false l). simpl.
           apply (move_to_waiting_run_same p (Some tp) l s o Wp Po). right. eauto.
        -- right. eexists. split.
           ++ apply (Hrun true). simpl.
              apply (move_to_waiting_run_within p tp l s o); auto.
           ++ right. right. right. eauto.
      * left. apply (Hrun false l). simpl.
        apply (move_to_waiting_run_same p None l s o Wp Po). now left.
    + right. eexists. split.
      * apply (Hrun true). simpl. apply (move_to_passed_run p now l s o); auto.
      * left. eauto.
  - destruct Hts as [-> | ->].
    + right. eexists. split.
      * apply (Hrun true). simpl. apply move_to_waiting_run_insert; auto.
      * right. right. left. eauto.
    + right. eexists. split.
      * apply (Hrun true). simpl. apply move_to_passed_run_passed; auto.
      * right. left. split; reflexivity.
Qed.

Lemma run_keeps_status_fields (op : operation) (st st' : Store) :
  pk_unique (persons st) -> I1 (persons st) -> status_fields (persons st) ->
  reorder_well_formed op st ->
  run op st = Some (Return tt, st') ->
  status_fields (persons st').
Proof.
  intros Hpk HI Hsf Hwf. destruct st as [l s]. cbn [persons] in *.
  destruct op; simpl.
  - rewrite add_person_run by assumption.
    unfold discard. simpl. intros H. injection H as <-. simpl.
    intros p Hp. apply in_app_or in Hp.
    destruct Hp as [Hp|[<-|[]]]; [exact (Hsf p Hp)|reflexivity].
  - unfold process_timer_advances, process_timer_advances_fuel. cbn [persons setting].
    destruct (timer_paused s || _).
    + intros H. injection H as <-. exact Hsf.
    + now apply process_loop_status_fields.
  - destruct (count_waiting l) as [|n] eqn:En.
    + unfold advance_next, bind, get_setting, first_waiting. simpl.
      rewrite (count_waiting_zero l En). simpl.
      unfold discard. simpl. intros H. injection H as <-. auto.
    + destruct (first_waiting_I1 l HI) as (first & Hhd & Hin & Wf & Pf); [lia|].
      rewrite (advance_next_run l s now first 1 Hpk Hhd Pf).
      unfold discard. simpl. intros H. injection H as <-. simpl.
      now apply status_fields_pop.
  - destruct (hd_error (order_by by_passed_at_desc (passed_rows l))) as [last|] eqn:Hhd.
    + rewrite (go_back_run l s now last Hpk Hhd).
      unfold discard. simpl. intros H. injection H as <-. simpl.
      now apply status_fields_back.
    + unfold go_back, bind, get_setting, last_passed. simpl. rewrite Hhd.
      unfold discard. simpl. intros H. injection H as <-. auto.
  - destruct Hwf as [Hnd Hmem]. cbn [persons] in Hmem.
    rewrite reorder_waiting_accepts by (intros x; apply Hmem).
    intros H. injection H as <-. simpl.
    apply status_fields_reorder; auto. intros x. apply Hmem.
  - intros H0. injection H0 as H.
    destruct (find (fun q => id q =? person_id) l) as [p|] eqn:Hfind.
    2:{ unfold move_person_to, bind, Person_get in H. simpl in H.
        rewrite Hfind in H. discriminate. }
    destruct (String.eqb_spec to_status "waiting") as [Ew|Ew];
      [|destruct (String.eqb_spec to_status "passed") as [Ep|Ep]].
    3:{ apply String.eqb_neq in Ew, Ep.
        unfold move_person_to, bind, Person_get in H. simpl in H.
        rewrite Hfind, Ew, Ep in H. discriminate. }
    all: destruct (find_by_id l person_id p Hfind) as [Hin _];
      destruct (move_person_to_shape l s person_id to_status to_position now p)
        as [E|(l' & E & Hl')]; auto;
      rewrite E in H; injection H as <-; cbn [persons]; auto;
      destruct Hl' as [(o & ->)|[(Wp & ->)|[(ip & ->)|(o & tp & Wp & ->)]]].
    all: first [ now apply status_fields_pop
               | now apply status_fields_update_passed
               | now apply status_fields_inserted
               | now apply status_fields_moved_within ].
  - pose proof (api_pause_persons now (mkStore l s)) as Hp.
    destruct (api_pause now (mkStore l s)) as [[r|e] st1]; unfold discard; simpl in *;
      intros H; [injection H as <-|discriminate]. now rewrite Hp.
  - pose proof (api_set_tour_length_persons data now (mkStore l s)) as Hp.
    destruct (api_set_tour_length data now (mkStore l s)) as [[r|e] st1];
      unfold discard; simpl in *;
      intros H; [injection H as <-|discriminate]. now rewrite Hp.
Qed.

Lemma run_keeps_timer_consistent (op : operation) (st st' : Store) :
  timer_consistent st -> run op st = Some (Return tt, st') -> timer_consistent st'.
Proof.
  intros HJ. destruct op; simpl.
  - destruct (add_person name0 now_added now_start st) as [[r|e] st1] eqn:E;
      intros H; inv_run H.
    eapply add_person_consistent; eauto.
  - unfold process_timer_advances, process_timer_advances_fuel.
    destruct (timer_paused (setting st) || _) eqn:G.
    + intros H. injection H as <-. exact HJ.
    + apply orb_false_iff in G. destruct G as [G _].
      now apply process_loop_consistent.
  - destruct (advance_next now st) as [[r|e] st1] eqn:E;
      intros H; inv_run H.
    eapply advance_next_consistent; eauto.
  - destruct (go_back now st) as [[r|e] st1] eqn:E;
      intros H; inv_run H.
    eapply go_back_consistent; eauto.
  - intros H. injection H as H. eapply reorder_waiting_consistent; eauto.
  - intros H. injection H as H. eapply move_person_to_consistent; eauto.
  - destruct (api_pause now st) as [[r|e] st1] eqn:E;
      intros H; inv_run H.
    eapply api_pause_consistent; eauto.
  - destruct (api_set_tour_length data now st) as [[r|e] st1] eqn:E;
      intros H; inv_run H.
    eapply api_set_tour_length_consistent; eauto.
Qed.

Lemma advance_next_empty (l : list Person) (s : Setting) (now : datetime) :
  waiting_rows l = [] ->
  advance_next now (mkStore l s) = (Return None, mkStore l s).
Proof.
  intros E. unfold advance_next, bind, get_setting, first_waiting. simpl.
  rewrite E. reflexivity.
Qed.

Lemma go_back_empty (l : list Person) (s : Setting) (now : datetime) :
  passed_rows l = [] ->
  go_back now (mkStore l s) = (Return None, mkStore l s).
Proof.
  intros E. unfold go_back, bind, get_setting, last_passed. simpl.
  rewrite E. reflexivity.
Qed.

Lemma passed_before_map (t : datetime) (F : Person -> Person) (l : list Person) :
  (forall p, In p l -> is_passed (F p) = true ->
     (is_passed p = true /\ passed_at (F p) = passed_at p) \/
     (exists u, passed_at (F p) = Some u /\ u <= t)) ->
  passed_before t l -> passed_before t (map F l).
Proof.
  intros HF H q Hq Pq. apply in_map_iff in Hq. destruct Hq as (p & <- & Hp).
  destruct (HF p Hp Pq) as [[Pp E]|Hu]; [|exact Hu].
  rewrite E. now apply H.
Qed.

Lemma passed_before_keep (t : datetime) (F : Person -> Person) (l : list Person) :
  (forall p, status (F p) = status p /\ passed_at (F p) = passed_at p) ->
  passed_before t l -> passed_before t (map F l).
Proof.
  intros HF. apply passed_before_map. intros p _ Pp. left.
  destruct (HF p) as [Hs Ha]. unfold is_passed in *. rewrite Hs in Pp. auto.
Qed.



Lemma passed_before_shift (t : datetime) (l : list Person) (c : Person -> bool) (d : Z) :
  passed_before t l -> passed_before t (map (shift_row c d) l).
Proof.
  apply passed_before_keep. intros p.
  destruct (shift_row_fields c d p) as (_ & _ & Hs & _ & Ha). auto.
Qed.



Lemma reached_by_reachable (t : datetime) (st : Store) :
  reached_by t st -> reachable st.
Proof.
  induction 1 as [|op st st' _ IH Hwf _ Hrun]; [constructor|].
  now apply (reachable_step op st st').
Qed.





(** X13. Every state that the operations reach from the initial database, with
    reorders given permutations of the waiting ids, has a unique primary
    key, waiting positions [1..N], the columns that go with each status,
    and a consistent timer. *)
Theorem reachable_states_are_consistent (st : Store) :
  reachable st ->
  pk_unique (persons st) /\ I1 (persons st) /\
  status_fields (persons st) /\ timer_consistent st.
Proof.
  induction 1 as [|op st st' Hr (Hpk & HI & Hsf & Htc) Hwf Hrun].
  - split; [constructor|]. split; [apply I1b_sound; reflexivity|].
    split; [intros p []|].
    split; simpl; [discriminate|]. intros _. split; [reflexivity|]. intros H. now elim H.
  - destruct (operations_keep_I1 op st st' Hpk HI Hwf Hrun) as [Hpk' HI'].
    split; [exact Hpk'|]. split; [exact HI'|]. split.
    + exact (run_keeps_status_fields op st st' Hpk HI Hsf Hwf Hrun).
    + exact (run_keeps_timer_consistent op st st' Htc Hrun).
Qed.

Lemma all_waiting_ids_dec (ids : list Z) (l : list Person) :
  (forall x, In x ids -> In x (map id (waiting_rows l))) \/
  (exists x, In x ids /\ ~ In x (map id (waiting_rows l))).
Proof.
  induction ids as [|x ids IH]; [left; intros x []|].
  destruct (in_dec Z.eq_dec x (map id (waiting_rows l))) as [Hx|Hx].
  - destruct IH as [IH|(y & Hy & Hn)].
    + left. intros y [<-|Hy]; auto.
    + right. exists y. split; [now right|exact Hn].
  - right. exists x. split; [now left|exact Hx].
Qed.


(** ** The clock *)

Lemma int_of_seconds_timedelta (v : Z) : int_of_seconds (timedelta v) = v.
Proof. unfold int_of_seconds, timedelta. apply Z.quot_mul. lia. Qed.

Lemma int_of_seconds_mono (x y : Z) :
  x <= y -> int_of_seconds x <= int_of_seconds y.
Proof. intros H. unfold int_of_seconds. apply Z.quot_le_mono; lia. Qed.

(** X15. [compute_time_remaining_seconds] on a running timer with a non-negative
    interval and an anchor in the past: the projection starts at the full
    interval, never increases as the clock advances, stays within
    [0 .. tour_length_seconds], and is [0] from the end of the interval on. *)
Theorem compute_time_remaining_seconds_counts_down (s : Setting)
    (a now now' : datetime) :
  timer_paused s = false -> start_time s = Some a ->
  0 <= tour_length_seconds s -> a <= now -> now <= now' ->
  exists r r',
    compute_time_remaining_seconds now s = Some r /\
    compute_time_remaining_seconds now' s = Some r' /\
    0 <= r' /\ r' <= r /\ r <= tour_length_seconds s /\
    (now = a -> r = tour_length_seconds s) /\
    (timedelta (tour_length_seconds s) <= now' - a -> r' = 0).
Proof.
  intros Hp Ha HL H1 H2. unfold compute_time_remaining_seconds.
  rewrite Hp, Ha. do 2 eexists. split; [reflexivity|]. split; [reflexivity|].
  set (L := tour_length_seconds s) in *.
  pose proof (int_of_seconds_timedelta L) as EL.
  pose proof (int_of_seconds_mono (timedelta L - (now' - a)) (timedelta L - (now - a))
                ltac:(lia)) as M1.
  pose proof (int_of_seconds_mono (timedelta L - (now - a)) (timedelta L)
                ltac:(lia)) as M2.
  split; [lia|]. split; [lia|]. split; [lia|]. split.
  - intros ->. replace (timedelta L - (a - a)) with (timedelta L) by lia. lia.
  - intros H.
    pose proof (int_of_seconds_mono (timedelta L - (now' - a)) 0 ltac:(lia)) as M3.
    change (int_of_seconds 0) with 0 in M3. lia.
Qed.


(** X17. [process_timer_advances] at one instant [now] on a running timer: when
    it returns, no interval is overdue at [now]: the anchor is cleared or
    younger than one interval; the interval length and the pause flag are
    as before. *)
Theorem process_timer_advances_leaves_none_due (now : datetime) (st st' : Store) :
  timer_paused (setting st) = false ->
  process_timer_advances (fun _ => now) st = Some (Return tt, st') ->
  tour_length_seconds (setting st') = tour_length_seconds (setting st) /\
  timer_paused (setting st') = false /\
  (start_time (setting st') = None \/
   exists a, start_time (setting st') = Some a /\
             now - a < timedelta (tour_length_seconds (setting st'))).
Proof.
  intros Hp. unfold process_timer_advances, process_timer_advances_fuel.
  rewrite Hp. cbn [orb].
  destruct (start_time (setting st)) as [a|] eqn:Ha.
  - intros H. apply process_loop_stops in H. destruct H as (HL & Hpa & Hst).
    rewrite HL, Hpa. auto.
  - intros H. injection H as <-. auto.
Qed.

(** X18. [api_pause] on a running timer without anchor snapshots the whole
    interval, and the resume that follows starts the interval at the instant
    of the resume, whether or not anybody waits. *)
Theorem api_pause_idle_round_trip (l : list Person) (s : Setting) (t t' : datetime) :
  timer_paused s = false -> start_time s = None ->
  exists s1 s2,
    api_pause t (mkStore l s) =
      (Return (PausedWith (Some (tour_length_seconds s))), mkStore l s1) /\
    api_pause t' (mkStore l s1) = (Return Resumed, mkStore l s2) /\
    timer_paused s1 = true /\ start_time s1 = None /\
    timer_paused s2 = false /\ start_time s2 = Some t' /\
    time_remaining_on_pause s2 = None /\
    tour_length_seconds s2 = tour_length_seconds s /\
    compute_time_remaining_seconds t' s2 = Some (Z.max (tour_length_seconds s) 0).
Proof.
  intros Hp Ha.
  unfold api_pause, bind, get_setting, set_setting, full_length_on_pause, commit, ret.
  simpl. rewrite Hp, Ha. simpl.
  do 2 eexists. split; [reflexivity|]. split; [reflexivity|].
  simpl. split; [reflexivity|]. split; [exact Ha|]. split; [reflexivity|].
  split; [apply f_equal; unfold timedelta; lia|].
  split; [reflexivity|]. split; [reflexivity|].
  unfold compute_time_remaining_seconds. simpl. apply f_equal.
  apply (f_equal (fun x => Z.max x 0)).
  replace (timedelta (tour_length_seconds s) -
           (t' - (t' - timedelta (tour_length_seconds s - tour_length_seconds s))))
    with (timedelta (tour_length_seconds s)) by (unfold timedelta; lia).
  apply int_of_seconds_timedelta.
Qed.

Lemma estimate_wait_minutes_run (st : Store) (p : Person) (n : Z) :
  position p = Some n -> n <> 0 ->
  estimate_wait_minutes p st =
  (Return (Z.quot ((n + -1) * tour_length_seconds (setting st)) 60), st).
Proof.
  intros Pp Hn. unfold estimate_wait_minutes, bind, get_setting, lift, ret.
  rewrite Pp. unfold truthy, py_add.
  destruct (Z.eqb_spec n 0) as [?|_]; [contradiction|]. reflexivity.
Qed.

(** X19. [estimate_wait_minutes] reads the settings and writes nothing; it is [0]
    for a row without position or at position 0; for positions from 1 on and
    a non-negative interval it is the whole minutes in [position - 1]
    intervals: [0] for the head and never smaller for a row further back. *)
Theorem estimate_wait_minutes_spec (st : Store) (p q : Person) (n k : Z) :
  0 <= tour_length_seconds (setting st) ->
  position p = Some n -> position q = Some k -> 1 <= n <= k ->
  exists m m',
    estimate_wait_minutes p st = (Return m, st) /\
    estimate_wait_minutes q st = (Return m', st) /\
    0 <= m <= m' /\
    60 * m <= (n - 1) * tour_length_seconds (setting st) < 60 * m + 60 /\
    (n = 1 -> m = 0) /\
    (forall r, position r = None \/ position r = Some 0 ->
       estimate_wait_minutes r st = (Return 0, st)).
Proof.
  intros HL Pp Pq Hnk.
  rewrite (estimate_wait_minutes_run st p n Pp) by lia.
  rewrite (estimate_wait_minutes_run st q k Pq) by lia.
  set (L := tour_length_seconds (setting st)) in *.
  do 2 eexists. split; [reflexivity|]. split; [reflexivity|].
  assert (Hx : 0 <= (n + -1) * L) by (apply Z.mul_nonneg_nonneg; lia).
  assert (Hxy : (n + -1) * L <= (k + -1) * L)
    by (apply Z.mul_le_mono_nonneg_r; lia).
  replace ((n - 1) * L) with ((n + -1) * L) by ring.
  set (x := (n + -1) * L) in *. set (y := (k + -1) * L) in *.
  rewrite !Z.quot_div_nonneg by lia.
  pose proof (Z.div_le_mono x y 60 ltac:(lia) Hxy) as Hm.
  pose proof (Z.div_pos x 60 Hx ltac:(lia)) as H0.
  pose proof (Z.mul_div_le x 60 ltac:(lia)) as Hlo.
  pose proof (Z.mul_succ_div_gt x 60 ltac:(lia)) as Hhi.
  split; [lia|]. split; [lia|]. split.
  - intros ->. unfold x. reflexivity.
  - intros r [E | E]; unfold estimate_wait_minutes, bind, get_setting, ret;
      rewrite E; reflexivity.
Qed.

(** ** The routes *)

(** X20. [POST /register]: a missing or empty name is answered 400 and nothing
    is written; any other name is answered 201 with the new row, which
    waits at the back of a table that satisfies I1 under a fresh id. *)
Theorem register_requires_a_name (l : list Person) (s : Setting)
    (nm : option string) (now_added now_start : datetime) :
  pk_unique l -> I1 l ->
  (nm = None \/ nm = Some ""%string ->
   register nm now_added now_start (mkStore l s) =
   (Return (Failure 400 "name required"), mkStore l s)) /\
  (forall n, nm = Some n -> n <> ""%string ->
   exists np s',
     register nm now_added now_start (mkStore l s) =
       (Return (Created 201 np), mkStore (l ++ [np]) s') /\
     name np = n /\ status np = Waiting /\
     position np = Some (Z.of_nat (count_waiting l) + 1) /\
     ~ In (id np) (map id l) /\
     pk_unique (l ++ [np]) /\ I1 (l ++ [np])).
Proof.
  intros Hpk HI. split.
  - intros [-> | ->]; reflexivity.
  - intros n -> Hn. apply String.eqb_neq in Hn.
    exists (new_person l n now_added), (enqueue_setting now_start s).
    unfold register. rewrite Hn. unfold bind.
    rewrite (add_person_run l s n now_added now_start HI).
    split; [reflexivity|]. do 3 (split; [reflexivity|]).
    split.
    { intros Hin. apply in_map_iff in Hin. destruct Hin as (p & E & Hp).
      apply id_lt_next_id in Hp. simpl in E. lia. }
    now apply add_person_I1.
Qed.

(** X21. [POST /api/next]: 400 without any write when nobody waits; otherwise
    200 with the row that headed the queue, now passed. *)
Theorem api_next_replies (l : list Person) (s : Setting) (now : datetime) :
  pk_unique l -> I1 l ->
  (queue l = [] ->
   api_next now (mkStore l s) =
   (Return (Message 400 "No one to advance" None), mkStore l s)) /\
  (forall h rest, queue l = h :: rest ->
   exists p st',
     api_next now (mkStore l s) = (Return (Message 200 "advanced" (Some p)), st') /\
     id p = h /\ status p = Passed /\ passed_at p = Some now /\
     count_waiting (persons st') = length rest).
Proof.
  intros Hpk HI. split.
  - intros Hq.
    assert (E : waiting_rows l = []).
    { apply count_waiting_zero. rewrite <- queue_length, Hq. reflexivity. }
    unfold api_next, bind. rewrite (advance_next_empty l s now E). reflexivity.
  - intros h rest Hq.
    assert (HN : (1 <= count_waiting l)%nat)
      by (rewrite <- queue_length, Hq; simpl; lia).
    destruct (first_waiting_I1 l HI HN) as (first & Hhd & Hin & Wf & Pf).
    destruct (queue_head l first Hhd) as (rest' & Hq').
    unfold api_next, bind. rewrite (advance_next_run l s now first 1 Hpk Hhd Pf).
    do 2 eexists. split; [reflexivity|].
    rewrite pop_row_first. cbn [id status passed_at persons].
    split; [congruence|]. do 2 (split; [reflexivity|]).
    pose proof (pop_count l first 1 now Hpk Hin Wf) as Hc.
    pose proof (queue_length l) as Hl. rewrite Hq in Hl. simpl in Hl. lia.
Qed.

(** X22. [POST /api/back]: 400 without any write when no row has passed;
    otherwise 200 with a most recently passed row, waiting again at
    position 1. *)
Theorem api_back_replies (l : list Person) (s : Setting) (now : datetime) :
  pk_unique l ->
  (passed_rows l = [] ->
   api_back now (mkStore l s) =
   (Return (Message 400 "No one to go back" None), mkStore l s)) /\
  (passed_rows l <> [] ->
   exists last p st',
     api_back now (mkStore l s) = (Return (Message 200 "backed" (Some p)), st') /\
     In last l /\ is_passed last = true /\
     (forall q, In q l -> is_passed q = true ->
        opt_le (passed_at q) (passed_at last) = true) /\
     id p = id last /\ status p = Waiting /\ position p = Some 1 /\
     passed_at p = None).
Proof.
  intros Hpk. split.
  - intros E. unfold api_back, bind. rewrite (go_back_empty l s now E). reflexivity.
  - intros Hne.
    destruct (hd_error (order_by by_passed_at_desc (passed_rows l))) as [last|] eqn:Hhd;
      [|apply order_by_hd_none in Hhd; contradiction].
    destruct (order_by_first_least by_passed_at_desc by_passed_at_desc_total
                by_passed_at_desc_trans (passed_rows l) last Hhd) as [Hin Hleast].
    apply filter_In in Hin. destruct Hin as [Hin Pl].
    unfold api_back, bind. rewrite (go_back_run l s now last Hpk Hhd).
    exists last. do 2 eexists. split; [reflexivity|].
    split; [exact Hin|]. split; [exact Pl|].
    split. { intros q Hq Pq. apply (Hleast q). apply filter_In. now split. }
    unfold back_row. rewrite Z.eqb_refl. repeat split.
Qed.

(** X23. [POST /api/reorder] never fails with an exception: it answers 200 after
    the reorder, or 400 with nothing written, for a missing or empty list
    and for a list that holds an id that is not waiting. *)
Theorem api_reorder_replies (ids : option (list Z)) (now : datetime) (st : Store) :
  exists r st',
    api_reorder ids now st = (Return r, st') /\
    ((r = Message 200 "reordered" None /\
      exists x xs, ids = Some (x :: xs) /\
        (forall y, In y (x :: xs) -> In y (map id (waiting_rows (persons st)))) /\
        st' = mkStore (map (reorder_row (x :: xs)) (persons st))
                      (restarted now (setting st))) \/
     (st' = st /\
      ((r = Failure 400 "ids list required" /\ (ids = None \/ ids = Some [])) \/
       (r = FailureOf 400 (ValueError "Invalid id in reorder") /\
        exists l x, ids = Some l /\ In x l /\
                    ~ In x (map id (waiting_rows (persons st))))))).
Proof.
  destruct ids as [[|x xs]|]; unfold api_reorder; cbv beta iota.
  - do 2 eexists. split; [reflexivity|]. right. split; [reflexivity|].
    left. auto.
  - unfold try_except.
    destruct (all_waiting_ids_dec (x :: xs) (persons st)) as [Hall|(y & Hy & Hn)].
    + rewrite (reorder_waiting_accepts (x :: xs) now st Hall).
      do 2 eexists. split; [reflexivity|]. left. split; [reflexivity|].
      exists x, xs. auto.
    + rewrite (reorder_waiting_rejects (x :: xs) now st)
        by (exists y; split; assumption).
      do 2 eexists. split; [reflexivity|]. right. split; [reflexivity|].
      right. split; [reflexivity|]. exists (x :: xs), y. auto.
  - do 2 eexists. split; [reflexivity|]. right. split; [reflexivity|].
    left. auto.
Qed.

(** X24. [POST /api/move] on a table that satisfies I1 never fails with an
    exception: it answers 200 after the move, or 400 with nothing written:
    for a missing id or status, the id 0 and the empty status counting as
    missing, for an unknown id and for a status that names no list. *)
Theorem api_move_replies (l : list Person) (s : Setting) (pid : option Z)
    (to_status : option string) (to_pos : option Z) (now : datetime) :
  pk_unique l -> I1 l ->
  exists r st',
    api_move pid to_status to_pos now (mkStore l s) = (Return r, st') /\
    ((r = Message 200 "moved" None /\
      exists i p, pid = Some i /\ find (fun q => id q =? i) l = Some p /\
        (to_status = Some "waiting"%string \/ to_status = Some "passed"%string) /\
        pk_unique (persons st') /\ I1 (persons st')) \/
     (st' = mkStore l s /\
      ((r = Failure 400 "id and toStatus required" /\
        (pid = None \/ pid = Some 0 \/ to_status = None \/
         to_status = Some ""%string)) \/
       (r = FailureOf 400 (ValueError "person not found") /\
        exists i, pid = Some i /\ find (fun q => id q =? i) l = None) \/
       (r = FailureOf 400 (ValueError "invalid target status") /\
        to_status <> Some "waiting"%string /\ to_status <> Some "passed"%string)))).
Proof.
  intros Hpk HI. unfold api_move.
  destruct pid as [i|].
  2:{ do 2 eexists. split; [reflexivity|]. right. split; [reflexivity|]. left. auto. }
  destruct to_status as [ts|].
  2:{ do 2 eexists. split; [reflexivity|]. right. split; [reflexivity|]. left. auto. }
  unfold truthy. destruct (Z.eqb_spec i 0) as [->|Hi]; cbn [negb orb].
  { do 2 eexists. split; [reflexivity|]. right. split; [reflexivity|]. left. auto. }
  destruct (String.eqb_spec ts "") as [->|Hts].
  { do 2 eexists. split; [reflexivity|]. right. split; [reflexivity|]. left. auto. }
  unfold try_except.
  destruct (find (fun q => id q =? i) l) as [p|] eqn:Hfind.
  2:{ unfold move_person_to, bind, Person_get. cbn [persons]. rewrite Hfind.
      do 2 eexists. split; [reflexivity|]. right. split; [reflexivity|].
      right. left. eauto. }
  destruct (String.eqb_spec ts "waiting") as [Ew|Ew];
    [|destruct (String.eqb_spec ts "passed") as [Ep|Ep]].
  - destruct (move_person_to_I1 (mkStore l s) i ts to_pos now p)
      as (st1 & E & Hpk1 & HI1); auto.
    rewrite E. do 2 eexists. split; [reflexivity|]. left. split; [reflexivity|].
    exists i, p. subst ts. auto.
  - destruct (move_person_to_I1 (mkStore l s) i ts to_pos now p)
      as (st1 & E & Hpk1 & HI1); auto.
    rewrite E. do 2 eexists. split; [reflexivity|]. left. split; [reflexivity|].
    exists i, p. subst ts. auto 6.
  - pose proof Ew as Ew'. pose proof Ep as Ep'.
    apply String.eqb_neq in Ew', Ep'.
    unfold move_person_to, bind, Person_get. cbn [persons]. rewrite Hfind, Ew', Ep'.
    do 2 eexists. split; [reflexivity|]. right. split; [reflexivity|].
    right. right. split; [reflexivity|]. split; congruence.
Qed.

Lemma process_loop_settings (clock : nat -> datetime) (L : Z) :
  forall (fuel i : nat) (st st' : Store) (o : outcome unit),
    process_loop fuel clock i L st = Some (o, st') ->
    tour_length_seconds (setting st') = tour_length_seconds (setting st) /\
    timer_paused (setting st') = timer_paused (setting st).
Proof.
  induction fuel as [|fuel IH]; intros i st st' o; [discriminate|].
  rewrite process_loop_S.
  destruct (process_iteration (clock i) L st) as [[[|]|e] st1] eqn:E;
    pose proof (process_iteration_any (clock i) L st _ st1 E) as (HL & Hp & _).
  - intros H. apply IH in H. destruct H as [HL' Hp']. split; congruence.
  - intros H. injection H as _ <-. auto.
  - intros H. injection H as _ <-. auto.
Qed.

Lemma waiting_passed_partition (l : list Person) :
  Permutation (waiting_rows l ++ passed_rows l) l.
Proof.
  unfold waiting_rows, passed_rows. induction l as [|p l IH]; [constructor|].
  simpl. rewrite is_passed_waiting. destruct (is_waiting p); simpl.
  - now constructor.
  - apply Permutation_sym, Permutation_cons_app, Permutation_sym, IH.
Qed.

(** X25. [get_waiting] on a table that satisfies I1 reads without writing and
    lists the waiting rows, each once, from position 1 to position N. *)
Theorem get_waiting_lists_by_position (l : list Person) (s : Setting) :
  I1 l ->
  exists rows,
    get_waiting (mkStore l s) = (Return rows, mkStore l s) /\
    Permutation rows (waiting_rows l) /\
    map position rows = one_to (count_waiting l) /\
    (forall k w, nth_error rows k = Some w -> position w = Some (Z.of_nat k + 1)).
Proof.
  intros HI. exists (order_by by_position (waiting_rows l)).
  split; [reflexivity|]. split; [apply order_by_perm|].
  pose proof (get_waiting_positions l HI) as Hp.
  split; [exact Hp|].
  intros k w Hk. apply (map_nth_error position) in Hk.
  rewrite Hp in Hk.
  destruct (Nat.lt_ge_cases k (count_waiting l)) as [Hlt|Hge].
  - rewrite nth_error_one_to in Hk by assumption. congruence.
  - assert (Hn : nth_error (one_to (count_waiting l)) k = None)
      by (apply nth_error_None; now rewrite length_one_to).
    congruence.
Qed.

(** X26. [GET /api/status] on a table that satisfies I1, whatever the clock
    reads: the call returns; after the catch-up the reply lists every row
    of the table once, the waiting rows from position 1 to N and the passed
    rows from the most recent [passed_at] down, together with the interval
    length and the pause flag, which the call does not change, and the
    clock projection of the settings it leaves. *)
Theorem api_status_lists_the_table (clock : nat -> datetime) (now : datetime)
    (st : Store) :
  pk_unique (persons st) -> I1 (persons st) ->
  exists v st',
    api_status clock now st = Some (Return v, st') /\
    process_timer_advances clock st = Some (Return tt, st') /\
    pk_unique (persons st') /\ I1 (persons st') /\
    map id (status_json.waiting v) = queue (persons st') /\
    map position (status_json.waiting v) = one_to (count_waiting (persons st')) /\
    Permutation (status_json.waiting v ++ status_json.passed v) (persons st') /\
    StronglySorted (holds by_passed_at_desc) (status_json.passed v) /\
    status_json.tour_length_seconds v = tour_length_seconds (setting st) /\
    status_json.timer_paused v = timer_paused (setting st) /\
    status_json.time_remaining_seconds v =
      compute_time_remaining_seconds now (setting st').
Proof.
  intros Hpk HI.
  destruct (process_timer_advances_I1 clock st Hpk HI) as (st' & E & Hpk' & HI').
  assert (Hset : tour_length_seconds (setting st') = tour_length_seconds (setting st) /\
                 timer_paused (setting st') = timer_paused (setting st)).
  { revert E. unfold process_timer_advances, process_timer_advances_fuel.
    destruct (timer_paused (setting st) || _).
    - intros H. injection H as <-. auto.
    - apply process_loop_settings. }
  unfold api_status. rewrite E.
  do 2 eexists. split; [reflexivity|]. cbn [fst snd].
  split; [reflexivity|]. split; [exact Hpk'|]. split; [exact HI'|].
  cbn [status_json.waiting status_json.passed status_json.tour_length_seconds
       status_json.timer_paused status_json.time_remaining_seconds].
  split; [reflexivity|].
  split; [now apply get_waiting_positions|].
  split.
  { rewrite (order_by_perm by_position), (order_by_perm by_passed_at_desc).
    apply waiting_passed_partition. }
  split.
  { apply order_by_sorted; [apply by_passed_at_desc_total|apply by_passed_at_desc_trans]. }
  destruct Hset as [HL Hp]. auto.
Qed.

(** * Concrete runs of the further properties *)

(** [get_waiting] at [queue3] lists positions 1, 2, 3. *)
Lemma get_waiting_lists_by_position_witness :
  exists rows,
    get_waiting queue3 = (Return rows, queue3) /\
    map position rows = [Some 1; Some 2; Some 3].
Proof.
  destruct (get_waiting_lists_by_position (persons queue3) (setting queue3))
    as (rows & E & _ & Hp & _).
  - exact queue3_I1.
  - exists rows. split; [exact E|exact Hp].
Defined.


(** A manual advance at [queue3] pops id 1 and leaves ids 2, 3. *)
Lemma advance_next_pops_the_head_witness :
  exists r l' s',
    advance_next 5000000 queue3 = (Return (Some r), mkStore l' s') /\
    id r = 1 /\ queue l' = [2; 3] /\ start_time s' = Some 5000000.
Proof.
  destruct (advance_next_pops_the_head (persons queue3) (setting queue3)
              5000000 1 [2; 3])
    as (r & l' & s' & E & Hi & _ & _ & _ & _ & Hq & _ & Ha & _).
  - exact queue3_pk.
  - exact queue3_I1.
  - reflexivity.
  - exists r, l', s'. auto.
Defined.

(** A manual advance on the initial database returns [None]. *)
Lemma advance_next_none_iff_empty_witness :
  advance_next 0 init_db = (Return None, init_db).
Proof.
  destruct (advance_next_none_iff_empty (persons init_db) (setting init_db) 0)
    as [H _].
  - constructor.
  - apply I1b_sound. reflexivity.
  - apply H. reflexivity.
Defined.

(** An undo at [queue4] brings id 4 back in front of ids 1, 2, 3. *)
Lemma go_back_returns_to_the_front_witness :
  exists last r l',
    fst (go_back 9000000 queue4) = Return (Some r) /\
    id r = id last /\ queue l' = id last :: [1; 2; 3].
Proof.
  destruct (go_back_returns_to_the_front (persons queue4) (setting queue4) 9000000)
    as (last & r & l' & _ & _ & _ & E & Hi & _ & _ & _ & _ & _ & Hq & _).
  - exact queue4_pk.
  - exact queue4_I1.
  - discriminate.
  - exists last, r, l'. split; [|split; [exact Hi|exact Hq]].
    change queue4 with (mkStore (persons queue4) (setting queue4)).
    rewrite E. reflexivity.
Defined.

(** An undo at [queue3], where nobody has passed, returns [None]. *)
Lemma go_back_none_iff_no_passed_witness :
  go_back 9000000 queue3 = (Return None, queue3).
Proof.
  destruct (go_back_none_iff_no_passed (persons queue3) (setting queue3) 9000000)
    as [H _].
  - exact queue3_pk.
  - apply H. reflexivity.
Defined.

(** The order 3, 1, 2 given to [queue3] is the order read back. *)
Lemma reorder_waiting_installs_the_order_witness :
  exists l',
    fst (reorder_waiting [3; 1; 2] 9000000 queue3) = Return tt /\
    queue l' = [3; 1; 2] /\ I1 l'.
Proof.
  destruct (reorder_waiting_installs_the_order (persons queue3) (setting queue3)
              [3; 1; 2] 9000000) as (l' & E & Hq & HI & _).
  - exact queue3_pk.
  - split.
    + repeat constructor; simpl; intros H; lia.
    + intros x. simpl. tauto.
  - exists l'. split; [|split; [exact Hq|exact HI]].
    change queue3 with (mkStore (persons queue3) (setting queue3)).
    rewrite E. reflexivity.
Defined.

(** A catch-up of [queue3] at 700 s leaves a suffix of the queue 1, 2, 3. *)
Lemma process_timer_advances_removes_a_prefix_witness :
  exists l' m, (m <= 3)%nat /\ queue l' = skipn m [1; 2; 3] /\ I1 l'.
Proof.
  destruct (process_timer_advances_removes_a_prefix (fun _ => 700000000)
              (persons queue3) (setting queue3) 1000000)
    as (l' & s' & m & _ & _ & HI & Hm & Hq & _).
  - exact queue3_pk.
  - exact queue3_I1.
  - reflexivity.
  - reflexivity.
  - exists l', m. auto.
Defined.

(** An unknown id and an unknown list at [queue3]. *)
Lemma move_person_to_rejects_witness :
  move_person_to 9 "waiting" None 0 queue3 =
    (Raise (ValueError "person not found"), queue3) /\
  move_person_to 2 "done" None 0 queue3 =
    (Raise (ValueError "invalid target status"), queue3).
Proof.
  split.
  - apply (proj1 (move_person_to_rejects 9 "waiting" None 0 queue3)). reflexivity.
  - apply (proj2 (move_person_to_rejects 2 "done" None 0 queue3)); discriminate.
Defined.

(** Row 2 of [queue4] moved to the passed list leaves the queue 1, 3. *)
Lemma move_person_to_passed_leaves_the_queue_witness :
  exists l', queue l' = [1; 3] /\ I1 l'.
Proof.
  destruct (move_person_to_passed_leaves_the_queue (persons queue4) (setting queue4)
              2 None 9000000 (mkPerson 2 "B" Waiting (Some 2) (Some 200) None))
    as (o & l' & r & Po & _ & _ & Hq & HI & _).
  - exact queue4_pk.
  - exact queue4_I1.
  - reflexivity.
  - reflexivity.
  - exists l'. split; [|exact HI]. injection Po as <-. exact Hq.
Defined.

(** Row 4 of [queue4] moved to position 2 of the queue gives 1, 4, 2, 3. *)
Lemma move_person_to_waiting_enters_the_queue_witness :
  exists l', queue l' = [1; 4; 2; 3] /\ I1 l'.
Proof.
  destruct (move_person_to_waiting_enters_the_queue (persons queue4) (setting queue4)
              4 (Some 2) 9000000 (mkPerson 4 "D" Passed None (Some 50) (Some 500000)))
    as (l' & r & _ & Hq & HI & _).
  - exact queue4_pk.
  - exact queue4_I1.
  - reflexivity.
  - reflexivity.
  - exists l'. split; [exact Hq|exact HI].
Defined.

(** Row 3 of [queue4] moved to the head of the queue gives 3, 1, 2. *)
Lemma move_person_to_waiting_repositions_witness :
  exists l' s',
    queue l' = [3; 1; 2] /\ I1 l' /\ s' = move_setting l' 9000000 (setting queue4) /\
    start_time s' = Some 9000000.
Proof.
  destruct (move_person_to_waiting_repositions (persons queue4) (setting queue4)
              3 1 9000000 (mkPerson 3 "C" Waiting (Some 3) (Some 300) None) 3)
    as (l' & r & _ & Hq & HI & _ & _ & _ & _ & Ha).
  - exact queue4_pk.
  - exact queue4_I1.
  - reflexivity.
  - reflexivity.
  - reflexivity.
  - discriminate.
  - exists l', (move_setting l' 9000000 (setting queue4)). auto.
Defined.

(** Row 2 of [queue4] moved to the waiting list with no position: nothing
    changes, the anchor included. *)
Lemma move_person_to_waiting_in_place_witness :
  move_person_to 2 "waiting" None 9000000 queue4 = (Return tt, queue4).
Proof.
  apply (move_person_to_waiting_in_place (persons queue4) (setting queue4)
           2 None 9000000 (mkPerson 2 "B" Waiting (Some 2) (Some 200) None) 2).
  - reflexivity.
  - reflexivity.
  - reflexivity.
  - left. reflexivity.
Defined.

(** The state after one registration is reachable, hence consistent. *)
Lemma reachable_states_are_consistent_witness :
  I1 (persons one_registered) /\ timer_consistent one_registered.
Proof.
  destruct (reachable_states_are_consistent one_registered) as (_ & HI & _ & Ht).
  - apply (reachable_step (Enqueue "A" 0 0) init_db).
    + constructor.
    + exact I.
    + reflexivity.
  - split; assumption.
Defined.


(** The clock of [queue3] 100 s and 200 s after the anchor. *)
Lemma compute_time_remaining_seconds_counts_down_witness :
  exists r r',
    compute_time_remaining_seconds 101000000 (setting queue3) = Some r /\
    compute_time_remaining_seconds 201000000 (setting queue3) = Some r' /\
    0 <= r' /\ r' <= r /\ r <= 300.
Proof.
  destruct (compute_time_remaining_seconds_counts_down (setting queue3)
              1000000 101000000 201000000)
    as (r & r' & E & E' & H0 & H1 & H2 & _).
  - reflexivity.
  - reflexivity.
  - simpl. lia.
  - lia.
  - lia.
  - exists r, r'. auto.
Defined.


(** After the catch-up of [queue3] at 700 s the anchor is 99 s old. *)
Lemma process_timer_advances_leaves_none_due_witness :
  start_time (setting queue3_caught_up) = None \/
  exists a, start_time (setting queue3_caught_up) = Some a /\
            700000000 - a < timedelta (tour_length_seconds (setting queue3_caught_up)).
Proof.
  apply (process_timer_advances_leaves_none_due 700000000 queue3 queue3_caught_up).
  - reflexivity.
  - reflexivity.
Defined.

(** Pause and resume on the initial database. *)
Lemma api_pause_idle_round_trip_witness :
  exists s1 s2,
    api_pause 5000000 init_db = (Return (PausedWith (Some 300)), mkStore [] s1) /\
    api_pause 8000000 (mkStore [] s1) = (Return Resumed, mkStore [] s2) /\
    start_time s2 = Some 8000000.
Proof.
  destruct (api_pause_idle_round_trip [] (setting init_db) 5000000 8000000)
    as (s1 & s2 & E1 & E2 & _ & _ & _ & Ha & _).
  - reflexivity.
  - reflexivity.
  - exists s1, s2. auto.
Defined.

(** The estimates at [queue3] for the rows at positions 1 and 3. *)
Lemma estimate_wait_minutes_spec_witness :
  exists m m',
    estimate_wait_minutes (mkPerson 1 "A" Waiting (Some 1) (Some 100) None) queue3 =
      (Return m, queue3) /\
    estimate_wait_minutes (mkPerson 3 "C" Waiting (Some 3) (Some 300) None) queue3 =
      (Return m', queue3) /\
    0 <= m <= m'.
Proof.
  destruct (estimate_wait_minutes_spec queue3
              (mkPerson 1 "A" Waiting (Some 1) (Some 100) None)
              (mkPerson 3 "C" Waiting (Some 3) (Some 300) None) 1 3)
    as (m & m' & E & E' & H & _).
  - simpl. lia.
  - reflexivity.
  - reflexivity.
  - lia.
  - exists m, m'. auto.
Defined.

(** A registration without name and one with a name at [queue3]. *)
Lemma register_requires_a_name_witness :
  register None 400 2000000 queue3 = (Return (Failure 400 "name required"), queue3) /\
  exists np, fst (register (Some "D"%string) 400 2000000 queue3) =
             Return (Created 201 np).
Proof.
  destruct (register_requires_a_name (persons queue3) (setting queue3)
              None 400 2000000) as [H _].
  - exact queue3_pk.
  - exact queue3_I1.
  - split; [apply H; now left|].
    destruct (register_requires_a_name (persons queue3) (setting queue3)
                (Some "D"%string) 400 2000000 queue3_pk queue3_I1) as [_ H2].
    destruct (H2 "D"%string eq_refl) as (np & s' & E & _); [discriminate|].
    exists np. change queue3 with (mkStore (persons queue3) (setting queue3)).
    rewrite E. reflexivity.
Defined.

(** [POST /api/next] on the initial database and at [queue3]. *)
Lemma api_next_replies_witness :
  api_next 0 init_db = (Return (Message 400 "No one to advance" None), init_db) /\
  exists p, fst (api_next 5000000 queue3) = Return (Message 200 "advanced" (Some p)) /\
            id p = 1.
Proof.
  split.
  - destruct (api_next_replies (persons init_db) (setting init_db) 0) as [H _].
    + constructor.
    + apply I1b_sound. reflexivity.
    + apply H. reflexivity.
  - destruct (api_next_replies (persons queue3) (setting queue3) 5000000) as [_ H].
    + exact queue3_pk.
    + exact queue3_I1.
    + destruct (H 1 [2; 3] eq_refl) as (p & st' & E & Hi & _).
      exists p. split; [|exact Hi].
      change queue3 with (mkStore (persons queue3) (setting queue3)).
      rewrite E. reflexivity.
Defined.

(** [POST /api/back] at [queue3], where nobody has passed. *)
Lemma api_back_replies_witness :
  api_back 9000000 queue3 = (Return (Message 400 "No one to go back" None), queue3).
Proof.
  destruct (api_back_replies (persons queue3) (setting queue3) 9000000) as [H _].
  - exact queue3_pk.
  - apply H. reflexivity.
Defined.

(** [POST /api/reorder] at [queue3] with the unknown id 9. *)
Lemma api_reorder_replies_witness :
  exists r st', api_reorder (Some [9]) 0 queue3 = (Return r, st').
Proof.
  destruct (api_reorder_replies (Some [9]) 0 queue3) as (r & st' & E & _).
  exists r, st'. exact E.
Defined.

(** [POST /api/move] at [queue4] with the id 0. *)
Lemma api_move_replies_witness :
  exists r st', api_move (Some 0) (Some "passed"%string) None 0 queue4 = (Return r, st').
Proof.
  destruct (api_move_replies (persons queue4) (setting queue4)
              (Some 0) (Some "passed"%string) None 0) as (r & st' & E & _).
  - exact queue4_pk.
  - exact queue4_I1.
  - exists r, st'. exact E.
Defined.

(** [GET /api/status] of [queue3] at 700 s. *)
Lemma api_status_lists_the_table_witness :
  exists v st',
    api_status (fun _ => 700000000) 700000000 queue3 = Some (Return v, st') /\
    map id (status_json.waiting v) = queue (persons st') /\
    status_json.tour_length_seconds v = 300.
Proof.
  destruct (api_status_lists_the_table (fun _ => 700000000) 700000000 queue3)
    as (v & st' & E & _ & _ & _ & Hq & _ & _ & _ & HL & _).
  - exact queue3_pk.
  - exact queue3_I1.
  - exists v, st'. auto.
Defined.

